(** * recommendation-engine: a shallow embedding of the two recommenders

    The development follows the two pipelines of the repository:

    - [collab_filtering/transformations.py]: the item-based collaborative
      filter (interaction matrix, sparsity pruning, item-item similarity,
      per-user ranking, batch generation);
    - [processing.py] and [fb-recommender/main.py]: the frequent-itemset
      recommender (length filter on mined itemsets, per-candidate union of
      the top itemsets, melting into a two-column table).

    Pandas frames are lists of rows with explicit labels, Python exceptions
    are values of an error monad, [dict] is an insertion-ordered association
    list, [set]/[frozenset] are [gset Z]. *)

From Stdlib Require Import ZArith QArith Lia.
From stdpp Require Import base option list sorting gmap sets strings.

Close Scope Q_scope.
Open Scope Z_scope.
Open Scope nat_scope.

(** ** Python exceptions and the error monad *)

Module Py.

(** An exception is identified by the name of its class. *)
Inductive exn := Exc (cls : string).

Definition KeyError : exn := Exc "KeyError".
Definition ValueError : exn := Exc "ValueError".
Definition UnboundLocalError : exn := Exc "UnboundLocalError".
Definition AttributeError : exn := Exc "AttributeError".

Inductive result (A : Type) :=
| Ok (a : A)
| Raise (e : exn).
Arguments Ok {A} a.
Arguments Raise {A} e.

#[global] Instance result_ret : MRet result := @Ok.
#[global] Instance result_bind : MBind result := λ A B f m,
  match m with
  | Ok a => f a
  | Raise e => Raise e
  end.

Definition of_option {A} (e : exn) (o : option A) : result A :=
  match o with
  | Some a => Ok a
  | None => Raise e
  end.

(** [d[k] = v] on a [dict]: an existing key keeps its position and takes
    the new value, a new key goes last. *)
Fixpoint dict_set {K V} `{EqDecision K} (d : list (K * V)) (k : K) (v : V)
  : list (K * V) :=
  match d with
  | [] => [(k, v)]
  | (k', v') :: d' =>
      if decide (k' = k) then (k, v) :: d' else (k', v') :: dict_set d' k v
  end.

Fixpoint dict_get {K V} `{EqDecision K} (d : list (K * V)) (k : K) : option V :=
  match d with
  | [] => None
  | (k', v') :: d' => if decide (k' = k) then Some v' else dict_get d' k
  end.

Definition keys {K V} (d : list (K * V)) : list K := d.*1.

(** [l[:n]]: a negative bound counts from the end. *)
Definition slice_to {A} (n : Z) (l : list A) : list A :=
  if (0 <=? n)%Z then take (Z.to_nat n) l
  else take (length l - Z.to_nat (- n)) l.

(** Position of the first occurrence of a label. *)
Fixpoint index_of {K} `{EqDecision K} (k : K) (l : list K) : option nat :=
  match l with
  | [] => None
  | k' :: l' => if decide (k' = k) then Some 0 else S <$> index_of k l'
  end.

End Py.
Import Py.

(** ** Frames *)

(** A [pandas.DataFrame]: row labels, column labels and the rectangular
    array of cells, one inner list per row. *)
Record DataFrame (V : Type) := mkDataFrame {
  index : list Z;
  columns : list Z;
  values : list (list V)
}.
Arguments mkDataFrame {V}.
Arguments index {V}.
Arguments columns {V}.
Arguments values {V}.

(** A [pandas.Series]: labelled values. *)
Definition Series (V : Type) := list (Z * V).

(** The cell at position [(i, j)] of an array. *)
Definition at_ {V} (arr : list (list V)) (i j : nat) : option V :=
  arr !! i ≫= λ r, r !! j.

Section Frames.
Context {V : Type}.

(** The rows with their labels. *)
Definition iterrows (m : DataFrame V) : list (Z * list V) :=
  zip (index m) (values m).

(** [m.loc[label]]: the row for a label of the index, as a series over
    the columns. Labels are unique in the frames of this program (they
    come out of [pivot_table]); the first match stands for it. *)
Definition loc (m : DataFrame V) (label : Z) : result (Series V) :=
  i ← of_option KeyError (index_of label (index m));
  row ← of_option KeyError (values m !! i);
  Ok (zip (columns m) row).

(** [m[label]] and [m.loc[:, label]]: a column, as a series over the index. *)
Definition getitem (m : DataFrame V) (label : Z) : result (Series V) :=
  j ← of_option KeyError (index_of label (columns m));
  Ok (omap (λ r : Z * list V, pair r.1 <$> r.2 !! j) (iterrows m)).

(** [m.loc[row, col]]: one cell. *)
Definition loc2 (m : DataFrame V) (row col : Z) : result V :=
  i ← of_option KeyError (index_of row (index m));
  j ← of_option KeyError (index_of col (columns m));
  r ← of_option KeyError (values m !! i);
  of_option KeyError (r !! j).

(** [m.drop(labels, axis=0)]. *)
Definition drop_rows (labels : list Z) (m : DataFrame V) : DataFrame V :=
  let kept := filter (λ r : Z * list V, r.1 ∉ labels) (iterrows m) in
  mkDataFrame kept.*1 (columns m) kept.*2.

(** [m.drop(labels, axis=1)]. *)
Definition drop_columns (labels : list Z) (m : DataFrame V) : DataFrame V :=
  let keep (row : list V) :=
    (filter (λ c : Z * V, c.1 ∉ labels) (zip (columns m) row)).*2 in
  mkDataFrame (index m) (filter (λ u, u ∉ labels) (columns m))
              (keep <$> values m).
End Frames.

(** ** Collaborative filtering: [collab_filtering/transformations.py] *)

(** The operations of [numpy.float64] the pipeline uses. Similarity scores
    are kept abstract in this interface; [Q_float64] below is an exact
    instance for running the definitions. *)
Class Float64 (F : Type) := {
  f0 : F;
  f1 : F;
  fadd : F → F → F;
  fsub : F → F → F;
  fmul : F → F → F;
  fdiv : F → F → F;
  fsqrt : F → F;
  feqb : F → F → bool;
  fltb : F → F → bool;
  (** [round(x, ndigits)] *)
  fround : Z → F → F;
  of_int : Z → F
}.

Module Collab.

(** A cell of the raw matrix is a count or absent (NaN). *)
Abbreviation cell := (option Z).

(** [c <= 1] on a cell: a comparison with NaN is [False]. *)
Definition le1 (c : cell) : bool :=
  match c with
  | Some v => bool_decide (v ≤ 1)%Z
  | None => false
  end.

(** [(series <= 1).sum()] *)
Definition count_le1 (s : Series cell) : nat :=
  length (filter (λ c : Z * cell, le1 c.2) s).

(** [series.isnull().sum()] *)
Definition count_null (s : Series cell) : nat :=
  length (filter (λ c : Z * cell, c.2 = None) s).

(** The first loop of [preprocess_user_item_matrix]: the items to drop. *)
Fixpoint li_prod (matrix : DataFrame cell) (labels : list Z) : result (list Z) :=
  match labels with
  | [] => Ok []
  | product_id :: rest =>
      row ← loc matrix product_id;
      li ← li_prod matrix rest;
      Ok (if count_le1 row <=? 2 then product_id :: li else li)
  end.

(** The second loop: the users left without any interaction. *)
Fixpoint li_users (matrix : DataFrame cell) (labels : list Z) : result (list Z) :=
  match labels with
  | [] => Ok []
  | user_id :: rest =>
      col ← getitem matrix user_id;
      li ← li_users matrix rest;
      Ok (if count_null col =? length (index matrix) then user_id :: li else li)
  end.

(** [matrix.fillna(0)] *)
Definition fillna0 (matrix : DataFrame cell) : DataFrame Z :=
  mkDataFrame (index matrix) (columns matrix)
              ((λ row : list cell, default 0%Z <$> row) <$> values matrix).

Definition preprocess_user_item_matrix (matrix : DataFrame cell)
  : result (DataFrame Z) :=
  prods ← li_prod matrix (index matrix);
  let matrix := drop_rows prods matrix in
  users ← li_users matrix (columns matrix);
  let matrix := drop_columns users matrix in
  Ok (fillna0 matrix).

Section Scores.
Context {F : Type} `{Float64 F}.

(** *** Similarity (scikit-learn and SciPy, as the source calls them) *)

Definition dot (u v : list F) : F :=
  foldl (λ acc (p : F * F), fadd acc (fmul p.1 p.2)) f0 (zip u v).

(** [sklearn.preprocessing.normalize]: rows scaled to unit l2 norm, a
    zero norm replaced by one. *)
Definition normalize (X : list (list F)) : list (list F) :=
  (λ u, let n := fsqrt (dot u u) in
        let n := if feqb n f0 then f1 else n in
        (λ x, fdiv x n) <$> u) <$> X.

(** [cosine_similarity(X)]: the Gram matrix of the normalized rows. *)
Definition cosine_similarity (X : list (list F)) : list (list F) :=
  let Xn := normalize X in
  (λ u, dot u <$> Xn) <$> Xn.

(** SciPy's Jaccard distance of two boolean vectors. *)
Definition jaccard_distance (u v : list bool) : F :=
  let pairs := zip u v in
  let num := length (filter (λ p : bool * bool, p.1 ≠ p.2) pairs) in
  let denom := length (filter (λ p : bool * bool, p.1 || p.2) pairs) in
  if denom =? 0 then f0
  else fdiv (of_int (Z.of_nat num)) (of_int (Z.of_nat denom)).

(** [scipy.spatial.distance.pdist]: the condensed vector of the
    distances of rows [i < j]. *)
Fixpoint pdist (X : list (list bool)) : list F :=
  match X with
  | [] => []
  | u :: X' => (jaccard_distance u <$> X') ++ pdist X'
  end.

(** Position of the pair [i < j] in the condensed vector of [m] rows. *)
Definition condensed_index (m i j : nat) : nat :=
  m * i - i * (i + 1) / 2 + (j - i - 1).

(** [scipy.spatial.distance.squareform]: the upper triangle is read off
    the condensed vector and mirrored, the diagonal is zero. *)
Definition square_entry (m : nat) (v : list F) (i j : nat) : F :=
  if decide (i = j) then f0
  else default f0 (v !! condensed_index m (i `min` j) (i `max` j)).

Definition squareform (m : nat) (v : list F) : list (list F) :=
  (λ i, square_entry m v i <$> seq 0 m) <$> seq 0 m.

(** [pairwise_distances(X, metric="jaccard")]: the data is converted to
    booleans, then [squareform(pdist(X))]. *)
Definition pairwise_distances_jaccard (X : list (list Z)) : list (list F) :=
  let B := (λ row : list Z, (λ x : Z, bool_decide (x ≠ 0%Z)) <$> row) <$> X in
  squareform (length X) (pdist B).

(** scikit-learn's input validation refuses an array without rows or
    without columns. *)
Definition check_array (m : DataFrame Z) : result (list (list Z)) :=
  match index m, columns m with
  | [], _ | _, [] => Raise ValueError
  | _, _ => Ok (values m)
  end.

(** When [type] is neither of the two metrics no branch binds
    [item_similarity_arr], and its use in the [DataFrame] constructor
    raises [UnboundLocalError]. *)
Definition generate_item_similarity_matrix
    (normalized_matrix : DataFrame Z) (type : string)
  : result (DataFrame F) :=
  item_similarity_arr ←
    (if decide (type = "cosine") then
       X ← check_array normalized_matrix;
       Ok (cosine_similarity ((λ row : list Z, of_int <$> row) <$> X))
     else if decide (type = "jaccard") then
       X ← check_array normalized_matrix;
       Ok ((λ row : list F, fsub f1 <$> row) <$> pairwise_distances_jaccard X)
     else Raise UnboundLocalError);
  Ok (mkDataFrame (index normalized_matrix) (index normalized_matrix)
                  item_similarity_arr).

(** *** Ranking *)

(** [series.sort_values(ascending=False)]; equal counts keep their
    relative order here, which the source leaves to the sort. *)
Fixpoint insert_desc (x : Z * Z) (l : list (Z * Z)) : list (Z * Z) :=
  match l with
  | [] => [x]
  | y :: l' => if (x.2 <? y.2)%Z then y :: insert_desc x l' else x :: l
  end.

Definition series_sort_values_desc (s : Series Z) : Series Z :=
  foldr insert_desc [] s.

(** [series.idxmax()]: the label of the first maximum. *)
Fixpoint argmax_from (best : Z * F) (s : Series F) : Z * F :=
  match s with
  | [] => best
  | x :: s' =>
      if fltb best.2 x.2 then argmax_from x s' else argmax_from best s'
  end.

Definition idxmax (s : Series F) : result Z :=
  match s with
  | [] => Raise ValueError
  | x :: s' => Ok (argmax_from x s').1
  end.

(** The seed items of a user: the non-zero cells of the column, by
    count descending, cut to [number_of_recommendations]. *)
Definition viewed_products (picked_userid : Z) (number_of_recommendations : Z)
    (user_item_matrix : DataFrame Z) : result (Series Z) :=
  all_products ← getitem user_item_matrix picked_userid;
  let viewed := filter (λ c : Z * Z, c.2 ≠ 0%Z) all_products in
  Ok (slice_to number_of_recommendations (series_sort_values_desc viewed)).

(** The lookup of the loop body: the nearest other item of a seed and
    its similarity. *)
Definition nearest_item (item_similarity_matrix : DataFrame F) (product : Z)
  : result (Z * F) :=
  series ← loc item_similarity_matrix product;
  let series := filter (λ c : Z * F, c.1 ≠ product) series in
  rec_product_id ← idxmax series;
  rec_product_similarity ← loc2 item_similarity_matrix product rec_product_id;
  Ok (rec_product_id, rec_product_similarity).

(** The loop over the seeds, threading the [rec_items] dict. *)
Fixpoint rec_items_loop (item_similarity_matrix : DataFrame F)
    (seeds : list Z) (rec_items : list (Z * F)) : result (list (Z * F)) :=
  match seeds with
  | [] => Ok rec_items
  | product :: rest =>
      r ← nearest_item item_similarity_matrix product;
      rec_items_loop item_similarity_matrix rest
        (dict_set rec_items r.1 (fround 5 r.2))
  end.

Record recommendation := mkRecommendation {
  user_id : Z;
  type_ : Z;
  product_id : list Z
}.

Definition get_item_recommendations (picked_userid : Z)
    (number_of_recommendations : Z) (user_item_matrix : DataFrame Z)
    (item_similarity_matrix : DataFrame F) : result recommendation :=
  viewed ← viewed_products picked_userid number_of_recommendations
             user_item_matrix;
  rec_items ← rec_items_loop item_similarity_matrix viewed.*1 [];
  Ok (mkRecommendation picked_userid 1 (keys rec_items)).

(** *** Batch generation *)

(** A row of the final frame; [explode] of an empty list leaves one row
    with a missing product. *)
Definition rec_row : Type := Z * Z * option Z.

Definition explode (d : recommendation) : list rec_row :=
  match product_id d with
  | [] => [(user_id d, type_ d, None)]
  | ps => (λ p, (user_id d, type_ d, Some p)) <$> ps
  end.

Definition NUM_RECOMMENDATIONS : Z := 6.

(** The loop over the users; the [except] branch leaves the loop. *)
Fixpoint collect_dfs (user_item_matrix : DataFrame Z)
    (item_similarity_matrix : DataFrame F) (user_ids : list Z)
    (li_dfs : list (list rec_row)) : list (list rec_row) :=
  match user_ids with
  | [] => li_dfs
  | id :: rest =>
      match get_item_recommendations id NUM_RECOMMENDATIONS
              user_item_matrix item_similarity_matrix with
      | Ok recommendation_dict =>
          collect_dfs user_item_matrix item_similarity_matrix rest
            (li_dfs ++ [explode recommendation_dict])
      | Raise _ => li_dfs
      end
  end.

(** [pd.concat]: refuses an empty list of frames. *)
Definition pd_concat (dfs : list (list rec_row)) : result (list rec_row) :=
  match dfs with
  | [] => Raise ValueError
  | _ => Ok (concat dfs)
  end.

Definition generate_final_recommendation_df (user_item_matrix : DataFrame Z)
    (item_similarity_matrix : DataFrame F) : result (list rec_row) :=
  pd_concat (collect_dfs user_item_matrix item_similarity_matrix
               (columns user_item_matrix) []).

End Scores.
End Collab.

(** ** Frequent itemsets: [processing.py] and [fb-recommender/main.py] *)

Module Itemsets.

(** A row of the processed result set: the support FP-growth reports, the
    itemset and the [len] column [process_results] adds. *)
Record itemset_row := mkRow {
  support : Q;
  itemsets : gset Z;
  len : nat
}.

(** [process_results]: adds the [len] column to the mined result set and
    keeps the rows with more than 2 items. The frame without rows, which
    FP-growth returns when nothing is frequent, has float64 columns, and
    [.str] on its [itemsets] column raises [AttributeError]. *)
Definition process_results (result_set : list (Q * gset Z))
  : result (list itemset_row) :=
  match result_set with
  | [] => Raise AttributeError
  | _ :: _ =>
      let result_set :=
        (λ r : Q * gset Z, mkRow r.1 r.2 (size r.2)) <$> result_set in
      Ok (filter (λ r, 2 < len r) result_set)
  end.

(** [y] sorts strictly before [x] under
    [sort_values(by=['support','len'], ascending=False)]. *)
Definition before (y x : itemset_row) : bool :=
  match (support y ?= support x)%Q with
  | Gt => true
  | Lt => false
  | Eq => len x <? len y
  end.

Fixpoint insert_row (x : itemset_row) (l : list itemset_row) : list itemset_row :=
  match l with
  | [] => [x]
  | y :: l' => if before y x then y :: insert_row x l' else x :: l
  end.

(** The sort on several keys is stable: ties keep the frame's order. *)
Definition sort_values_desc (l : list itemset_row) : list itemset_row :=
  foldr insert_row [] l.

(** The itemsets selected for a candidate: [subset.head(3)['itemsets']]. *)
Definition top_n (processed_results : list itemset_row) (id : Z) : list (gset Z) :=
  let subset :=
    sort_values_desc (filter (λ r, id ∈ itemsets r) processed_results) in
  itemsets <$> take 3 subset.

(** The body of the loop of [generate_final_dataframe]; [set.remove]
    raises [KeyError] on a missing element. *)
Definition recommended_set (processed_results : list itemset_row) (id : Z)
  : result (gset Z) :=
  let unique_set : gset Z := ⋃ top_n processed_results id in
  if decide (id ∈ unique_set) then Ok (unique_set ∖ {[id]})
  else Raise KeyError.

Fixpoint build_dic (processed_results : list itemset_row) (run_ids : list Z)
    (dic : list (Z * gset Z)) : result (list (Z * gset Z)) :=
  match run_ids with
  | [] => Ok dic
  | id :: rest =>
      unique_set ← recommended_set processed_results id;
      build_dic processed_results rest (dict_set dic id unique_set)
  end.

(** The float64 nearest to an int64, written as the integer that float
    holds: integers of at most 53 significant bits are kept, longer ones
    are rounded to 53 bits, ties to the even significand. The cast back
    with [astype('int')] returns the integer held (for ids whose rounding
    stays within int64). *)
Definition float64_of_int (z : Z) : Z :=
  let a := Z.abs z in
  let e := (Z.log2 a - 52)%Z in
  if (e <=? 0)%Z then z
  else
    let q := (a / 2 ^ e)%Z in
    let r := (a mod 2 ^ e)%Z in
    let up :=
      match (r ?= 2 ^ (e - 1))%Z with
      | Lt => false
      | Gt => true
      | Eq => Z.odd q
      end in
    (Z.sgn z * ((if up then q + 1 else q) * 2 ^ e))%Z.

(** The rows the frame is built from: per key, the members of its set in
    the set's iteration order. *)
Definition dict_rows (dic : list (Z * gset Z)) : list (Z * list Z) :=
  (λ kv : Z * gset Z, (kv.1, elements kv.2)) <$> dic.

(** Value column [j] misses a cell, filled with NaN, when some row is no
    longer than [j]. *)
Definition has_nan (table : list (Z * list Z)) (j : nat) : bool :=
  existsb (λ r : Z * list Z, length r.2 <=? j) table.

(** [DataFrame.from_dict(dic, orient='index').reset_index()]: one row per
    key; shorter rows are padded with NaN. A value column that holds a NaN
    is float64 and stores its members as floats, the others are int64. The
    rows are kept without their padding. *)
Definition from_dict (dic : list (Z * gset Z)) : list (Z * list Z) :=
  let table := dict_rows dic in
  (λ r : Z * list Z,
     (r.1, imap (λ j v, if has_nan table j then float64_of_int v else v) r.2))
  <$> table.

(** The number of value columns: the longest row. *)
Definition width (table : list (Z * list Z)) : nat :=
  max_list ((λ r : Z * list Z, length r.2) <$> table).

(** The value columns one below the other, a missing cell where a row
    does not reach the column. *)
Definition stack (table : list (Z * list Z)) : list (Z * option Z) :=
  j ← seq 0 (width table);
  (λ r : Z * list Z, (r.1, r.2 !! j)) <$> table.

(** [df.melt(id_vars=['product_id'], value_vars=df.columns)]: the id column
    is taken out of the value columns, the others are stacked column by
    column into one column of their common dtype: float64 as soon as one of
    them is float64, which turns the members of the int64 columns into
    floats too. *)
Definition melt (table : list (Z * list Z)) : list (Z * option Z) :=
  let upcast :=
    if existsb (has_nan table) (seq 0 (width table)) then float64_of_int
    else id in
  (λ r : Z * option Z, (r.1, upcast <$> r.2)) <$> stack table.

Fixpoint insert_by_product_id (x : Z * option Z) (l : list (Z * option Z))
  : list (Z * option Z) :=
  match l with
  | [] => [x]
  | y :: l' =>
      if (y.1 <? x.1)%Z then y :: insert_by_product_id x l' else x :: l
  end.

(** [sort_values(by='product_id')]; rows of one product keep their
    relative order here, which the source leaves to the sort. *)
Definition sort_by_product_id (l : list (Z * option Z)) : list (Z * option Z) :=
  foldr insert_by_product_id [] l.

(** [dropna(subset=['recommended_product_id'])], then the cast to int,
    which returns the integers the column holds. *)
Definition dropna (l : list (Z * option Z)) : list (Z * Z) :=
  omap (λ r : Z * option Z, pair r.1 <$> r.2) l.

(** The final frame: rows [(product_id, recommended_product_id)]. *)
Definition generate_final_dataframe (processed_results : list itemset_row)
    (run_ids : list Z) : result (list (Z * Z)) :=
  dic ← build_dic processed_results run_ids [];
  Ok (dropna (sort_by_product_id (melt (from_dict dic)))).

(** [main.py]: the candidates are the members of all surviving itemsets. *)
Definition product_id_set (processed_results : list itemset_row) : gset Z :=
  ⋃ (itemsets <$> processed_results).

Definition run_ids (processed_results : list itemset_row) : list Z :=
  elements (product_id_set processed_results).

(** Every product id of the itemsets is at most [2 ^ 53] in absolute
    value, so that it is a float64. *)
Definition ids_exact (processed_results : list itemset_row) : Prop :=
  ∀ row x, row ∈ processed_results → x ∈ itemsets row → (Z.abs x ≤ 2 ^ 53)%Z.

(** The records emitted for one candidate. *)
Definition records_of (id : Z) (df : list (Z * Z)) : list (Z * Z) :=
  filter (λ r : Z * Z, r.1 = id) df.

(** Their number, counted before the missing cells are dropped. *)
Definition hits (id : Z) (l : list (Z * option Z)) : nat :=
  length (records_of id (dropna l)).

End Itemsets.

(** ** An exact instance of the score interface *)

Module QFloat.

(** [round(x, n)] for [0 <= n]: nearest multiple of [10^-n], ties to even. *)
Definition Qround (n : Z) (x : Q) : Q :=
  let s := (10 ^ n)%Z in
  let num := (Qnum x * s)%Z in
  let den := Zpos (Qden x) in
  let q := (num / den)%Z in
  let r := (num mod den)%Z in
  let up :=
    match (2 * r ?= den)%Z with
    | Lt => false
    | Gt => true
    | Eq => Z.odd q
    end in
  Qred (Qmake (if up then q + 1 else q) (Z.to_pos s)).

(** A rational approximation of the square root, to 15 decimals. *)
Definition Qsqrt (x : Q) : Q :=
  let s := (10 ^ 15)%Z in
  Qred (Qmake (Z.sqrt (Qnum x * Zpos (Qden x) * s * s))
              (Qden x * Z.to_pos s)).

#[global] Instance Q_float64 : Float64 Q := {|
  f0 := 0%Q;
  f1 := 1%Q;
  fadd := λ x y, Qred (x + y)%Q;
  fsub := λ x y, Qred (x - y)%Q;
  fmul := λ x y, Qred (x * y)%Q;
  fdiv := λ x y, Qred (x / y)%Q;
  fsqrt := Qsqrt;
  feqb := Qeq_bool;
  fltb := λ x y, negb (Qle_bool y x);
  fround := Qround;
  of_int := inject_Z
|}.

End QFloat.

Import Collab Itemsets QFloat.

(** Closes a decidable closed goal by evaluation. *)
Ltac by_compute := apply (bool_decide_unpack _); vm_compute; exact I.

(** ** Error kinds of the specification *)

(** The specification names these error kinds; the source defines no
    exception class of its own. *)
Module SpecErrors.
Definition UnsupportedSimilarityMetric : exn := Exc "UnsupportedSimilarityMetric".
Definition InsufficientSupportItemsets : exn := Exc "InsufficientSupportItemsets".
End SpecErrors.

(** ** Sample data *)

Module Samples.

(** The processed matrix of the pairwise worked example: items 10, 20, 30
    against users 1, 2, 3. *)
Definition worked_matrix : DataFrame Z :=
  mkDataFrame [10; 20; 30]%Z [1; 2; 3]%Z
    [[2; 0; 1];
     [1; 3; 0];
     [0; 1; 2]]%Z.

(** Its cosine similarity frame, as [generate_item_similarity_matrix]
    computes it over [Q_float64]. *)
Definition worked_similarity : DataFrame Q :=
  Eval vm_compute in
    match generate_item_similarity_matrix worked_matrix "cosine" with
    | Ok sim => sim
    | Raise _ => mkDataFrame [] [] []
    end.

(** A raw matrix with absent cells. *)
Definition raw_matrix : DataFrame cell :=
  mkDataFrame [10; 20; 30]%Z [1; 2; 3; 4]%Z
    [[Some 1; Some 1; Some 1; None];
     [Some 1; Some 3; None; None];
     [Some 1; Some 1; Some 2; Some 1]]%Z.

(** A matrix with a single item: no other item can be nearest to it. *)
Definition single_item_matrix : DataFrame Z :=
  mkDataFrame [10]%Z [1; 2; 3]%Z [[0; 4; 1]]%Z.

Definition single_item_similarity : DataFrame Q :=
  Eval vm_compute in
    match generate_item_similarity_matrix single_item_matrix "cosine" with
    | Ok sim => sim
    | Raise _ => mkDataFrame [] [] []
    end.

(** Mined itemsets, one of them too short to survive. *)
Definition mined : list (Q * gset Z) :=
  [((1 # 2)%Q, {[1; 2; 3]}); ((1 # 4)%Q, {[1; 2; 3; 4]}); ((1 # 4)%Q, {[1; 5; 6]});
   ((1 # 2)%Q, {[7; 8]})]%Z.

Definition surviving : list itemset_row :=
  [mkRow (1 # 2)%Q {[1; 2; 3]} 3; mkRow (1 # 4)%Q {[1; 2; 3; 4]} 4;
   mkRow (1 # 4)%Q {[1; 5; 6]} 3]%Z.

Definition short_only : list (Q * gset Z) :=
  [((1 # 2)%Q, {[1; 2]}); ((1 # 3)%Q, {[4]})]%Z.

End Samples.

(** ** The remaining stages of the two pipelines *)

(** The distinct values of a key column in ascending order, as [groupby],
    [pivot_table] and [sorted(set(...))] list them. *)
Definition sorted_unique (l : list Z) : list Z :=
  merge_sort Z.le (remove_dups l).

(** A frame is rectangular when every row label has a row and every row
    a cell per column. *)
Definition rectangular {V} (m : DataFrame V) : Prop :=
  length (values m) = length (index m)
  ∧ Forall (λ row, length row = length (columns m)) (values m).

Module Build.

(** A raw event [(user_id, product_id)]; either field may be null. *)
Abbreviation event := (option Z * option Z)%type.

(** The rows [groupby(['user_id','product_id'])] keeps: a null key drops
    the row. *)
Definition keyed (df : list event) : list (Z * Z) :=
  omap (λ r : event, u ← r.1; p ← r.2; Some (u, p)) df.

(** The size of the group of [(user_id, product_id)]. *)
Definition group_count (rows : list (Z * Z)) (user_id product_id : Z) : nat :=
  length (filter (λ r : Z * Z, r = (user_id, product_id)) rows).

(** The cell the pivot holds: the group's count, absent for no group. *)
Definition pivot_cell (rows : list (Z * Z)) (product_id user_id : Z) : cell :=
  let c := group_count rows user_id product_id in
  if c =? 0 then None else Some (Z.of_nat c).

(** [generate_user_item_matrix]: counts per [(user_id, product_id)],
    pivoted with the products as rows and the users as columns, both in
    ascending order. *)
Definition generate_user_item_matrix (df : list event) : DataFrame cell :=
  let rows := keyed df in
  let products := sorted_unique rows.*2 in
  let users := sorted_unique rows.*1 in
  mkDataFrame products users
    ((λ p, pivot_cell rows p <$> users) <$> products).

End Build.

Module Transactions.

(** A raw order line [(order_id, product_id)]; either field may be null. *)
Abbreviation line := (option Z * option Z)%type.

(** [df.dropna(axis=0, how='all')] *)
Definition dropna_all (df : list line) : list line :=
  filter (λ r : line, ¬ (r.1 = None ∧ r.2 = None)) df.

(** [df.groupby(['order_id'])['product_id'].count()]: per order, in
    ascending order of the id, the number of non-null products. *)
Definition count_product_per_order (df : list line) : list (Z * nat) :=
  (λ o, (o, length (filter (λ r : line, r.1 = Some o ∧ r.2 ≠ None) df)))
  <$> sorted_unique (omap fst df).

(** The orders with fewer than [count_x] products. *)
Definition orders_with_less_than_x_products (df : list line) (count_x : Z)
  : list Z :=
  (filter (λ c : Z * nat, (Z.of_nat c.2 < count_x)%Z)
     (count_product_per_order df)).*1.

(** The outer merge with the indicator, cut to [left_only]: the rows whose
    order is not one of [orders]; a null order matches none. *)
Definition left_only (df : list line) (orders : list Z) : list line :=
  filter (λ r : line, from_option (λ o, bool_decide (o ∉ orders)) true r.1) df.

(** [df.groupby('order_id')['product_id'].apply(list)]: per order, in
    ascending order of the id, the products of its rows in row order;
    rows with a null order belong to no group. *)
Definition group_products (df : list line) : list (Z * list (option Z)) :=
  (λ o, (o, (filter (λ r : line, r.1 = Some o) df).*2))
  <$> sorted_unique (omap fst df).

Definition pre_process (df : list line) (count_x : Z)
  : list (Z * list (option Z)) :=
  let df := dropna_all df in
  let orders := orders_with_less_than_x_products df count_x in
  let df := left_only df orders in
  group_products df.

(** [generate_items_list]: the column of product lists. *)
Definition generate_items_list (df_in : list (Z * list (option Z)))
  : list (list (option Z)) :=
  df_in.*2.

(** [encode_transactions] on transactions without null items: the
    columns are the distinct items in ascending order
    ([TransactionEncoder.columns_]), a cell says whether the transaction
    holds the item. *)
Definition encode_transactions (transaction_list : list (list Z))
  : list Z * list (list bool) :=
  let columns_ := sorted_unique (concat transaction_list) in
  (columns_,
   (λ t : list Z, (λ c, bool_decide (c ∈ t)) <$> columns_) <$> transaction_list).

(** The items a row of the encoded frame marks. *)
Definition decode_row (columns_ : list Z) (row : list bool) : list Z :=
  (filter (λ c : Z * bool, c.2) (zip columns_ row)).*1.

End Transactions.

Module Main.

(** [fb-recommender/main.py] from the mined result set on: the length
    filter, the candidates, the final frame. *)
Definition final_df_of_result_set (result_set : list (Q * gset Z))
  : result (list (Z * Z)) :=
  processed_results ← process_results result_set;
  generate_final_dataframe processed_results (run_ids processed_results).

Section Scores.
Context {F : Type} `{Float64 F}.

(** [collab_filtering/main.py] from the raw events on: the matrix, its
    pre-processing, the similarity frame of the given metric, the batch of
    recommendations. *)
Definition final_recommendation_df_of_events (rec_df_raw : list Build.event)
    (type : string) : result (list rec_row) :=
  let raw_user_item_matrix := Build.generate_user_item_matrix rec_df_raw in
  processed_user_item_matrix ←
    preprocess_user_item_matrix raw_user_item_matrix;
  item_similarity_matrix ←
    generate_item_similarity_matrix (F:=F) processed_user_item_matrix type;
  generate_final_recommendation_df processed_user_item_matrix
    item_similarity_matrix.

End Scores.
End Main.

Module Utility.

(** The retry loop of [write_df_to_database]. [to_sql k] is the outcome of
    the call of [df.to_sql] made after [k] failed attempts: the number of
    rows written, or the exception the [except] clause catches. The loop
    returns the final [(retries_attempted, to_insert)], or nothing when
    the fuel does not reach the end of the loop. *)
Fixpoint while_loop (to_sql : nat → result nat) (fuel retries_attempted : nat)
    (to_insert : bool) : option (nat * bool) :=
  if (retries_attempted <? 3) && to_insert then
    match fuel with
    | 0 => None
    | S fuel =>
        match to_sql retries_attempted with
        | Ok rows_inserted => while_loop to_sql fuel retries_attempted false
        | Raise e => while_loop to_sql fuel (retries_attempted + 1) true
        end
    end
  else Some (retries_attempted, to_insert).

Definition write_df_to_database (to_sql : nat → result nat) (fuel : nat)
  : option (nat * bool) :=
  while_loop to_sql fuel 0 true.

End Utility.

(** ** Sample data for the remaining stages *)

Module Events.

(** Raw events: users 1, 2 and 3 each have one event with items 10 and
    20; item 30 has two events of user 1 and one of user 4; two rows miss
    a key. *)
Definition events : list Build.event :=
  [(Some 1, Some 10); (Some 2, Some 10); (Some 3, Some 10);
   (Some 1, Some 20); (Some 2, Some 20); (Some 3, Some 20);
   (Some 1, Some 30); (Some 1, Some 30); (Some 4, Some 30);
   (None, Some 10); (Some 2, None)]%Z.

(** The worked matrix with other non-zero counts. *)
Definition recounted_matrix : DataFrame Z :=
  mkDataFrame [10; 20; 30]%Z [1; 2; 3]%Z
    [[5; 0; 1];
     [1; 1; 0];
     [0; 7; 2]]%Z.

(** Two surviving itemsets; one holds the ids [2 ^ 53] and [2 ^ 53 + 1],
    which have the same nearest float. *)
Definition rounded : list itemset_row :=
  [mkRow (1 # 2)%Q {[5; 9007199254740992; 9007199254740993]} 3;
   mkRow (1 # 4)%Q {[5; 6; 7; 8]} 4]%Z.

(** A database that refuses the first two writes. *)
Definition flaky_to_sql (k : nat) : result nat :=
  if k <? 2 then Raise (Exc "OperationalError") else Ok 100.

End Events.

(** ** Facts about the Python layer *)

Section PyFacts.
Context {K V : Type} `{EqDecision K}.
Implicit Types (d : list (K * V)) (k : K) (v : V).

Lemma keys_dict_set d k v :
  keys (dict_set d k v) = if decide (k ∈ keys d) then keys d else keys d ++ [k].
Proof.
  unfold keys. induction d as [|[k' v'] d IH]; csimpl.
  - destruct (decide (k ∈ [])) as [Hin|_]; [by apply elem_of_nil in Hin | done].
  - destruct (decide (k' = k)) as [->|Hne]; csimpl.
    + rewrite decide_True by left. done.
    + rewrite IH. destruct (decide (k ∈ d.*1)) as [Hin|Hin].
      * rewrite decide_True by (by right). done.
      * rewrite decide_False; [done|].
        intros [?|?]%elem_of_cons; congruence.
Qed.

Lemma length_dict_set d k v : length (dict_set d k v) ≤ S (length d).
Proof.
  induction d as [|[k' v'] d IH]; simpl; [lia|].
  destruct (decide (k' = k)); simpl; lia.
Qed.

Lemma NoDup_keys_dict_set d k v : NoDup (keys d) → NoDup (keys (dict_set d k v)).
Proof.
  intros Hnd. rewrite keys_dict_set. case_decide as Hin; [done|].
  apply NoDup_app. split_and!; [done| |apply NoDup_singleton].
  intros x Hx ->%list_elem_of_singleton. done.
Qed.

Lemma dict_get_set_eq d k v : dict_get (dict_set d k v) k = Some v.
Proof.
  induction d as [|[k' v'] d IH]; simpl.
  - by rewrite decide_True.
  - destruct (decide (k' = k)) as [->|Hne]; simpl.
    + by rewrite decide_True.
    + by rewrite decide_False.
Qed.

Lemma dict_get_set_ne d k k' v : k ≠ k' → dict_get (dict_set d k v) k' = dict_get d k'.
Proof.
  intros Hne. induction d as [|[k0 v0] d IH]; simpl.
  - by rewrite decide_False.
  - destruct (decide (k0 = k)) as [->|Hne0]; simpl.
    + by rewrite !decide_False.
    + by rewrite IH.
Qed.

Lemma elem_of_dict_set d k v (x : K * V) :
  x ∈ dict_set d k v → x = (k, v) ∨ x ∈ d.
Proof.
  induction d as [|[k' v'] d IH]; simpl.
  - intros ->%list_elem_of_singleton. by left.
  - destruct (decide (k' = k)) as [->|Hne].
    + intros [->|?]%elem_of_cons; [by left | right; by right].
    + intros [->|Hin]%elem_of_cons; [right; by left|].
      destruct (IH Hin); [by left | right; by right].
Qed.

Lemma dict_get_elem_of d k v : NoDup (keys d) → (k, v) ∈ d → dict_get d k = Some v.
Proof.
  unfold keys. induction d as [|[k' v'] d IH]; simpl.
  - by intros _ ?%elem_of_nil.
  - intros [Hnotin Hnd]%NoDup_cons [Heq|Hin]%elem_of_cons.
    + injection Heq as -> ->. by rewrite decide_True.
    + rewrite decide_False; [by apply IH|].
      intros ->. apply Hnotin. apply list_elem_of_fmap. by exists (k, v).
Qed.
End PyFacts.

Lemma length_slice_to {A} (n : Z) (l : list A) :
  (0 ≤ n)%Z → length (slice_to n l) ≤ Z.to_nat n.
Proof.
  intros Hn. unfold slice_to.
  destruct (0 <=? n)%Z eqn:E; [|lia].
  rewrite length_take. lia.
Qed.

Lemma index_of_lookup {K} `{EqDecision K} (k : K) (l : list K) i :
  index_of k l = Some i → l !! i = Some k.
Proof.
  revert i. induction l as [|k' l IH]; intros i; simpl; [done|].
  destruct (decide (k' = k)) as [->|Hne].
  - by intros [= <-].
  - destruct (index_of k l) as [i'|]; [|done].
    intros [= <-]. simpl. by apply IH.
Qed.

Lemma index_of_elem_of {K} `{EqDecision K} (k : K) (l : list K) :
  k ∈ l → is_Some (index_of k l).
Proof.
  induction l as [|k' l IH]; simpl; [by intros ?%elem_of_nil|].
  intros Hin. destruct (decide (k' = k)) as [->|Hne]; [by eexists|].
  apply elem_of_cons in Hin as [->|Hin]; [done|].
  destruct (IH Hin) as [i ->]. by eexists.
Qed.

(** ** The itemset recommender *)

Section ItemsetFacts.
Implicit Types (processed_results : list itemset_row) (id : Z).

Lemma insert_row_perm x l : insert_row x l ≡ₚ x :: l.
Proof.
  induction l as [|y l IH]; simpl; [done|].
  destruct (before y x); [|done].
  rewrite IH. apply Permutation_swap.
Qed.

Lemma sort_values_desc_perm l : sort_values_desc l ≡ₚ l.
Proof.
  induction l as [|x l IH]; simpl; [done|].
  by rewrite insert_row_perm, IH.
Qed.

Lemma elem_of_top_n processed_results id (X : gset Z) :
  X ∈ top_n processed_results id →
  id ∈ X ∧ ∃ r, r ∈ processed_results ∧ itemsets r = X.
Proof.
  unfold top_n. intros (r & -> & Hr)%list_elem_of_fmap.
  apply subseteq_take in Hr. rewrite sort_values_desc_perm in Hr.
  apply list_elem_of_filter in Hr as [Hid Hr]. eauto.
Qed.

Lemma length_top_n processed_results id : length (top_n processed_results id) ≤ 3.
Proof. unfold top_n. rewrite length_fmap, length_take. lia. Qed.

Lemma top_n_nonempty processed_results id :
  id ∈ product_id_set processed_results → top_n processed_results id ≠ [].
Proof.
  unfold product_id_set, top_n.
  intros (X & (r & -> & Hr)%list_elem_of_fmap & Hid)%elem_of_union_list.
  assert (r ∈ sort_values_desc
                (filter (λ r, id ∈ itemsets r) processed_results)) as Hin.
  { rewrite sort_values_desc_perm. by apply list_elem_of_filter. }
  destruct (sort_values_desc _) as [|y l]; [by apply elem_of_nil in Hin|done].
Qed.

Lemma subset_nonempty processed_results id :
  id ∈ product_id_set processed_results →
  filter (λ r, id ∈ itemsets r) processed_results ≠ [].
Proof.
  unfold product_id_set.
  intros (X & (r & -> & Hr)%list_elem_of_fmap & Hid)%elem_of_union_list Hnil.
  by apply (filter_nil_not_elem_of _ _ r Hnil Hid).
Qed.

Lemma candidate_in_union processed_results id :
  id ∈ product_id_set processed_results →
  id ∈ (⋃ top_n processed_results id : gset Z).
Proof.
  intros Hid. pose proof (top_n_nonempty _ _ Hid) as Hne.
  destruct (top_n processed_results id) as [|X Xs] eqn:E; [done|].
  apply elem_of_union_list. exists X. split; [left|].
  apply (elem_of_top_n processed_results). rewrite E. left.
Qed.

Lemma recommended_set_Ok processed_results id s :
  recommended_set processed_results id = Ok s →
  s = ⋃ top_n processed_results id ∖ {[id]} ∧ id ∈ (⋃ top_n processed_results id : gset Z).
Proof.
  unfold recommended_set. case_decide; [|done]. by intros [= <-].
Qed.

(** Every entry of the dict was computed by the loop body for its key,
    and every candidate has an entry. *)
Lemma build_dic_entries processed_results run_ids dic dic' :
  build_dic processed_results run_ids dic = Ok dic' →
  (∀ kv, kv ∈ dic → recommended_set processed_results kv.1 = Ok kv.2) →
  ∀ kv, kv ∈ dic' → recommended_set processed_results kv.1 = Ok kv.2.
Proof.
  revert dic. induction run_ids as [|id rest IH]; intros dic; simpl.
  - by intros [= <-].
  - destruct (recommended_set processed_results id) as [s|e] eqn:E; [|done].
    simpl. intros Hb Hdic. eapply IH; [done|].
    intros kv [->|Hin]%elem_of_dict_set; [done|by apply Hdic].
Qed.

Lemma build_dic_NoDup processed_results run_ids dic dic' :
  build_dic processed_results run_ids dic = Ok dic' →
  NoDup (keys dic) → NoDup (keys dic').
Proof.
  revert dic. induction run_ids as [|id rest IH]; intros dic; simpl.
  - by intros [= <-].
  - destruct (recommended_set processed_results id) as [s|e]; [|done].
    simpl. intros Hb Hnd. eapply IH; [done|]. by apply NoDup_keys_dict_set.
Qed.

Lemma build_dic_keys processed_results run_ids dic dic' :
  build_dic processed_results run_ids dic = Ok dic' →
  ∀ id, id ∈ keys dic' ↔ id ∈ keys dic ∨ id ∈ run_ids.
Proof.
  revert dic. induction run_ids as [|id rest IH]; intros dic; simpl.
  - intros [= <-] id. rewrite elem_of_nil. tauto.
  - destruct (recommended_set processed_results id) as [s|e]; [|done].
    simpl. intros Hb x. rewrite (IH _ Hb), keys_dict_set, elem_of_cons.
    case_decide; [|rewrite elem_of_app, list_elem_of_singleton];
      intuition (subst; auto).
Qed.

Lemma build_dic_total processed_results run_ids dic :
  (∀ id, id ∈ run_ids → id ∈ product_id_set processed_results) →
  ∃ dic', build_dic processed_results run_ids dic = Ok dic'.
Proof.
  revert dic. induction run_ids as [|id rest IH]; intros dic Hids; simpl.
  - by eexists.
  - unfold recommended_set at 1.
    rewrite decide_True by (apply candidate_in_union, Hids; left).
    simpl. apply IH. intros x Hx. apply Hids. by right.
Qed.
End ItemsetFacts.

(** *** From the dict to the melted frame *)

Section MeltFacts.
Implicit Types (table : list (Z * list Z)) (id : Z).

Lemma insert_by_product_id_perm x l : insert_by_product_id x l ≡ₚ x :: l.
Proof.
  induction l as [|y l IH]; simpl; [done|].
  destruct (y.1 <? x.1)%Z; [|done].
  rewrite IH. apply Permutation_swap.
Qed.

Lemma sort_by_product_id_perm l : sort_by_product_id l ≡ₚ l.
Proof.
  induction l as [|x l IH]; simpl; [done|].
  by rewrite insert_by_product_id_perm, IH.
Qed.

(** A row of the stacked columns comes from a cell of the table. *)
Lemma elem_of_stack table id (r : Z) :
  (id, Some r) ∈ stack table → ∃ t, (id, t) ∈ table ∧ r ∈ t.
Proof.
  unfold stack. intros (j & Hin & _)%list_elem_of_bind.
  apply list_elem_of_fmap in Hin as ([id' t] & [= -> Hr] & Hin).
  exists t. split; [done|]. simpl in Hr. symmetry in Hr.
  by apply list_elem_of_lookup_2 in Hr.
Qed.

(** A row of the melted frame comes from a cell of the table, as it is or
    as the float nearest to it. *)
Lemma elem_of_melt table id (r : Z) :
  (id, Some r) ∈ melt table →
  ∃ t v, (id, t) ∈ table ∧ v ∈ t ∧ (r = v ∨ r = float64_of_int v).
Proof.
  unfold melt. intros ([id' o] & [= -> Hr] & Hin)%list_elem_of_fmap.
  simpl in Hr. destruct o as [v|]; [|done]. simpl in Hr. injection Hr as Hr.
  apply elem_of_stack in Hin as (t & Hin & Hv). exists t, v.
  split_and!; [done..|].
  destruct (existsb _ _) in Hr; [by right|by left].
Qed.

Lemma elem_of_final table (row : Z * Z) :
  row ∈ dropna (sort_by_product_id (melt table)) →
  ∃ t v, (row.1, t) ∈ table ∧ v ∈ t
         ∧ (row.2 = v ∨ row.2 = float64_of_int v).
Proof.
  unfold dropna. rewrite sort_by_product_id_perm.
  intros ([id o] & Hin & Hsome)%list_elem_of_omap. simpl in Hsome.
  destruct o as [r|]; [|done]. injection Hsome as <-.
  by apply elem_of_melt.
Qed.

Lemma hits_app id l1 l2 : hits id (l1 ++ l2) = hits id l1 + hits id l2.
Proof.
  unfold hits, records_of, dropna.
  by rewrite omap_app, filter_app, length_app.
Qed.

Lemma hits_perm id l1 l2 : l1 ≡ₚ l2 → hits id l1 = hits id l2.
Proof. unfold hits, records_of, dropna. by intros ->. Qed.

(** One stacked column holds a row for [id] for every table row of
    [id] whose tuple reaches that column. *)
Lemma hits_column table id j :
  hits id ((λ r : Z * list Z, (r.1, r.2 !! j)) <$> table)
  = length (filter (λ r : Z * list Z, j < length r.2)
              (filter (λ r : Z * list Z, r.1 = id) table)).
Proof.
  unfold hits, records_of, dropna.
  induction table as [|[id' t'] table IH]; csimpl; [done|].
  rewrite (filter_cons (λ r : Z * list Z, r.1 = id)). simpl.
  destruct (decide (id' = id)) as [->|Hne].
  - rewrite (filter_cons (λ r : Z * list Z, j < length r.2)). simpl.
    destruct (decide (j < length t')) as [Hlt|Hge].
    + apply lookup_lt_is_Some_2 in Hlt as [r ->]. simpl.
      rewrite filter_cons_True by done. simpl. by rewrite IH.
    + rewrite lookup_ge_None_2 by lia. simpl. by rewrite IH.
  - destruct (t' !! j) as [r|]; simpl; [|by rewrite IH].
    rewrite filter_cons_False by done. by rewrite IH.
Qed.

Lemma filter_key_NoDup table id t :
  NoDup table.*1 → (id, t) ∈ table →
  filter (λ r : Z * list Z, r.1 = id) table = [(id, t)].
Proof.
  induction table as [|[id' t'] table IH]; csimpl.
  - by intros _ ?%elem_of_nil.
  - intros [Hnotin Hnd]%NoDup_cons [Heq|Hin]%elem_of_cons.
    + injection Heq as <- <-. rewrite filter_cons_True by done.
      f_equal. destruct (filter _ table) as [|x l] eqn:E; [done|].
      assert (x ∈ filter (λ r : Z * list Z, r.1 = id) table) as Hx
        by (rewrite E; left).
      apply list_elem_of_filter in Hx as [Hx1 Hx2].
      destruct Hnotin. rewrite <- Hx1. by apply list_elem_of_fmap_2.
    + rewrite filter_cons_False; [by apply IH|].
      simpl. intros ->. apply Hnotin.
      by apply (list_elem_of_fmap_2 fst _ (id, t)).
Qed.

Lemma hits_columns table id (js : list nat) :
  hits id (js ≫= λ j, (λ r : Z * list Z, (r.1, r.2 !! j)) <$> table)
  = sum_list ((λ j, length (filter (λ r : Z * list Z, j < length r.2)
                (filter (λ r : Z * list Z, r.1 = id) table))) <$> js).
Proof.
  induction js as [|j js IH]; [done|].
  rewrite bind_cons, hits_app, hits_column, IH. done.
Qed.

Lemma sum_list_below n w :
  sum_list ((λ j, length (filter (λ r : Z * list Z, j < length r.2) [n]))
            <$> seq 0 w) = length n.2 `min` w.
Proof.
  induction w as [|w IH]; [simpl; lia|].
  rewrite seq_S, fmap_app, sum_list_with_app, IH. simpl.
  rewrite (filter_cons (λ r : Z * list Z, w < length r.2)).
  destruct (decide (w < length n.2)); simpl; lia.
Qed.

(** The common dtype changes the members, not which cells are present. *)
Lemma hits_upcast (f : Z → Z) id (l : list (Z * option Z)) :
  hits id ((λ r : Z * option Z, (r.1, f <$> r.2)) <$> l) = hits id l.
Proof.
  unfold hits, records_of, dropna.
  induction l as [|[id' o] l IH]; csimpl; [done|].
  destruct o as [r|]; simpl; [|done].
  rewrite !(filter_cons (λ r : Z * Z, r.1 = id)). simpl.
  destruct (decide (id' = id)); simpl; by rewrite IH.
Qed.

(** A product with a row in the table gets as many rows in the final
    frame as its tuple has members. *)
Lemma hits_melt table id t :
  NoDup table.*1 → (id, t) ∈ table → hits id (melt table) = length t.
Proof.
  intros Hnd Hin. unfold melt. rewrite hits_upcast. unfold stack.
  rewrite hits_columns, (filter_key_NoDup _ _ t Hnd Hin), sum_list_below.
  simpl. apply Nat.min_l. unfold width.
  apply max_list_elem_of_le.
  by apply (list_elem_of_fmap_2 (λ r : Z * list Z, length r.2) _ (id, t)).
Qed.

Lemma length_records_of table id t :
  NoDup table.*1 → (id, t) ∈ table →
  length (records_of id (dropna (sort_by_product_id (melt table)))) = length t.
Proof.
  intros Hnd Hin. rewrite <- (hits_melt table id t Hnd Hin).
  apply hits_perm, sort_by_product_id_perm.
Qed.
End MeltFacts.

Lemma size_union_le (X Y : gset Z) : size (X ∪ Y) ≤ size X + size Y.
Proof.
  rewrite size_union_alt.
  assert (Y ∖ X ⊆ Y) as Hsub by apply subseteq_difference_l, reflexivity.
  apply subseteq_size in Hsub. lia.
Qed.

Lemma size_union_list_remove (Xs : list (gset Z)) (id : Z) (L : nat) :
  (∀ X, X ∈ Xs → id ∈ X ∧ size X ≤ L) →
  size (⋃ Xs ∖ {[id]}) ≤ length Xs * (L - 1).
Proof.
  induction Xs as [|X Xs IH]; intros HXs.
  - rewrite union_list_nil, difference_disjoint_L by apply disjoint_empty_l.
    rewrite size_empty. simpl. lia.
  - rewrite union_list_cons, difference_union_distr_l_L.
    eapply Nat.le_trans; [apply size_union_le|].
    destruct (HXs X) as [Hid HL]; [left|].
    rewrite (size_difference X {[id]}) by (by apply singleton_subseteq_l).
    rewrite size_singleton.
    assert (size (⋃ Xs ∖ {[id]}) ≤ length Xs * (L - 1)) as IH'.
    { apply IH. intros Y HY. apply HXs. by right. }
    simpl. lia.
Qed.

(** ** Theorems about the itemset recommender *)

(** C8, as the specification states it, fails: on a mined result set in
    which every itemset has at most two members [process_results] returns
    the empty frame; it raises nothing, in particular no
    [InsufficientSupportItemsets]. *)
Lemma process_results_empty_is_not_an_error :
  process_results Samples.short_only = Ok []
  ∧ process_results Samples.short_only
    ≠ Raise SpecErrors.InsufficientSupportItemsets.
Proof. split; [vm_compute; reflexivity | discriminate]. Qed.

(** C8 (amended): on a mined result set that has rows [process_results]
    returns: the rows of the mined result set, each with its length, that
    have more than 2 items, and nothing else; when no itemset has more
    than 2 items the returned frame is empty. *)
Theorem process_results_keeps_longer_than_2 (result_set : list (Q * gset Z)) :
  result_set ≠ [] →
  ∃ processed_results,
    process_results result_set = Ok processed_results
    ∧ (∀ r, r ∈ processed_results ↔
            2 < size (itemsets r)
            ∧ ∃ x, x ∈ result_set ∧ r = mkRow x.1 x.2 (size x.2))
    ∧ ((∀ x, x ∈ result_set → size x.2 ≤ 2) → processed_results = []).
Proof.
  intros Hrows. unfold process_results.
  destruct result_set as [|x0 result_set]; [done|].
  set (mined := x0 :: result_set).
  eexists. split; [reflexivity|]. split.
  - intros r. rewrite list_elem_of_filter, list_elem_of_fmap. split.
    + intros [Hlen (x & -> & Hx)]. simpl in *. eauto.
    + intros [Hlen (x & Hx & ->)]. simpl in *. eauto.
  - intros Hshort.
    destruct (filter _ _) as [|r l] eqn:E; [done|].
    assert (r ∈ r :: l) as Hr by left. rewrite <- E in Hr.
    apply list_elem_of_filter in Hr as [Hlen (x & -> & Hx)%list_elem_of_fmap].
    specialize (Hshort x Hx). simpl in Hlen. lia.
Qed.

Lemma process_results_keeps_longer_than_2_witness :
  process_results Samples.mined = Ok Samples.surviving
  ∧ ∃ processed_results,
      process_results Samples.short_only = Ok processed_results
      ∧ processed_results = [].
Proof.
  split; [vm_compute; reflexivity|].
  destruct (process_results_keeps_longer_than_2 Samples.short_only)
    as (pr & Hpr & _ & Hempty); [discriminate|].
  exists pr. split; [exact Hpr|]. apply Hempty.
  intros x Hx. unfold Samples.short_only in Hx.
  repeat (apply elem_of_cons in Hx as [->|Hx]; [vm_compute; lia|]).
  by apply elem_of_nil in Hx.
Defined.

(** C10: for a candidate taken from the union of all itemsets of the
    processed results, the itemsets containing it are not empty, the union
    of its top three contains it, and [unique_set.remove(id)] is defined;
    so on [run_ids] the whole of [generate_final_dataframe] returns. *)
Theorem remove_self_never_fails (processed_results : list itemset_row) :
  (∀ id, id ∈ run_ids processed_results →
     filter (λ r, id ∈ itemsets r) processed_results ≠ []
     ∧ id ∈ (⋃ top_n processed_results id : gset Z)
     ∧ recommended_set processed_results id
       = Ok (⋃ top_n processed_results id ∖ {[id]}))
  ∧ ∃ df, generate_final_dataframe processed_results (run_ids processed_results)
          = Ok df.
Proof.
  split.
  - intros id Hid. unfold run_ids in Hid. apply elem_of_elements in Hid.
    split_and!.
    + by apply subset_nonempty.
    + by apply candidate_in_union.
    + unfold recommended_set.
      by rewrite decide_True by (by apply candidate_in_union).
  - unfold generate_final_dataframe.
    destruct (build_dic_total processed_results (run_ids processed_results) [])
      as [dic ->]; [|by eexists].
    intros id Hid. unfold run_ids in Hid. by apply elem_of_elements in Hid.
Qed.

Lemma remove_self_never_fails_witness :
  (5%Z ∈ run_ids Samples.surviving
   ∧ recommended_set Samples.surviving 5 = Ok {[1; 6]}%Z)
  ∧ ∃ df, generate_final_dataframe Samples.surviving (run_ids Samples.surviving)
          = Ok df.
Proof.
  destruct (remove_self_never_fails Samples.surviving) as [Hstep Hall].
  assert (5%Z ∈ run_ids Samples.surviving) as Hin by by_compute.
  split; [split; [exact Hin|]|exact Hall].
  destruct (Hstep _ Hin) as (_ & _ & ->). vm_compute. reflexivity.
Defined.

(** *** The float columns of the frame *)

Section FloatFacts.
Implicit Types (table : list (Z * list Z)) (dic : list (Z * gset Z)) (id : Z).

(** Integers up to [2 ^ 53] in absolute value are floats. *)
Lemma float64_of_int_small (z : Z) :
  (Z.abs z ≤ 2 ^ 53)%Z → float64_of_int z = z.
Proof.
  intros Hz. unfold float64_of_int.
  destruct (decide (Z.abs z = 2 ^ 53)%Z) as [Heq|Hne].
  - assert (z = 2 ^ 53 ∨ z = - 2 ^ 53)%Z as [-> | ->] by lia; by vm_compute.
  - assert (Z.log2 (Z.abs z) - 52 ≤ 0)%Z as Hle.
    { destruct (decide (Z.abs z = 0)%Z) as [->|Hpos]; [by vm_compute|].
      assert (Z.log2 (Z.abs z) < 53)%Z; [|lia].
      apply Z.log2_lt_pow2; lia. }
    apply Z.leb_le in Hle. by rewrite Hle.
Qed.

Lemma imap_exact (g : nat → Z → Z) (t : list Z) :
  (∀ j v, v ∈ t → g j v = v) → imap g t = t.
Proof.
  revert g. induction t as [|v t IH]; intros g Hg; [done|].
  rewrite imap_cons. f_equal; [apply Hg; left|].
  apply IH. intros j v' Hv'. apply Hg. by right.
Qed.

(** Where every member is a float the frame holds the members themselves,
    and stacking keeps them. *)
Lemma from_dict_exact dic :
  (∀ kv v, kv ∈ dic → v ∈ kv.2 → float64_of_int v = v) →
  from_dict dic = dict_rows dic.
Proof.
  intros Hexact. unfold from_dict.
  etrans; [|apply list_fmap_id].
  apply list_fmap_ext. intros i [id t] Hi. simpl. f_equal.
  apply imap_exact. intros j v Hv.
  apply list_elem_of_lookup_2 in Hi. unfold dict_rows in Hi.
  apply list_elem_of_fmap in Hi as (kv & [= -> ->] & Hkv).
  rewrite (Hexact kv v Hkv) by (by apply elem_of_elements).
  by destruct (has_nan _ _).
Qed.

Lemma melt_exact table :
  (∀ r v, r ∈ table → v ∈ r.2 → float64_of_int v = v) →
  melt table = stack table.
Proof.
  intros Hexact. unfold melt.
  etrans; [|apply list_fmap_id].
  apply list_fmap_ext. intros i [id o] Hi. simpl. f_equal.
  destruct o as [v|]; [|done]. simpl. f_equal.
  apply list_elem_of_lookup_2, elem_of_stack in Hi as (t & Hin & Hv).
  destruct (existsb _ _); [|done]. by apply (Hexact (id, t)).
Qed.

Lemma from_dict_keys dic : (from_dict dic).*1 = keys dic.
Proof.
  unfold from_dict, dict_rows, keys. rewrite <- !list_fmap_compose.
  by apply list_fmap_ext.
Qed.

(** A row of the frame is the row of a key of the dict: as long as the
    key's set, each cell a member of the set or the float nearest to one. *)
Lemma elem_of_from_dict dic id (t : list Z) :
  (id, t) ∈ from_dict dic →
  ∃ s, (id, s) ∈ dic ∧ length t = size s
       ∧ ∀ r, r ∈ t → ∃ v, v ∈ s ∧ (r = v ∨ r = float64_of_int v).
Proof.
  unfold from_dict, dict_rows. rewrite <- list_fmap_compose.
  intros ([id' s] & [= -> ->] & Hin)%list_elem_of_fmap. simpl.
  exists s. split_and!; [done|by rewrite length_imap|].
  intros r (j & v & -> & Hv)%elem_of_lookup_imap_1. exists v.
  split; [by apply list_elem_of_lookup_2, elem_of_elements in Hv|].
  destruct (has_nan _ _); [by right|by left].
Qed.

Lemma from_dict_key dic id (s : gset Z) :
  (id, s) ∈ dic → ∃ t, (id, t) ∈ from_dict dic.
Proof.
  intros Hin. unfold from_dict, dict_rows. rewrite <- list_fmap_compose.
  eexists. apply list_elem_of_fmap. by exists (id, s).
Qed.

End FloatFacts.

(** The dict [generate_final_dataframe] builds: distinct keys, each with
    the set the loop body computes for it, and a key for every candidate. *)
Lemma final_entries processed_results ids dic :
  build_dic processed_results ids [] = Ok dic →
  NoDup (keys dic)
  ∧ (∀ id s, (id, s) ∈ dic → recommended_set processed_results id = Ok s)
  ∧ (∀ id, id ∈ ids → ∃ s, (id, s) ∈ dic).
Proof.
  intros Hb. split_and!.
  - apply (build_dic_NoDup _ _ _ _ Hb). constructor.
  - intros id s Hin.
    apply (build_dic_entries _ _ _ _ Hb) in Hin; [done|].
    by intros kv ?%elem_of_nil.
  - intros id Hid.
    assert (id ∈ keys dic) as Hk by (apply (build_dic_keys _ _ _ _ Hb); by right).
    apply list_elem_of_fmap in Hk as ([id' s] & -> & Hin). by exists s.
Qed.

(** The frame built from that dict: distinct keys, a row for every
    candidate, every row as long as the set computed for its key, its
    cells members of that set or the floats nearest to them. *)
Lemma final_dic processed_results ids dic :
  build_dic processed_results ids [] = Ok dic →
  NoDup (from_dict dic).*1
  ∧ (∀ id t, (id, t) ∈ from_dict dic →
       ∃ s, recommended_set processed_results id = Ok s
            ∧ length t = size s
            ∧ ∀ r, r ∈ t → ∃ v, v ∈ s ∧ (r = v ∨ r = float64_of_int v))
  ∧ (∀ id, id ∈ ids → ∃ t, (id, t) ∈ from_dict dic).
Proof.
  intros Hb. destruct (final_entries _ _ _ Hb) as (Hnd & Hentries & Hkeys).
  split_and!.
  - by rewrite from_dict_keys.
  - intros id t (s & Hin & Hlen & Hcells)%elem_of_from_dict.
    exists s. split_and!; [by apply Hentries|done..].
  - intros id (s & Hin)%Hkeys. by apply (from_dict_key dic id s).
Qed.

(** A member of the set computed for a candidate is another product of
    an itemset of the candidate. *)
Lemma recommended_set_member processed_results (id : Z) (s : gset Z) (v : Z) :
  recommended_set processed_results id = Ok s → v ∈ s →
  v ≠ id
  ∧ ∃ X, X ∈ top_n processed_results id ∧ v ∈ X.
Proof.
  intros [-> _]%recommended_set_Ok [Hv Hne]%elem_of_difference. split.
  - intros ->. apply Hne. by apply elem_of_singleton.
  - by apply elem_of_union_list in Hv.
Qed.

Lemma ids_exact_elements processed_results :
  Forall (λ row, Forall (λ x, (Z.abs x ≤ 2 ^ 53)%Z) (elements (itemsets row)))
    processed_results →
  ids_exact processed_results.
Proof.
  intros Hall row x Hrow Hx.
  apply (proj1 (Forall_forall _ _) Hall) in Hrow.
  apply (proj1 (Forall_forall _ _) Hrow). by apply elem_of_elements.
Qed.

Lemma recommended_set_exact processed_results (id : Z) (s : gset Z) (v : Z) :
  ids_exact processed_results →
  recommended_set processed_results id = Ok s → v ∈ s →
  float64_of_int v = v.
Proof.
  intros Hexact Hs Hv.
  destruct (recommended_set_member _ _ _ _ Hs Hv) as (_ & X & HX & HvX).
  apply elem_of_top_n in HX as (_ & row & Hrow & <-).
  apply float64_of_int_small. by apply (Hexact row).
Qed.

(** With such ids the floats of the frame are the ids themselves. *)
Lemma final_frame_exact processed_results ids dic :
  ids_exact processed_results →
  build_dic processed_results ids [] = Ok dic →
  melt (from_dict dic) = stack (dict_rows dic).
Proof.
  intros Hexact Hb. destruct (final_entries _ _ _ Hb) as (_ & Hentries & _).
  rewrite from_dict_exact.
  - apply melt_exact. intros [id t] v Hin Hv. unfold dict_rows in Hin.
    apply list_elem_of_fmap in Hin as ([id' s] & [= -> ->] & Hin).
    simpl in Hv. apply elem_of_elements in Hv.
    by apply (recommended_set_exact processed_results id' s v Hexact);
      [apply Hentries|].
  - intros [id s] v Hin Hv.
    by apply (recommended_set_exact processed_results id s v Hexact);
      [apply Hentries|].
Qed.

(** C4, as the specification states it, fails: candidate 1 is in the
    three surviving itemsets [{1,2,3}], [{1,2,3,4}] and [{1,5,6}], and the
    final frame holds five records for it, more than three. *)
Lemma more_than_three_records_for_a_candidate :
  ∃ df, generate_final_dataframe Samples.surviving (run_ids Samples.surviving)
        = Ok df
        ∧ length (records_of 1 df) = 5
        ∧ ¬ length (records_of 1 df) ≤ 3.
Proof.
  eexists. split; [vm_compute; reflexivity|].
  split; [vm_compute; reflexivity|]. vm_compute. lia.
Qed.

(** C4 (amended): what is capped at three is the number of itemsets
    selected for a candidate, not the number of records. A candidate of
    [run_ids] gets one record per member of the union of its selected
    itemsets other than itself; for any product that is at most
    [3 * (L - 1)] records when no itemset has more than [L] members. *)
Theorem records_per_candidate (processed_results : list itemset_row)
    (ids : list Z) (df : list (Z * Z)) (L : nat) (id : Z) :
  (∀ r, r ∈ processed_results → size (itemsets r) ≤ L) →
  generate_final_dataframe processed_results ids = Ok df →
  length (top_n processed_results id) ≤ 3
  ∧ (id ∈ ids →
     length (records_of id df) = size (⋃ top_n processed_results id : gset Z) - 1)
  ∧ length (records_of id df) ≤ 3 * (L - 1).
Proof.
  intros HL. unfold generate_final_dataframe.
  destruct (build_dic processed_results ids []) as [dic|e] eqn:Hb; [|done].
  simpl. intros [= <-].
  destruct (final_dic _ _ _ Hb) as (Hnd & Hentries & Hkeys).
  assert (∀ t, (id, t) ∈ from_dict dic →
    length (records_of id (dropna (sort_by_product_id (melt (from_dict dic)))))
    = size (⋃ top_n processed_results id : gset Z) - 1
    ∧ size (⋃ top_n processed_results id ∖ {[id]} : gset Z) ≤ 3 * (L - 1))
    as Hcount.
  { intros t Hin. rewrite (length_records_of _ _ t Hnd Hin).
    destruct (Hentries _ _ Hin) as (s & [-> Hid]%recommended_set_Ok & -> & _).
    split.
    - rewrite size_difference by (by apply singleton_subseteq_l).
      by rewrite size_singleton.
    - eapply Nat.le_trans.
      + apply (size_union_list_remove _ _ L). intros X HX.
        apply elem_of_top_n in HX as [HidX (r & Hr & <-)]. auto.
      + pose proof (length_top_n processed_results id). nia. }
  split_and!.
  - apply length_top_n.
  - intros Hid. destruct (Hkeys _ Hid) as [t Hin]. by apply (Hcount t).
  - destruct (decide (id ∈ (from_dict dic).*1)) as [Hin|Hnotin].
    + apply list_elem_of_fmap in Hin as ([id' t] & -> & Hin).
      destruct (Hcount _ Hin) as [-> Hle].
      rewrite size_difference, size_singleton in Hle; [done|].
      apply singleton_subseteq_l.
      by destruct (Hentries _ _ Hin) as (s & [_ ?]%recommended_set_Ok & _).
    + destruct (records_of id _) as [|row l] eqn:E; [simpl; lia|].
      assert (row ∈ row :: l) as Hrow by left. rewrite <- E in Hrow.
      apply list_elem_of_filter in Hrow as [<- Hrow].
      apply elem_of_final in Hrow as (t & _ & Hin & _).
      destruct Hnotin. by apply (list_elem_of_fmap_2 fst _ (row.1, t)).
Qed.

Lemma records_per_candidate_witness :
  ∃ df, generate_final_dataframe Samples.surviving (run_ids Samples.surviving)
        = Ok df
        ∧ length (records_of 1 df) = 5
        ∧ length (records_of 1 df) ≤ 3 * (4 - 1).
Proof.
  eexists. split; [vm_compute; reflexivity|].
  match goal with |- context [records_of _ ?d] => set (df := d) end.
  assert (generate_final_dataframe Samples.surviving (run_ids Samples.surviving)
          = Ok df) as Hdf by (vm_compute; reflexivity).
  destruct (records_per_candidate Samples.surviving
              (run_ids Samples.surviving) df 4 1) as (_ & Heq & Hle).
  - intros r Hr. unfold Samples.surviving in Hr.
    repeat (apply elem_of_cons in Hr as [->|Hr]; [vm_compute; lia|]).
    by apply elem_of_nil in Hr.
  - exact Hdf.
  - split; [|exact Hle]. rewrite Heq.
    + vm_compute. reflexivity.
    + by_compute.
Defined.

(** ** The collaborative filter *)

Section FrameFacts.
Context {V : Type}.
Implicit Types (m : DataFrame V).

Lemma index_of_NoDup (l : list Z) (i : nat) (p : Z) :
  NoDup l → l !! i = Some p → index_of p l = Some i.
Proof.
  intros Hnd Hi. destruct (index_of_elem_of p l) as [i' Hi'].
  { by eapply list_elem_of_lookup_2. }
  rewrite Hi'. f_equal. apply index_of_lookup in Hi'.
  by eapply NoDup_lookup.
Qed.

(** With unique labels, [m.loc[p]] is the row stored under [p]. *)
Lemma loc_iterrows m p row :
  NoDup (index m) → (p, row) ∈ iterrows m →
  loc m p = Ok (zip (columns m) row).
Proof.
  intros Hnd Hin. unfold iterrows in Hin.
  apply list_elem_of_lookup_1 in Hin as [i Hi].
  apply lookup_zip_with_Some in Hi as (p' & row' & [= <- <-] & Hp & Hrow).
  unfold loc. rewrite (index_of_NoDup _ _ _ Hnd Hp). simpl.
  rewrite Hrow. done.
Qed.

Lemma loc_index m p :
  length (index m) = length (values m) → p ∈ index m →
  ∃ row, (p, row) ∈ iterrows m.
Proof.
  intros Hlen [i Hi]%list_elem_of_lookup_1.
  destruct (lookup_lt_is_Some_2 (values m) i) as [row Hrow].
  { rewrite <- Hlen. by eapply lookup_lt_Some. }
  exists row. unfold iterrows. apply (list_elem_of_lookup_2 _ i).
  apply lookup_zip_with_Some. eauto.
Qed.

Lemma getitem_columns m u :
  u ∈ columns m → ∃ col, getitem m u = Ok col.
Proof.
  intros [j Hj]%index_of_elem_of. unfold getitem. rewrite Hj. by eexists.
Qed.

Lemma index_drop_rows m labels p :
  p ∈ index (drop_rows labels m) ↔
  (p ∉ labels) ∧ ∃ row, (p, row) ∈ iterrows m.
Proof.
  unfold drop_rows. simpl. rewrite list_elem_of_fmap. split.
  - intros ([p' row] & -> & [Hnot Hin]%list_elem_of_filter). eauto.
  - intros [Hnot [row Hin]]. exists (p, row). split; [done|].
    by apply list_elem_of_filter.
Qed.
End FrameFacts.

Section PreprocessFacts.
Implicit Types (matrix : DataFrame cell).

(** Only present cells are examined by the comparison. *)
Lemma count_le1_present (s : Series cell) :
  count_le1 s = length (filter (λ v : Z, (v ≤ 1)%Z) (omap snd s)).
Proof.
  unfold count_le1. induction s as [|[u [v|]] s IH]; csimpl; [done| |].
  - rewrite (filter_cons (λ c : Z * cell, le1 c.2)),
      (filter_cons (λ v : Z, (v ≤ 1)%Z)). simpl.
    destruct (decide (v ≤ 1)%Z) as [Hle|Hgt].
    + rewrite decide_True by (by apply bool_decide_pack).
      simpl. f_equal. apply IH.
    + rewrite decide_False by (by intros ?%bool_decide_unpack). apply IH.
  - rewrite (filter_cons (λ c : Z * cell, le1 c.2)). simpl. apply IH.
Qed.

Lemma li_prod_spec matrix labels :
  NoDup (index matrix) → length (index matrix) = length (values matrix) →
  labels ⊆ index matrix →
  ∃ li, li_prod matrix labels = Ok li
    ∧ ∀ p, p ∈ li ↔
        p ∈ labels
        ∧ ∃ row, (p, row) ∈ iterrows matrix
                 ∧ count_le1 (zip (columns matrix) row) ≤ 2.
Proof.
  intros Hnd Hlen. induction labels as [|q labels IH]; intros Hsub; simpl.
  - exists []. split; [done|]. intros p. rewrite !elem_of_nil. tauto.
  - destruct (loc_index matrix q Hlen) as [row Hrow]; [apply Hsub; left|].
    rewrite (loc_iterrows _ _ _ Hnd Hrow). simpl.
    destruct IH as (li & -> & Hli); [intros x Hx; apply Hsub; by right|].
    simpl. eexists. split; [reflexivity|]. intros p.
    assert (∀ row', (q, row') ∈ iterrows matrix → row' = row) as Huniq.
    { intros row' Hrow'.
      pose proof (loc_iterrows _ _ _ Hnd Hrow) as E1.
      pose proof (loc_iterrows _ _ _ Hnd Hrow') as E2.
      unfold loc in E1, E2.
      destruct (index_of q (index matrix)) as [i|]; [|done]. simpl in *.
      destruct (values matrix !! i) as [r|] eqn:Hr; [|done]. simpl in *.
      apply list_elem_of_lookup_1 in Hrow as [i1 Hi1].
      apply list_elem_of_lookup_1 in Hrow' as [i2 Hi2].
      apply lookup_zip_with_Some in Hi1 as (? & ? & [= <- <-] & Hp1 & Hr1).
      apply lookup_zip_with_Some in Hi2 as (? & ? & [= <- <-] & Hp2 & Hr2).
      assert (i1 = i2) as -> by (by eapply NoDup_lookup).
      congruence. }
    destruct (count_le1 (zip (columns matrix) row) <=? 2) eqn:E.
    + apply Nat.leb_le in E. rewrite !elem_of_cons, Hli. split.
      * intros [->|[? ?]]; [split; [by left|eauto]|split; [by right|done]].
      * intros [[->|?] Hex]; [by left|right; done].
    + apply Nat.leb_gt in E. rewrite elem_of_cons, Hli. split.
      * intros [? ?]. split; [by right|done].
      * intros [[->|?] Hex]; [|done].
        destruct Hex as (row' & Hrow' & Hle).
        rewrite (Huniq _ Hrow') in Hle. lia.
Qed.

Lemma li_users_total matrix labels :
  labels ⊆ columns matrix → ∃ li, li_users matrix labels = Ok li.
Proof.
  induction labels as [|u labels IH]; intros Hsub; simpl; [by eexists|].
  destruct (getitem_columns matrix u) as [col ->]; [apply Hsub; left|].
  destruct IH as [li ->]; [intros x Hx; apply Hsub; by right|].
  simpl. by eexists.
Qed.
End PreprocessFacts.

(** C6: on a raw matrix with unique item labels, the pre-processing
    returns, and an item row is dropped exactly when at most 2 of its cells
    hold a value [<= 1]; absent cells are not among the cells counted. All
    other item rows are retained. *)
Theorem preprocess_drops_low_count_items (matrix : DataFrame cell) :
  NoDup (index matrix) → length (index matrix) = length (values matrix) →
  ∃ processed,
    preprocess_user_item_matrix matrix = Ok processed
    ∧ ∀ p row, (p, row) ∈ iterrows matrix →
        let cells := zip (columns matrix) row in
        count_le1 cells = length (filter (λ v : Z, (v ≤ 1)%Z) (omap snd cells))
        ∧ (p ∉ index processed ↔ count_le1 cells ≤ 2)
        ∧ (p ∈ index processed ↔ 2 < count_le1 cells).
Proof.
  intros Hnd Hlen. unfold preprocess_user_item_matrix.
  destruct (li_prod_spec matrix (index matrix) Hnd Hlen) as (prods & -> & Hprods);
    [done|].
  simpl.
  destruct (li_users_total (drop_rows prods matrix) (columns matrix))
    as [users ->]; [done|].
  simpl. eexists. split; [reflexivity|].
  intros p row Hrow. set (cells := zip (columns matrix) row).
  split; [apply count_le1_present|].
  assert (p ∈ index (fillna0 (drop_columns users (drop_rows prods matrix)))
          ↔ 2 < count_le1 cells) as Hkept.
  { change (index (fillna0 _)) with (index (drop_rows prods matrix)).
    rewrite index_drop_rows, Hprods. split.
    - intros [Hnot _]. apply Nat.nle_gt. intros Hle. apply Hnot.
      split; [|by eauto].
      apply list_elem_of_lookup_1 in Hrow as [i Hi].
      apply lookup_zip_with_Some in Hi as (? & ? & [= <- <-] & Hp & _).
      by eapply list_elem_of_lookup_2.
    - intros Hgt. split; [|by eauto].
      intros [_ (row' & Hrow' & Hle)].
      pose proof (loc_iterrows _ _ _ Hnd Hrow) as E1.
      rewrite (loc_iterrows _ _ _ Hnd Hrow') in E1.
      injection E1 as E1. rewrite E1 in Hle. fold cells in Hle. lia. }
  split; [|done]. rewrite Hkept. lia.
Qed.

Lemma preprocess_drops_low_count_items_witness :
  ∃ processed,
    preprocess_user_item_matrix Samples.raw_matrix = Ok processed
    ∧ index processed = [10; 30]%Z
    ∧ (20%Z ∉ index processed ↔
       count_le1 (zip (columns Samples.raw_matrix) [Some 1; Some 3; None; None]%Z)
       ≤ 2).
Proof.
  destruct (preprocess_drops_low_count_items Samples.raw_matrix)
    as (processed & Hp & Hrows).
  - by_compute.
  - reflexivity.
  - exists processed. split; [exact Hp|]. split.
    + vm_compute in Hp. by injection Hp as <-.
    + apply (Hrows 20%Z [Some 1; Some 3; None; None]%Z). by_compute.
Defined.


Lemma bind_Ok {A B} (m : result A) (f : A → result B) (b : B) :
  m ≫= f = Ok b → ∃ a, m = Ok a ∧ f a = Ok b.
Proof. destruct m as [a|e]; simpl; [eauto|done]. Qed.

Lemma length_filter_eq_NoDup (l : list Z) (x : Z) :
  NoDup l → x ∈ l → length (filter (λ k, k = x) l) = 1.
Proof.
  induction l as [|y l IH]; [by intros _ ?%elem_of_nil|].
  intros [Hnotin Hnd]%NoDup_cons Hin. rewrite filter_cons.
  destruct (decide (y = x)) as [->|Hne].
  - simpl. f_equal. apply length_zero_iff_nil.
    destruct (filter _ l) as [|z l'] eqn:E; [done|].
    assert (z ∈ filter (λ k, k = x) l) as Hz by (rewrite E; left).
    apply list_elem_of_filter in Hz as [-> Hz]. done.
  - apply IH; [done|]. apply elem_of_cons in Hin as [->|Hin]; done.
Qed.

Section SimilarityFacts.
Context {F : Type} `{Float64 F}.

Lemma at_gram {A} (g : A → A → F) (l : list A) i j :
  at_ ((λ u, g u <$> l) <$> l) i j
  = l !! i ≫= λ u, l !! j ≫= λ v, Some (g u v).
Proof.
  unfold at_. rewrite list_lookup_fmap.
  destruct (l !! i) as [u|]; simpl; [|done].
  rewrite list_lookup_fmap. by destruct (l !! j).
Qed.

Lemma at_fmap (f : F → F) (arr : list (list F)) i j :
  at_ ((λ row : list F, f <$> row) <$> arr) i j = f <$> at_ arr i j.
Proof.
  unfold at_. rewrite list_lookup_fmap.
  destruct (arr !! i) as [r|]; simpl; [|done].
  by rewrite list_lookup_fmap.
Qed.

Lemma at_gram_sym {A} (g : A → A → F) (l : list A) i j :
  (∀ u v, g u v = g v u) →
  at_ ((λ u, g u <$> l) <$> l) i j = at_ ((λ u, g u <$> l) <$> l) j i.
Proof.
  intros Hg. rewrite !at_gram.
  destruct (l !! i) as [u|], (l !! j) as [v|]; simpl; [|done..].
  by rewrite Hg.
Qed.

Lemma at_gram_is_Some {A} (g : A → A → F) (l : list A) i j :
  i < length l → j < length l → is_Some (at_ ((λ u, g u <$> l) <$> l) i j).
Proof.
  intros [u Hu]%lookup_lt_is_Some_2 [v Hv]%lookup_lt_is_Some_2.
  rewrite at_gram, Hu. simpl. rewrite Hv. by eexists.
Qed.

(** [loc2] on a frame labelled by the same items on both axes. *)
Lemma loc2_square (idx : list Z) (arr : list (list F)) a b :
  loc2 (mkDataFrame idx idx arr) a b
  = i ← of_option KeyError (index_of a idx);
    j ← of_option KeyError (index_of b idx);
    of_option KeyError (at_ arr i j).
Proof.
  unfold loc2, at_. simpl.
  destruct (index_of a idx) as [i|]; simpl; [|done].
  destruct (index_of b idx) as [j|]; simpl; [|done].
  by destruct (arr !! i).
Qed.

Lemma loc2_square_sym (idx : list Z) (arr : list (list F)) a b :
  (∀ i j, at_ arr i j = at_ arr j i) →
  loc2 (mkDataFrame idx idx arr) a b = loc2 (mkDataFrame idx idx arr) b a.
Proof.
  intros Hsym. rewrite !loc2_square.
  destruct (index_of a idx) as [i|], (index_of b idx) as [j|]; simpl; [|done..].
  by rewrite Hsym.
Qed.

Lemma dot_comm (u v : list F) :
  (∀ x y : F, fmul x y = fmul y x) → dot u v = dot v u.
Proof.
  intros Hmul. unfold dot. generalize f0 as acc. revert v.
  induction u as [|x u IH]; intros [|y v] acc; simpl; [done..|].
  by rewrite Hmul, IH.
Qed.

Lemma square_entry_sym m v i j : square_entry m v i j = square_entry m v j i.
Proof.
  unfold square_entry.
  destruct (decide (i = j)) as [->|Hne].
  - by rewrite decide_True.
  - rewrite decide_False by done. by rewrite Nat.min_comm, Nat.max_comm.
Qed.

Lemma squareform_gram m v :
  squareform m v = (λ i, square_entry m v i <$> seq 0 m) <$> seq 0 m.
Proof. done. Qed.

(** The array behind a similarity frame is symmetric, and as wide and as
    long as the matrix has rows. *)
Lemma similarity_array (normalized_matrix : DataFrame Z) (type : string)
    (sim : DataFrame F) :
  (∀ x y : F, fmul x y = fmul y x) →
  generate_item_similarity_matrix normalized_matrix type = Ok sim →
  ∃ arr, sim = mkDataFrame (index normalized_matrix) (index normalized_matrix) arr
    ∧ (∀ i j, at_ arr i j = at_ arr j i)
    ∧ (∀ i j, i < length (values normalized_matrix) →
              j < length (values normalized_matrix) → is_Some (at_ arr i j)).
Proof.
  intros Hmul. unfold generate_item_similarity_matrix.
  intros (arr & Harr & [= <-])%bind_Ok. exists arr. split; [done|].
  destruct (decide (type = "cosine")) as [_|_].
  - apply bind_Ok in Harr as (X & HX & [= <-]).
    assert (X = values normalized_matrix) as ->.
    { unfold check_array in HX.
      destruct (index normalized_matrix), (columns normalized_matrix);
        by simplify_eq. }
    unfold cosine_similarity. split.
    + intros i j. apply at_gram_sym. intros u v. by apply dot_comm.
    + intros i j Hi Hj.
      apply at_gram_is_Some; unfold normalize; by rewrite !length_fmap.
  - destruct (decide (type = "jaccard")) as [_|_]; [|done].
    apply bind_Ok in Harr as (X & HX & [= <-]).
    assert (X = values normalized_matrix) as ->.
    { unfold check_array in HX.
      destruct (index normalized_matrix), (columns normalized_matrix);
        by simplify_eq. }
    unfold pairwise_distances_jaccard. rewrite squareform_gram. split.
    + intros i j. rewrite !at_fmap. f_equal.
      apply at_gram_sym. intros u v. apply square_entry_sym.
    + intros i j Hi Hj. rewrite at_fmap. apply fmap_is_Some.
      apply at_gram_is_Some; by rewrite length_seq.
Qed.

(** C9: given that multiplication of scores commutes, the similarity
    frame of either metric is symmetric: looking up [(a, b)] and [(b, a)]
    gives the same outcome, and for two items of a rectangular processed
    matrix both lookups return the same score. *)
Theorem similarity_matrix_symmetric (normalized_matrix : DataFrame Z)
    (type : string) (sim : DataFrame F) :
  (∀ x y : F, fmul x y = fmul y x) →
  generate_item_similarity_matrix normalized_matrix type = Ok sim →
  (∀ a b, loc2 sim a b = loc2 sim b a)
  ∧ (length (index normalized_matrix) = length (values normalized_matrix) →
     ∀ a b, a ∈ index normalized_matrix → b ∈ index normalized_matrix →
       ∃ score, loc2 sim a b = Ok score ∧ loc2 sim b a = Ok score).
Proof.
  intros Hmul Hgen.
  destruct (similarity_array _ _ _ Hmul Hgen) as (arr & -> & Hsym & Hdef).
  split; [intros a b; by apply loc2_square_sym|].
  intros Hlen a b Ha Hb.
  assert (∃ score, loc2 (mkDataFrame (index normalized_matrix)
                           (index normalized_matrix) arr) a b = Ok score)
    as [score Hscore].
  { rewrite loc2_square.
    destruct (index_of_elem_of a _ Ha) as [i Hi].
    destruct (index_of_elem_of b _ Hb) as [j Hj].
    rewrite Hi, Hj. simpl.
    destruct (Hdef i j) as [s ->]; [| |by eexists].
    - rewrite <- Hlen. apply index_of_lookup in Hi. by eapply lookup_lt_Some.
    - rewrite <- Hlen. apply index_of_lookup in Hj. by eapply lookup_lt_Some. }
  exists score. split; [done|]. by rewrite <- (loc2_square_sym _ _ a b).
Qed.

(** C2 (amended): a [type] other than ["cosine"] and ["jaccard"] makes
    [generate_item_similarity_matrix] fail with [UnboundLocalError],
    whatever the matrix, no similarity being computed; for the two
    metrics it returns a frame labelled by the items on both axes when the
    matrix has an item and a user, and fails with the [ValueError] of the
    input validation otherwise. *)
Theorem similarity_metric_dispatch (normalized_matrix : DataFrame Z)
    (type : string) :
  (type ≠ "cosine" → type ≠ "jaccard" →
   generate_item_similarity_matrix (F:=F) normalized_matrix type
   = Raise UnboundLocalError)
  ∧ (type = "cosine" ∨ type = "jaccard" →
     (index normalized_matrix ≠ [] → columns normalized_matrix ≠ [] →
      ∃ arr, generate_item_similarity_matrix (F:=F) normalized_matrix type
             = Ok (mkDataFrame (index normalized_matrix)
                               (index normalized_matrix) arr))
     ∧ (index normalized_matrix = [] ∨ columns normalized_matrix = [] →
        generate_item_similarity_matrix (F:=F) normalized_matrix type
        = Raise ValueError)).
Proof.
  unfold generate_item_similarity_matrix, check_array. split.
  - intros Hc Hj. by rewrite !decide_False.
  - intros Htype. split.
    + intros Hidx Hcols.
      destruct (index normalized_matrix) as [|p idx]; [done|].
      destruct (columns normalized_matrix) as [|u cols]; [done|].
      destruct Htype as [->| ->]; simpl; by eexists.
    + intros Hempty.
      destruct (index normalized_matrix) as [|p idx].
      * destruct Htype as [->| ->]; simpl; done.
      * destruct Hempty as [?| ->]; [done|].
        destruct Htype as [->| ->]; simpl; done.
Qed.

End SimilarityFacts.


Section RankingFacts.
Context {F : Type} `{Float64 F}.
Implicit Types (sim : DataFrame F) (um : DataFrame Z).

Lemma length_insert_desc x l : length (insert_desc x l) = S (length l).
Proof.
  induction l as [|y l IH]; simpl; [done|].
  destruct (x.2 <? y.2)%Z; simpl; by rewrite ?IH.
Qed.

Lemma length_series_sort_values_desc (s : Series Z) :
  length (series_sort_values_desc s) = length s.
Proof.
  induction s as [|x s IH]; simpl; [done|].
  by rewrite length_insert_desc, IH.
Qed.

Lemma insert_desc_perm x l : insert_desc x l ≡ₚ x :: l.
Proof.
  induction l as [|y l IH]; simpl; [done|].
  destruct (x.2 <? y.2)%Z; [|done].
  rewrite IH. apply Permutation_swap.
Qed.

Lemma series_sort_values_desc_perm (s : Series Z) :
  series_sort_values_desc s ≡ₚ s.
Proof.
  induction s as [|x s IH]; simpl; [done|].
  by rewrite insert_desc_perm, IH.
Qed.

Lemma insert_desc_HdRel (a x : Z * Z) l :
  (x.2 ≤ a.2)%Z → HdRel (λ a b : Z * Z, (b.2 ≤ a.2)%Z) a l →
  HdRel (λ a b : Z * Z, (b.2 ≤ a.2)%Z) a (insert_desc x l).
Proof.
  intros Hx Hl. destruct l as [|y l]; simpl; [by constructor|].
  destruct (x.2 <? y.2)%Z; constructor; [by inversion Hl|done].
Qed.

Lemma insert_desc_Sorted (x : Z * Z) l :
  Sorted (λ a b : Z * Z, (b.2 ≤ a.2)%Z) l →
  Sorted (λ a b : Z * Z, (b.2 ≤ a.2)%Z) (insert_desc x l).
Proof.
  induction 1 as [|y l Hl IH Hhd]; simpl; [by repeat constructor|].
  destruct (x.2 <? y.2)%Z eqn:E.
  - apply Z.ltb_lt in E. constructor; [done|].
    apply insert_desc_HdRel; [lia|done].
  - apply Z.ltb_ge in E. constructor; [by constructor|by constructor].
Qed.

Lemma series_sort_values_desc_Sorted (s : Series Z) :
  Sorted (λ a b : Z * Z, (b.2 ≤ a.2)%Z) (series_sort_values_desc s).
Proof.
  induction s as [|x s IH]; simpl; [constructor|by apply insert_desc_Sorted].
Qed.

Lemma Sorted_take_desc (n : nat) (l : list (Z * Z)) :
  Sorted (λ a b : Z * Z, (b.2 ≤ a.2)%Z) l →
  Sorted (λ a b : Z * Z, (b.2 ≤ a.2)%Z) (take n l).
Proof.
  intros Hl. revert n. induction Hl as [|x l Hl IH Hhd]; intros [|n]; simpl;
    [constructor..|].
  constructor; [apply IH|].
  destruct Hhd as [|y l' Hy]; [destruct n; constructor|].
  destruct n; simpl; by constructor.
Qed.

(** The seeds of a user are non-zero cells, by count descending. *)
Lemma viewed_products_seeds picked_userid n um (seeds : Series Z) :
  viewed_products picked_userid n um = Ok seeds →
  (∀ c, c ∈ seeds → c.2 ≠ 0%Z)
  ∧ Sorted (λ a b : Z * Z, (b.2 ≤ a.2)%Z) seeds.
Proof.
  unfold viewed_products. intros (col & _ & [= <-])%bind_Ok.
  unfold slice_to. split.
  - intros c Hc.
    assert (c ∈ series_sort_values_desc (filter (λ c : Z * Z, c.2 ≠ 0%Z) col))
      as Hin by (destruct (0 <=? n)%Z; by eapply subseteq_take).
    rewrite series_sort_values_desc_perm in Hin.
    by apply list_elem_of_filter in Hin as [Hne _].
  - destruct (0 <=? n)%Z;
      apply Sorted_take_desc, series_sort_values_desc_Sorted.
Qed.

Lemma argmax_from_elem_of (best : Z * F) (s : Series F) :
  argmax_from best s ∈ best :: s.
Proof.
  revert best. induction s as [|x s IH]; intros best; simpl; [left|].
  destruct (fltb best.2 x.2).
  - right. apply IH.
  - destruct (elem_of_cons s (argmax_from best s) best) as [Hcase _].
    destruct (Hcase (IH best)) as [->|Hin]; [left|right; by right].
Qed.

(** The label [idxmax] returns is one of the labels of the series. *)
Lemma idxmax_elem_of (s : Series F) (k : Z) : idxmax s = Ok k → k ∈ s.*1.
Proof.
  destruct s as [|x s]; simpl; [done|]. intros [= <-].
  apply (list_elem_of_fmap_2 fst (x :: s)), argmax_from_elem_of.
Qed.

Lemma nearest_item_not_seed sim product r :
  nearest_item sim product = Ok r → r.1 ≠ product.
Proof.
  unfold nearest_item. intros (series & _ & Hr)%bind_Ok.
  apply bind_Ok in Hr as (k & Hk & Hr).
  apply bind_Ok in Hr as (score & _ & [= <-]). simpl.
  apply idxmax_elem_of, list_elem_of_fmap in Hk as (c & -> & Hc).
  by apply list_elem_of_filter in Hc as [Hne _].
Qed.

Lemma rec_items_loop_app sim seeds1 seeds2 rec_items :
  rec_items_loop sim (seeds1 ++ seeds2) rec_items
  = rec_items_loop sim seeds1 rec_items ≫= rec_items_loop sim seeds2.
Proof.
  revert rec_items. induction seeds1 as [|p seeds1 IH]; intros d; simpl; [done|].
  destruct (nearest_item sim p) as [r|e]; simpl; [apply IH|done].
Qed.

Lemma rec_items_loop_length sim seeds rec_items d :
  rec_items_loop sim seeds rec_items = Ok d →
  length d ≤ length rec_items + length seeds.
Proof.
  revert rec_items. induction seeds as [|p seeds IH]; intros d0; simpl.
  - intros [= <-]. lia.
  - intros (r & _ & Hloop)%bind_Ok. apply IH in Hloop.
    pose proof (length_dict_set d0 r.1 (fround 5 r.2)). lia.
Qed.

Lemma rec_items_loop_NoDup sim seeds rec_items d :
  rec_items_loop sim seeds rec_items = Ok d →
  NoDup (keys rec_items) → NoDup (keys d).
Proof.
  revert rec_items. induction seeds as [|p seeds IH]; intros d0; simpl.
  - by intros [= <-].
  - intros (r & _ & Hloop)%bind_Ok Hnd.
    apply (IH _ Hloop). by apply NoDup_keys_dict_set.
Qed.

(** Seeds whose nearest item is not [k] leave the entry of [k] alone. *)
Lemma rec_items_loop_other sim seeds rec_items d k :
  rec_items_loop sim seeds rec_items = Ok d →
  (∀ q r, q ∈ seeds → nearest_item sim q = Ok r → r.1 ≠ k) →
  dict_get d k = dict_get rec_items k.
Proof.
  revert rec_items. induction seeds as [|p seeds IH]; intros d0; simpl.
  - by intros [= <-].
  - intros (r & Hr & Hloop)%bind_Ok Hother.
    rewrite (IH _ Hloop); [|intros q r' Hq; apply Hother; by right].
    apply dict_get_set_ne. apply (Hother p); [left|done].
Qed.

(** Every key of the dict was written for some seed. *)
Lemma rec_items_loop_keys sim seeds rec_items d k :
  rec_items_loop sim seeds rec_items = Ok d → k ∈ keys d →
  k ∈ keys rec_items ∨ ∃ q score, q ∈ seeds ∧ nearest_item sim q = Ok (k, score).
Proof.
  revert rec_items. induction seeds as [|p seeds IH]; intros d0; simpl.
  - intros [= <-]. by left.
  - intros ([k' score] & Hr & Hloop)%bind_Ok Hk.
    destruct (IH _ Hloop Hk) as [Hin|(q & s & Hq & Hs)].
    + rewrite keys_dict_set in Hin. simpl in Hin.
      destruct (decide (k' ∈ keys d0)); [by left|].
      apply elem_of_app in Hin as [?|Hnew]; [by left|].
      apply list_elem_of_singleton in Hnew as ->.
      right. exists p, score. split; [left|done].
    + right. exists q, s. split; [by right|done].
Qed.

Lemma dict_get_is_Some_keys {V} (d : list (Z * V)) (k : Z) (v : V) :
  dict_get d k = Some v → k ∈ keys d.
Proof.
  unfold keys. induction d as [|[k' v'] d IH]; simpl; [done|].
  destruct (decide (k' = k)) as [->|Hne]; [left|right; by apply IH].
Qed.

(** C5: when two seeds of a user both have [r] as their nearest item and
    no seed processed after the later one does, the dict holds for [r]
    the rounded similarity computed for the later seed, and the list
    returned for the user contains [r] exactly once. *)
Theorem last_write_wins (picked_userid n : Z) um sim
    (rec : recommendation) (seeds : Series Z)
    (before : list Z) (p1 : Z) (between : list Z) (p2 : Z) (after : list Z)
    (r : Z) (score1 score2 : F) :
  viewed_products picked_userid n um = Ok seeds →
  seeds.*1 = before ++ p1 :: between ++ p2 :: after →
  nearest_item sim p1 = Ok (r, score1) →
  nearest_item sim p2 = Ok (r, score2) →
  (∀ q x, q ∈ after → nearest_item sim q = Ok x → x.1 ≠ r) →
  get_item_recommendations picked_userid n um sim = Ok rec →
  ∃ rec_items,
    rec_items_loop sim seeds.*1 [] = Ok rec_items
    ∧ product_id rec = keys rec_items
    ∧ dict_get rec_items r = Some (fround 5 score2)
    ∧ length (filter (λ k, k = r) (product_id rec)) = 1.
Proof.
  intros Hseeds Hsplit Hp1 Hp2 Hafter. unfold get_item_recommendations.
  rewrite Hseeds. simpl. intros (rec_items & Hloop & [= <-])%bind_Ok.
  exists rec_items. split; [done|]. split; [done|].
  assert (dict_get rec_items r = Some (fround 5 score2)) as Hget.
  { rewrite Hsplit in Hloop.
    rewrite rec_items_loop_app in Hloop.
    apply bind_Ok in Hloop as (d1 & _ & Hloop). simpl in Hloop.
    rewrite Hp1 in Hloop. simpl in Hloop.
    rewrite rec_items_loop_app in Hloop.
    apply bind_Ok in Hloop as (d2 & _ & Hloop). simpl in Hloop.
    rewrite Hp2 in Hloop. simpl in Hloop.
    rewrite (rec_items_loop_other _ _ _ _ r Hloop Hafter).
    apply dict_get_set_eq. }
  split; [done|]. simpl.
  apply length_filter_eq_NoDup.
  - apply (rec_items_loop_NoDup _ _ _ _ Hloop). constructor.
  - by eapply dict_get_is_Some_keys.
Qed.

(** C7: for a non-negative [number_of_recommendations] there are at most
    that many seeds (non-zero cells of the user's column, by count
    descending), the dict gets at most one entry per seed, and the
    returned list is no longer than [number_of_recommendations]; the batch
    generator, which asks for 6, puts at most 6 rows into any of its
    per-user frames. *)
Theorem at_most_n_recommendations (picked_userid n : Z) um sim
    (rec : recommendation) :
  (0 ≤ n)%Z →
  get_item_recommendations picked_userid n um sim = Ok rec →
  (∃ seeds rec_items,
      viewed_products picked_userid n um = Ok seeds
      ∧ (∀ c, c ∈ seeds → c.2 ≠ 0%Z)
      ∧ Sorted (λ a b : Z * Z, (b.2 ≤ a.2)%Z) seeds
      ∧ rec_items_loop sim seeds.*1 [] = Ok rec_items
      ∧ product_id rec = keys rec_items
      ∧ length seeds ≤ Z.to_nat n
      ∧ length rec_items ≤ length seeds)
  ∧ length (product_id rec) ≤ Z.to_nat n
  ∧ (n = NUM_RECOMMENDATIONS → length (explode rec) ≤ 6).
Proof.
  intros Hn. unfold get_item_recommendations.
  intros (seeds & Hseeds & Hrec)%bind_Ok.
  apply bind_Ok in Hrec as (rec_items & Hloop & [= <-]). simpl.
  assert (length seeds ≤ Z.to_nat n) as Hlen.
  { unfold viewed_products in Hseeds.
    apply bind_Ok in Hseeds as (col & _ & [= <-]).
    by apply length_slice_to. }
  assert (length rec_items ≤ length seeds) as Hdict.
  { apply rec_items_loop_length in Hloop.
    rewrite length_fmap in Hloop. simpl in Hloop. lia. }
  assert (length (keys rec_items) ≤ Z.to_nat n) as Hkeys.
  { unfold keys. rewrite length_fmap. lia. }
  split_and!; [|done|].
  - destruct (viewed_products_seeds _ _ _ _ Hseeds) as [Hnz Hsorted].
    exists seeds, rec_items. by split_and!.
  - intros ->. unfold explode. simpl.
    destruct (keys rec_items) as [|k ks] eqn:E; simpl; [lia|].
    rewrite length_fmap. unfold NUM_RECOMMENDATIONS in Hkeys. simpl in *. lia.
Qed.

(** The loop over the users appends the frames of the users up to the
    first failing one. *)
Lemma collect_dfs_fail um sim (pre : list Z) (u : Z) (post : list Z) li_dfs e :
  (∀ x, x ∈ pre → ∃ d, get_item_recommendations x NUM_RECOMMENDATIONS um sim = Ok d) →
  get_item_recommendations u NUM_RECOMMENDATIONS um sim = Raise e →
  collect_dfs um sim (pre ++ u :: post) li_dfs = collect_dfs um sim pre li_dfs.
Proof.
  revert li_dfs. induction pre as [|x pre IH]; intros li_dfs Hpre Hu; simpl.
  - by rewrite Hu.
  - destruct (Hpre x) as [d ->]; [left|].
    apply IH; [|done]. intros y Hy. apply Hpre. by right.
Qed.

Lemma collect_dfs_length um sim (ids : list Z) li_dfs :
  (∀ x, x ∈ ids → ∃ d, get_item_recommendations x NUM_RECOMMENDATIONS um sim = Ok d) →
  length (collect_dfs um sim ids li_dfs) = length li_dfs + length ids.
Proof.
  revert li_dfs. induction ids as [|x ids IH]; intros li_dfs Hids; simpl; [lia|].
  destruct (Hids x) as [d ->]; [left|].
  rewrite IH by (intros y Hy; apply Hids; by right).
  rewrite length_app. simpl. lia.
Qed.

Lemma get_item_recommendations_user_id picked_userid n um sim rec :
  get_item_recommendations picked_userid n um sim = Ok rec →
  user_id rec = picked_userid.
Proof.
  unfold get_item_recommendations. intros (seeds & _ & Hrec)%bind_Ok.
  by apply bind_Ok in Hrec as (rec_items & _ & [= <-]).
Qed.

Lemma collect_dfs_users um sim (ids : list Z) li_dfs (row : rec_row) :
  row ∈ concat (collect_dfs um sim ids li_dfs) →
  row ∈ concat li_dfs ∨ row.1.1 ∈ ids.
Proof.
  revert li_dfs. induction ids as [|x ids IH]; intros li_dfs; simpl; [by left|].
  destruct (get_item_recommendations x NUM_RECOMMENDATIONS um sim) as [d|e] eqn:E;
    [|by left].
  intros [Hin|Hin]%IH; [|right; by right].
  rewrite concat_app in Hin. simpl in Hin. rewrite app_nil_r in Hin.
  apply elem_of_app in Hin as [Hin|Hin]; [by left|].
  right. apply get_item_recommendations_user_id in E. subst x.
  assert (row.1.1 = user_id d) as ->; [|left].
  unfold explode in Hin. destruct (product_id d) as [|k ks].
  - by apply list_elem_of_singleton in Hin as ->.
  - by apply list_elem_of_fmap in Hin as (k' & -> & _).
Qed.

(** C3: when the recommendations of a user [u] raise, the batch loop ends
    there: it holds one frame per user before [u] and none for [u] or any
    user after it, and what the generator returns is the concatenation of
    those frames, whichever users follow. *)
Theorem batch_aborts_on_first_exception um sim
    (pre : list Z) (u : Z) (post : list Z) (e : exn) :
  columns um = pre ++ u :: post →
  (∀ x, x ∈ pre → ∃ d, get_item_recommendations x NUM_RECOMMENDATIONS um sim = Ok d) →
  get_item_recommendations u NUM_RECOMMENDATIONS um sim = Raise e →
  collect_dfs um sim (columns um) [] = collect_dfs um sim pre []
  ∧ length (collect_dfs um sim (columns um) []) = length pre
  ∧ generate_final_recommendation_df um sim = pd_concat (collect_dfs um sim pre [])
  ∧ ∀ final_df, generate_final_recommendation_df um sim = Ok final_df →
      ∀ row, row ∈ final_df → row.1.1 ∈ pre.
Proof.
  intros Hcols Hpre Hu. unfold generate_final_recommendation_df.
  rewrite Hcols, (collect_dfs_fail _ _ _ _ _ _ _ Hpre Hu).
  split_and!; [done|by rewrite collect_dfs_length|done|].
  intros final_df Hfinal row Hrow. unfold pd_concat in Hfinal.
  destruct (collect_dfs um sim pre []) as [|fr frs] eqn:E; [done|].
  injection Hfinal as <-. change (row ∈ concat (fr :: frs)) in Hrow.
  rewrite <- E in Hrow.
  apply collect_dfs_users in Hrow as [Hnil|Hin]; [|done].
  by apply elem_of_nil in Hnil.
Qed.

End RankingFacts.


(** ** Theorems across both recommenders, and runs on the sample data *)

Lemma Q_fmul_comm (x y : Q) : fmul x y = fmul y x.
Proof.
  simpl. f_equal. unfold Qmult. f_equal; [apply Z.mul_comm|apply Pos.mul_comm].
Qed.

Example worked_similarity_cosine :
  generate_item_similarity_matrix Samples.worked_matrix "cosine"
  = Ok Samples.worked_similarity.
Proof. vm_compute. reflexivity. Qed.

(** The square form of the condensed Jaccard distances agrees with the
    distances computed pair by pair. *)
Example jaccard_squareform_pairwise :
  let X := [[1; 0; 1; 0; 0]; [1; 1; 0; 0; 0]; [0; 1; 1; 1; 0]; [0; 0; 0; 1; 1]]%Z in
  let B := (λ row : list Z, (λ x : Z, bool_decide (x ≠ 0%Z)) <$> row) <$> X in
  pairwise_distances_jaccard (F:=Q) X = (λ u, jaccard_distance u <$> B) <$> B
  ∧ pairwise_distances_jaccard (F:=Q) X
    = [[0; 2 # 3; 3 # 4; 1]; [2 # 3; 0; 3 # 4; 1];
       [3 # 4; 3 # 4; 0; 3 # 4]; [1; 1; 3 # 4; 0]]%Q.
Proof. split; vm_compute; reflexivity. Qed.

Example worked_similarity_rounded :
  (λ row : list Q, fround 4 <$> row) <$> values Samples.worked_similarity
  = [[1; 707 # 2500; 2 # 5]; [707 # 2500; 1; 4243 # 10000];
     [2 # 5; 4243 # 10000; 1]]%Q.
Proof. vm_compute. reflexivity. Qed.

(** C1 fails on the code in the itemset path: the candidate is removed
    from its set, but the recommended ids then pass through a float64
    column. For the itemsets [{5, 2^53, 2^53 + 1}] and [{5, 6, 7, 8}] the
    rows of the frame differ in length, the id [2 ^ 53 + 1] recommended for
    [2 ^ 53] is stored as the float [2 ^ 53], and the final frame
    recommends the product [2 ^ 53] to itself. *)
Theorem self_recommendation_above_2_53 :
  ∃ df,
    generate_final_dataframe Events.rounded (run_ids Events.rounded) = Ok df
    ∧ (9007199254740992, 9007199254740992)%Z ∈ df
    ∧ ¬ (∀ row, row ∈ df → row.2 ≠ row.1).
Proof.
  eexists. split; [vm_compute; reflexivity|].
  match goal with |- (_ ∈ ?d) ∧ _ => set (df := d) end.
  assert ((9007199254740992, 9007199254740992)%Z ∈ df) as Hin by by_compute.
  split; [exact Hin|]. intros Hnone. by apply (Hnone _ Hin).
Qed.

(** No lookup for a seed returns the seed itself, every item recommended
    to a user is the nearest item of a seed other than that seed, and, as
    long as the product ids of the itemsets are at most [2 ^ 53] in
    absolute value, no row of the final frame of the itemset path
    recommends a product to itself. *)
Theorem no_self_recommendation {F : Type} `{Float64 F} :
  (∀ (sim : DataFrame F) (product : Z) (r : Z * F),
     nearest_item sim product = Ok r → r.1 ≠ product)
  ∧ (∀ (picked_userid n : Z) (um : DataFrame Z) (sim : DataFrame F)
       (rec : recommendation),
       get_item_recommendations picked_userid n um sim = Ok rec →
       ∀ k, k ∈ product_id rec →
         ∃ seeds q score,
           viewed_products picked_userid n um = Ok seeds
           ∧ q ∈ seeds.*1
           ∧ nearest_item sim q = Ok (k, score)
           ∧ k ≠ q)
  ∧ (∀ (processed_results : list itemset_row) (ids : list Z) (df : list (Z * Z)),
       (∀ row x, row ∈ processed_results → x ∈ itemsets row →
          (Z.abs x ≤ 2 ^ 53)%Z) →
       generate_final_dataframe processed_results ids = Ok df →
       ∀ row, row ∈ df → row.2 ≠ row.1).
Proof.
  split_and!.
  - apply @nearest_item_not_seed.
  - intros picked_userid n um sim rec. unfold get_item_recommendations.
    intros (seeds & Hseeds & Hrec)%bind_Ok k.
    apply bind_Ok in Hrec as (rec_items & Hloop & [= <-]). simpl. intros Hk.
    destruct (rec_items_loop_keys _ _ _ _ _ Hloop Hk)
      as [Hnil|(q & score & Hq & Hnear)]; [by apply elem_of_nil in Hnil|].
    exists seeds, q, score. split_and!; [done..|].
    by apply (nearest_item_not_seed _ _ _ Hnear).
  - intros processed_results ids df Hexact. unfold generate_final_dataframe.
    intros (dic & Hb & [= <-])%bind_Ok row Hrow.
    apply elem_of_final in Hrow as (t & c & Hin & Hc & Hrow).
    destruct (final_dic _ _ _ Hb) as (_ & Hentries & _).
    destruct (Hentries _ _ Hin) as (s & Hs & _ & Hcells).
    destruct (Hcells c Hc) as (v & Hv & Hcv).
    pose proof (recommended_set_exact _ _ _ _ Hexact Hs Hv) as Hfloat.
    destruct (recommended_set_member _ _ _ _ Hs Hv) as [Hne _].
    assert (c = v) as -> by (destruct Hcv; congruence).
    assert (row.2 = v) as -> by (destruct Hrow; congruence).
    done.
Qed.

Lemma no_self_recommendation_witness :
  (∃ score, nearest_item Samples.worked_similarity 10 = Ok (30%Z, score)
            ∧ 30%Z ≠ 10%Z)
  ∧ ∃ df, generate_final_dataframe Samples.surviving (run_ids Samples.surviving)
          = Ok df
          ∧ (5, 6)%Z ∈ df ∧ 6%Z ≠ 5%Z.
Proof.
  destruct (@no_self_recommendation Q _) as (Hseed & _ & Hrows).
  split.
  - assert (∃ score, nearest_item Samples.worked_similarity 10 = Ok (30%Z, score))
      as [score Hnear] by (eexists; vm_compute; reflexivity).
    exists score. split; [exact Hnear|]. exact (Hseed _ _ _ Hnear).
  - eexists. split; [vm_compute; reflexivity|].
    match goal with |- (_ ∈ ?d) ∧ _ => set (df := d) end.
    assert ((5, 6)%Z ∈ df) as Hin by by_compute.
    split; [exact Hin|].
    refine (Hrows Samples.surviving (run_ids Samples.surviving) df _ _ _ Hin).
    + apply ids_exact_elements. by_compute.
    + vm_compute. reflexivity.
Defined.

(** C2, as the specification states it, fails: for the metric
    ["euclidean"] the error is [UnboundLocalError], not
    [UnsupportedSimilarityMetric]; and for an allowed metric a matrix
    without items is refused by the input validation. *)
Lemma unsupported_metric_raises_UnboundLocalError :
  generate_item_similarity_matrix (F:=Q) Samples.worked_matrix "euclidean"
  = Raise UnboundLocalError
  ∧ generate_item_similarity_matrix (F:=Q) Samples.worked_matrix "euclidean"
    ≠ Raise SpecErrors.UnsupportedSimilarityMetric
  ∧ generate_item_similarity_matrix (F:=Q) (mkDataFrame [] [1; 2]%Z []) "cosine"
    = Raise ValueError.
Proof. split_and!; [vm_compute; reflexivity|discriminate|vm_compute; reflexivity]. Qed.

Lemma similarity_metric_dispatch_witness :
  generate_item_similarity_matrix (F:=Q) Samples.worked_matrix "euclidean"
  = Raise UnboundLocalError
  ∧ ∃ arr, generate_item_similarity_matrix (F:=Q) Samples.worked_matrix "jaccard"
           = Ok (mkDataFrame [10; 20; 30]%Z [10; 20; 30]%Z arr).
Proof.
  destruct (similarity_metric_dispatch (F:=Q) Samples.worked_matrix "euclidean")
    as [Hother _].
  destruct (similarity_metric_dispatch (F:=Q) Samples.worked_matrix "jaccard")
    as [_ Hallowed].
  split.
  - apply Hother; discriminate.
  - destruct Hallowed as [Hok _]; [by right|]. apply Hok; discriminate.
Defined.

Lemma similarity_matrix_symmetric_witness :
  loc2 Samples.worked_similarity 10 30 = loc2 Samples.worked_similarity 30 10
  ∧ ∃ score, loc2 Samples.worked_similarity 10 30 = Ok score
             ∧ loc2 Samples.worked_similarity 30 10 = Ok score.
Proof.
  destruct (similarity_matrix_symmetric Samples.worked_matrix "cosine"
              Samples.worked_similarity Q_fmul_comm worked_similarity_cosine)
    as [Hsym Hdef].
  split; [apply Hsym|].
  apply Hdef; [reflexivity|by_compute|by_compute].
Defined.

Lemma last_write_wins_witness :
  ∃ score1 score2 rec_items,
    nearest_item Samples.worked_similarity 10 = Ok (30%Z, score1)
    ∧ nearest_item Samples.worked_similarity 20 = Ok (30%Z, score2)
    ∧ fround 5 score1 = (2 # 5)%Q
    ∧ fround 5 score2 = (21213 # 50000)%Q
    ∧ rec_items_loop Samples.worked_similarity [10; 20]%Z [] = Ok rec_items
    ∧ dict_get rec_items 30%Z = Some (fround 5 score2)
    ∧ length (filter (λ k, k = 30%Z) [30%Z]) = 1.
Proof.
  assert (∃ s, nearest_item Samples.worked_similarity 10 = Ok (30%Z, s)
               ∧ fround 5 s = (2 # 5)%Q) as (score1 & H1 & Hr1)
    by (eexists; split; vm_compute; reflexivity).
  assert (∃ s, nearest_item Samples.worked_similarity 20 = Ok (30%Z, s)
               ∧ fround 5 s = (21213 # 50000)%Q) as (score2 & H2 & Hr2)
    by (eexists; split; vm_compute; reflexivity).
  exists score1, score2.
  destruct (last_write_wins 1 6 Samples.worked_matrix Samples.worked_similarity
              (mkRecommendation 1 1 [30%Z]) [(10, 2); (20, 1)]%Z
              [] 10 [] 20 [] 30 score1 score2)
    as (rec_items & Hloop & _ & Hget & Honce).
  - vm_compute. reflexivity.
  - reflexivity.
  - exact H1.
  - exact H2.
  - intros q x Hq. by apply elem_of_nil in Hq.
  - vm_compute. reflexivity.
  - exists rec_items. by split_and!.
Defined.

Lemma at_most_n_recommendations_witness :
  (0 ≤ 1)%Z
  ∧ (∃ rec, get_item_recommendations 2 1 Samples.worked_matrix
              Samples.worked_similarity = Ok rec
            ∧ product_id rec = [30%Z]
            ∧ length (product_id rec) ≤ Z.to_nat 1)
  ∧ ∃ rec, get_item_recommendations 3 NUM_RECOMMENDATIONS Samples.worked_matrix
             Samples.worked_similarity = Ok rec
           ∧ length (explode rec) ≤ 6.
Proof.
  split; [lia|]. split.
  - eexists. split; [vm_compute; reflexivity|]. split; [reflexivity|].
    refine (proj1 (proj2 (at_most_n_recommendations 2 1 Samples.worked_matrix
                            Samples.worked_similarity _ _ _))).
    + lia.
    + vm_compute. reflexivity.
  - eexists. split; [vm_compute; reflexivity|].
    refine (proj2 (proj2 (at_most_n_recommendations 3 NUM_RECOMMENDATIONS
                            Samples.worked_matrix Samples.worked_similarity
                            _ _ _)) eq_refl).
    + unfold NUM_RECOMMENDATIONS. lia.
    + vm_compute. reflexivity.
Defined.

Lemma batch_aborts_on_first_exception_witness :
  columns Samples.single_item_matrix = ([1] ++ 2 :: [3])%Z
  ∧ get_item_recommendations 2 NUM_RECOMMENDATIONS Samples.single_item_matrix
      Samples.single_item_similarity = Raise ValueError
  ∧ collect_dfs Samples.single_item_matrix Samples.single_item_similarity
      (columns Samples.single_item_matrix) []
    = collect_dfs Samples.single_item_matrix Samples.single_item_similarity
        [1%Z] []
  ∧ generate_final_recommendation_df Samples.single_item_matrix
      Samples.single_item_similarity
    = Ok [(1, 1, None)]%Z.
Proof.
  assert (get_item_recommendations 2 NUM_RECOMMENDATIONS
            Samples.single_item_matrix Samples.single_item_similarity
          = Raise ValueError) as Hfail by (vm_compute; reflexivity).
  destruct (batch_aborts_on_first_exception Samples.single_item_matrix
              Samples.single_item_similarity [1]%Z 2 [3]%Z ValueError)
    as (Hloop & _ & Hfinal & _).
  - reflexivity.
  - intros x ->%list_elem_of_singleton. eexists. vm_compute. reflexivity.
  - exact Hfail.
  - split_and!; [reflexivity|exact Hfail|exact Hloop|].
    rewrite Hfinal. vm_compute. reflexivity.
Defined.

(** ** Further properties: building the inputs *)

Lemma sorted_unique_elem_of (l : list Z) (x : Z) : x ∈ sorted_unique l ↔ x ∈ l.
Proof.
  unfold sorted_unique. by rewrite merge_sort_Permutation, elem_of_remove_dups.
Qed.

Lemma sorted_unique_NoDup (l : list Z) : NoDup (sorted_unique l).
Proof.
  unfold sorted_unique. rewrite merge_sort_Permutation. apply NoDup_remove_dups.
Qed.

Lemma StronglySorted_le_lt (l : list Z) :
  StronglySorted Z.le l → NoDup l → StronglySorted Z.lt l.
Proof.
  induction 1 as [|x l Hl IH Hx]; intros Hnd; [constructor|].
  apply NoDup_cons in Hnd as [Hnotin Hnd]. constructor; [by apply IH|].
  apply Forall_forall. intros y Hy.
  rewrite Forall_forall in Hx. specialize (Hx y Hy).
  assert (x ≠ y) by (intros ->; done). lia.
Qed.

Lemma sorted_unique_Sorted (l : list Z) : StronglySorted Z.lt (sorted_unique l).
Proof.
  apply StronglySorted_le_lt; [|apply sorted_unique_NoDup].
  apply StronglySorted_merge_sort; apply _.
Qed.

Section BuildFacts.
Import Build.
Implicit Types (df : list event).

Lemma elem_of_keyed df (u p : Z) : (u, p) ∈ keyed df ↔ (Some u, Some p) ∈ df.
Proof.
  unfold keyed. rewrite list_elem_of_omap. split.
  - intros ([[u'|] [p'|]] & Hin & Heq); simplify_eq/=. done.
  - intros Hin. by exists (Some u, Some p).
Qed.

Lemma group_count_keyed df (u p : Z) :
  group_count (keyed df) u p
  = length (filter (λ r : event, r = (Some u, Some p)) df).
Proof.
  unfold group_count, keyed. induction df as [|[[u'|] [p'|]] df IH]; csimpl;
    [done| |rewrite filter_cons_False by done; apply IH..].
  rewrite (filter_cons (λ r : Z * Z, r = (u, p))),
    (filter_cons (λ r : event, r = (Some u, Some p))).
  destruct (decide ((u', p') = (u, p))) as [[= -> ->]|Hne].
  - rewrite decide_True by done. simpl. f_equal. apply IH.
  - rewrite decide_False by (intros [= -> ->]; done). apply IH.
Qed.

Lemma group_count_pos (rows : list (Z * Z)) (u p : Z) :
  0 < group_count rows u p ↔ (u, p) ∈ rows.
Proof.
  unfold group_count. split.
  - intros Hpos. destruct (filter _ rows) as [|x l] eqn:E; [simpl in Hpos; lia|].
    assert (x ∈ filter (λ r : Z * Z, r = (u, p)) rows) as Hx by (rewrite E; left).
    by apply list_elem_of_filter in Hx as [-> Hx].
  - intros Hin.
    assert ((u, p) ∈ filter (λ r : Z * Z, r = (u, p)) rows) as Hx
      by (by apply list_elem_of_filter).
    destruct (filter _ rows); [by apply elem_of_nil in Hx|simpl; lia].
Qed.

Lemma matrix_labels df :
  let matrix := generate_user_item_matrix df in
  StronglySorted Z.lt (index matrix)
  ∧ StronglySorted Z.lt (columns matrix)
  ∧ NoDup (index matrix)
  ∧ NoDup (columns matrix)
  ∧ (∀ p, p ∈ index matrix ↔ ∃ u, (Some u, Some p) ∈ df)
  ∧ (∀ u, u ∈ columns matrix ↔ ∃ p, (Some u, Some p) ∈ df)
  ∧ length (values matrix) = length (index matrix)
  ∧ Forall (λ row, length row = length (columns matrix)) (values matrix).
Proof.
  simpl. split_and!; try apply sorted_unique_Sorted; try apply sorted_unique_NoDup.
  - intros p. rewrite sorted_unique_elem_of, list_elem_of_fmap. split.
    + intros ([u p'] & -> & Hin). exists u. by apply elem_of_keyed.
    + intros [u Hin]. exists (u, p). split; [done|]. by apply elem_of_keyed.
  - intros u. rewrite sorted_unique_elem_of, list_elem_of_fmap. split.
    + intros ([u' p] & -> & Hin). exists p. by apply elem_of_keyed.
    + intros [p Hin]. exists (u, p). split; [done|]. by apply elem_of_keyed.
  - by rewrite length_fmap.
  - apply Forall_fmap, Forall_forall. intros p _. simpl. by rewrite length_fmap.
Qed.

Lemma loc2_generate df (p u : Z) :
  let matrix := generate_user_item_matrix df in
  p ∈ index matrix → u ∈ columns matrix →
  loc2 matrix p u = Ok (pivot_cell (keyed df) p u).
Proof.
  simpl. intros [i Hi]%index_of_elem_of [j Hj]%index_of_elem_of.
  unfold loc2. simpl. rewrite Hi, Hj. simpl.
  apply index_of_lookup in Hi, Hj.
  rewrite list_lookup_fmap, Hi. simpl.
  by rewrite list_lookup_fmap, Hj.
Qed.

Lemma matrix_cells df :
  let matrix := generate_user_item_matrix df in
  (∀ p u, p ∈ index matrix → u ∈ columns matrix →
     let n := length (filter (λ r : event, r = (Some u, Some p)) df) in
     loc2 matrix p u = Ok (if n =? 0 then None else Some (Z.of_nat n)))
  ∧ (∀ p u c, loc2 matrix p u = Ok (Some c) → (1 ≤ c)%Z)
  ∧ (∀ p, p ∈ index matrix → ∃ u c, loc2 matrix p u = Ok (Some c))
  ∧ (∀ u, u ∈ columns matrix → ∃ p c, loc2 matrix p u = Ok (Some c)).
Proof.
  pose proof (matrix_labels df) as (_ & _ & _ & _ & Hidx & Hcols & _).
  cbv zeta in *. split_and!.
  - intros p u Hp Hu. rewrite (loc2_generate df p u Hp Hu).
    unfold pivot_cell. by rewrite group_count_keyed.
  - intros p u c Hloc.
    assert (p ∈ index (generate_user_item_matrix df)
            ∧ u ∈ columns (generate_user_item_matrix df)) as [Hp Hu].
    { unfold loc2 in Hloc.
      destruct (index_of p _) as [i|] eqn:Hi; [|done].
      destruct (index_of u _) as [j|] eqn:Hj; [|done].
      apply index_of_lookup in Hi, Hj.
      split; by eapply list_elem_of_lookup_2. }
    rewrite (loc2_generate df p u Hp Hu) in Hloc. unfold pivot_cell in Hloc.
    destruct (group_count (keyed df) u p =? 0) eqn:E; [done|].
    apply Nat.eqb_neq in E. injection Hloc as <-. lia.
  - intros p Hp. destruct (proj1 (Hidx p) Hp) as [u Hin].
    assert (u ∈ columns (generate_user_item_matrix df)) as Hu
      by (apply Hcols; eauto).
    exists u. rewrite (loc2_generate df p u Hp Hu). unfold pivot_cell.
    apply elem_of_keyed, group_count_pos in Hin.
    destruct (group_count (keyed df) u p =? 0) eqn:E;
      [apply Nat.eqb_eq in E; lia|by eexists].
  - intros u Hu. destruct (proj1 (Hcols u) Hu) as [p Hin].
    assert (p ∈ index (generate_user_item_matrix df)) as Hp
      by (apply Hidx; eauto).
    exists p. rewrite (loc2_generate df p u Hp Hu). unfold pivot_cell.
    apply elem_of_keyed, group_count_pos in Hin.
    destruct (group_count (keyed df) u p =? 0) eqn:E;
      [apply Nat.eqb_eq in E; lia|by eexists].
Qed.

End BuildFacts.

(** ** Further properties: pre-processing the matrix *)

Section KeyedLists.
Context {A : Type}.
Implicit Types (ks : list Z) (vs : list A) (z : list (Z * A)).

Lemma NoDup_fst_functional z k (v1 v2 : A) :
  NoDup z.*1 → (k, v1) ∈ z → (k, v2) ∈ z → v1 = v2.
Proof.
  induction z as [|[k' v'] z IH]; csimpl; [by intros _ ?%elem_of_nil|].
  intros [Hnotin Hnd]%NoDup_cons [H1|H1]%elem_of_cons [H2|H2]%elem_of_cons.
  - congruence.
  - injection H1 as -> ->. destruct Hnotin.
    by apply (list_elem_of_fmap_2 fst _ (k', v2)).
  - injection H2 as -> ->. destruct Hnotin.
    by apply (list_elem_of_fmap_2 fst _ (k', v1)).
  - by apply IH.
Qed.

Lemma fst_filter_zip (P : Z → Prop) `{∀ k, Decision (P k)}
    `{∀ c : Z * A, Decision (P c.1)} ks vs :
  length ks ≤ length vs →
  (filter (λ c : Z * A, P c.1) (zip ks vs)).*1 = filter P ks.
Proof.
  revert vs. induction ks as [|k ks IH]; intros [|v vs] Hlen; simpl in *;
    [done|done|lia|].
  rewrite (filter_cons (λ c : Z * A, P c.1)), (filter_cons P). simpl.
  destruct (decide (P k)) as [HP|HP].
  - rewrite decide_True by done. csimpl. rewrite IH by lia. done.
  - rewrite decide_False by done. rewrite IH by lia. done.
Qed.

Lemma elem_of_zip_lookup ks vs k (v : A) :
  (k, v) ∈ zip ks vs ↔ ∃ i, ks !! i = Some k ∧ vs !! i = Some v.
Proof.
  rewrite list_elem_of_lookup. split.
  - intros [i Hi]. apply lookup_zip_with_Some in Hi as (? & ? & [= <- <-] & ? & ?).
    eauto.
  - intros (i & Hk & Hv). exists i. apply lookup_zip_with_Some. eauto.
Qed.
End KeyedLists.

Section PreprocessMore.
Implicit Types (matrix : DataFrame cell).

(** With unique labels on both axes, [loc2] reads the cell stored under
    the two labels. *)
Lemma loc2_elem_of {V} (m : DataFrame V) p u row (c : V) :
  NoDup (index m) → NoDup (columns m) →
  (p, row) ∈ iterrows m → (u, c) ∈ zip (columns m) row →
  loc2 m p u = Ok c.
Proof.
  intros Hidx Hcols (i & Hi & Hrow)%elem_of_zip_lookup
    (j & Hj & Hc)%elem_of_zip_lookup.
  unfold loc2. rewrite (index_of_NoDup _ _ _ Hidx Hi). simpl.
  rewrite (index_of_NoDup _ _ _ Hcols Hj). simpl.
  rewrite Hrow. simpl. by rewrite Hc.
Qed.

Lemma loc2_inv {V} (m : DataFrame V) p u (c : V) :
  loc2 m p u = Ok c →
  ∃ row, (p, row) ∈ iterrows m ∧ (u, c) ∈ zip (columns m) row.
Proof.
  unfold loc2. intros (i & Hi & Hrest)%bind_Ok.
  apply bind_Ok in Hrest as (j & Hj & Hrest).
  apply bind_Ok in Hrest as (row & Hrow & Hc).
  destruct (index_of p (index m)) as [i'|] eqn:Ei; [|done].
  destruct (index_of u (columns m)) as [j'|] eqn:Ej; [|done].
  simpl in Hi, Hj. injection Hi as ->. injection Hj as ->.
  apply index_of_lookup in Ei, Ej.
  destruct (values m !! i) as [row'|] eqn:Er; [|done].
  simpl in Hrow. injection Hrow as ->.
  destruct (row !! j) as [c'|] eqn:Ec; [|done].
  simpl in Hc. injection Hc as ->.
  exists row. split; apply elem_of_zip_lookup; eauto.
Qed.

Lemma li_users_spec matrix labels :
  labels ⊆ columns matrix →
  ∃ li, li_users matrix labels = Ok li
    ∧ ∀ u, u ∈ li ↔
        u ∈ labels
        ∧ ∃ col, getitem matrix u = Ok col
                 ∧ count_null col = length (index matrix).
Proof.
  induction labels as [|q labels IH]; intros Hsub; simpl.
  - exists []. split; [done|]. intros u. rewrite !elem_of_nil. tauto.
  - destruct (getitem_columns matrix q) as [col Hcol]; [apply Hsub; left|].
    rewrite Hcol. simpl.
    destruct IH as (li & -> & Hli); [intros x Hx; apply Hsub; by right|].
    simpl. eexists. split; [reflexivity|]. intros u.
    destruct (count_null col =? length (index matrix)) eqn:E.
    + apply Nat.eqb_eq in E. rewrite !elem_of_cons, Hli. split.
      * intros [->|[? ?]]; [split; [by left|eauto]|split; [by right|done]].
      * intros [[->|?] Hex]; [by left|right; done].
    + apply Nat.eqb_neq in E. rewrite elem_of_cons, Hli. split.
      * intros [? ?]. split; [by right|done].
      * intros [[->|?] Hex]; [|done].
        destruct Hex as (col' & Hcol' & Hnull). congruence.
Qed.

(** The two drop lists and the frame [preprocess_user_item_matrix]
    returns. *)
Lemma preprocess_unfold matrix :
  NoDup (index matrix) → length (index matrix) = length (values matrix) →
  ∃ prods users,
    preprocess_user_item_matrix matrix
    = Ok (fillna0 (drop_columns users (drop_rows prods matrix)))
    ∧ (∀ p, p ∈ prods ↔
         p ∈ index matrix
         ∧ ∃ row, (p, row) ∈ iterrows matrix
                  ∧ count_le1 (zip (columns matrix) row) ≤ 2)
    ∧ (∀ u, u ∈ users ↔
         u ∈ columns matrix
         ∧ ∃ col, getitem (drop_rows prods matrix) u = Ok col
                  ∧ count_null col = length (index (drop_rows prods matrix))).
Proof.
  intros Hnd Hlen. unfold preprocess_user_item_matrix.
  destruct (li_prod_spec matrix (index matrix) Hnd Hlen) as (prods & -> & Hprods);
    [done|].
  simpl.
  destruct (li_users_spec (drop_rows prods matrix) (columns matrix))
    as (users & -> & Husers); [done|].
  simpl. by exists prods, users.
Qed.

End PreprocessMore.

Section PreprocessFrame.
Implicit Types (matrix : DataFrame cell).

Lemma length_omap_total {A B} (f : A → option B) (l : list A) :
  (∀ x, x ∈ l → is_Some (f x)) → length (omap f l) = length l.
Proof.
  induction l as [|x l IH]; intros Hf; csimpl; [done|].
  destruct (Hf x) as [y ->]; [left|]. simpl. f_equal.
  apply IH. intros z Hz. apply Hf. by right.
Qed.

Lemma length_omap_le {A B} (f : A → option B) (l : list A) :
  length (omap f l) ≤ length l.
Proof.
  induction l as [|x l IH]; csimpl; [done|]. destruct (f x); simpl; lia.
Qed.

Lemma length_filter_all {A} (P : A → Prop) `{∀ x, Decision (P x)} (l : list A) :
  (∀ x, x ∈ l → P x) → length (filter P l) = length l.
Proof.
  induction l as [|x l IH]; intros HP; [done|].
  rewrite filter_cons_True by (apply HP; left). simpl. f_equal.
  apply IH. intros z Hz. apply HP. by right.
Qed.

(** The rows of a frame after [drop_rows]. *)
Lemma iterrows_drop_rows matrix labels :
  iterrows (drop_rows labels matrix)
  = filter (λ r : Z * list cell, r.1 ∉ labels) (iterrows matrix).
Proof. unfold drop_rows, iterrows at 1. simpl. apply zip_fst_snd. Qed.

Lemma length_filter_ne_exists {A} (P : A → Prop) `{∀ x, Decision (P x)}
    (l : list A) :
  length (filter P l) ≠ length l → ∃ x, x ∈ l ∧ ¬ P x.
Proof.
  induction l as [|x l IH]; [done|]. rewrite filter_cons.
  destruct (decide (P x)) as [HP|HP]; simpl.
  - intros Hne. destruct IH as (y & Hy & HPy); [lia|].
    exists y. split; [by right|done].
  - intros _. exists x. split; [left|done].
Qed.

(** A user column of a rectangular frame is empty of present cells
    exactly when its null count reaches the number of rows. *)
Lemma count_null_all matrix u j :
  rectangular matrix → index_of u (columns matrix) = Some j →
  ∃ col, getitem matrix u = Ok col
    ∧ (count_null col = length (index matrix) →
       ∀ r v, r ∈ iterrows matrix → r.2 !! j ≠ Some (Some v))
    ∧ (count_null col ≠ length (index matrix) →
       ∃ r v, r ∈ iterrows matrix ∧ r.2 !! j = Some (Some v)).
Proof.
  intros [Hlen Hrows] Hj. unfold getitem. rewrite Hj. simpl.
  eexists. split; [reflexivity|].
  set (f := λ r : Z * list cell, pair r.1 <$> r.2 !! j).
  assert (∀ r, r ∈ iterrows matrix → is_Some (r.2 !! j)) as Hdef.
  { intros [p row] Hr. simpl. apply lookup_lt_is_Some.
    apply elem_of_zip_r in Hr. rewrite Forall_forall in Hrows.
    rewrite (Hrows _ Hr). apply index_of_lookup in Hj.
    by eapply lookup_lt_Some. }
  assert (length (omap f (iterrows matrix)) = length (index matrix)) as Hcol.
  { rewrite length_omap_total.
    - unfold iterrows. rewrite length_zip. lia.
    - intros r Hr. destruct (Hdef r Hr) as [c Hc]. unfold f. rewrite Hc.
      by eexists. }
  unfold count_null, Series. split.
  - intros Hall r v Hr Hrv.
    assert ((r.1, Some v) ∈ omap f (iterrows matrix)) as Hin.
    { apply list_elem_of_omap. exists r. split; [done|]. unfold f.
      by rewrite Hrv. }
    assert (length (filter (λ c : Z * cell, c.2 = None) (omap f (iterrows matrix)))
            < length (omap f (iterrows matrix))) as Hlt
      by (by apply (length_filter_lt _ _ (r.1, Some v))).
    lia.
  - rewrite <- Hcol. intros ([p c] & Hin & Hc)%length_filter_ne_exists.
    apply list_elem_of_omap in Hin as (r & Hr & Hf). unfold f in Hf.
    simpl in Hc. destruct c as [v|]; [|done].
    exists r, v. split; [done|].
    destruct (r.2 !! j) as [c'|]; simplify_eq/=. done.
Qed.

Lemma rectangular_drop_rows matrix labels :
  rectangular matrix → rectangular (drop_rows labels matrix).
Proof.
  intros [Hlen Hrows]. unfold rectangular, drop_rows. simpl. split.
  - by rewrite !length_fmap.
  - apply Forall_forall. intros row ([p row'] & -> & Hin)%list_elem_of_fmap.
    apply list_elem_of_filter in Hin as [_ Hin]. apply elem_of_zip_r in Hin.
    rewrite Forall_forall in Hrows. by apply Hrows.
Qed.

Lemma preprocess_shape matrix :
  NoDup (index matrix) → NoDup (columns matrix) → rectangular matrix →
  ∃ processed,
    preprocess_user_item_matrix matrix = Ok processed
    ∧ index processed `sublist_of` index matrix
    ∧ columns processed `sublist_of` columns matrix
    ∧ rectangular processed
    ∧ (∀ u, u ∈ columns processed ↔
         u ∈ columns matrix
         ∧ ∃ p v, p ∈ index processed ∧ loc2 matrix p u = Ok (Some v))
    ∧ (∀ p u, p ∈ index processed → u ∈ columns processed →
         ∃ c, loc2 matrix p u = Ok c
              ∧ loc2 processed p u = Ok (default 0%Z c)).
Proof.
  intros Hidx Hcols [Hlen Hrows].
  destruct (preprocess_unfold matrix Hidx (eq_sym Hlen))
    as (prods & users & Hpre & Hprods & Husers).
  eexists. split; [exact Hpre|].
  set (kept := filter (λ r : Z * list cell, r.1 ∉ prods) (iterrows matrix)).
  assert (index (drop_rows prods matrix)
          = filter (λ p, p ∉ prods) (index matrix)) as Hindex.
  { unfold drop_rows, iterrows. simpl.
    apply (fst_filter_zip (λ p, p ∉ prods)). lia. }
  assert (∀ p row, (p, row) ∈ kept ↔ (p ∉ prods) ∧ (p, row) ∈ iterrows matrix)
    as Hkept by (intros p row; unfold kept; by rewrite list_elem_of_filter).
  assert (∀ r, r ∈ iterrows matrix → length r.2 = length (columns matrix))
    as Hrowlen.
  { intros [p row] Hr. apply elem_of_zip_r in Hr.
    rewrite Forall_forall in Hrows. by apply Hrows. }
  assert (∀ u, u ∈ columns matrix →
            (u ∉ users ↔ ∃ p v, p ∈ index (drop_rows prods matrix)
                                ∧ loc2 matrix p u = Ok (Some v))) as Husers'.
  { intros u Hu. destruct (index_of_elem_of u _ Hu) as [j Hj].
    destruct (count_null_all (drop_rows prods matrix) u j
                (rectangular_drop_rows _ _ (conj Hlen Hrows)) Hj)
      as (col & Hcol & Hall & Hex).
    split.
    - intros Hnot. destruct Hex as ([p row] & v & Hr & Hrv).
      { intros Hnull. apply Hnot, Husers. eauto. }
      rewrite iterrows_drop_rows in Hr.
      apply list_elem_of_filter in Hr as [Hp Hr]. simpl in *.
      exists p, v. split.
      + rewrite Hindex. apply list_elem_of_filter. split; [done|].
        by apply elem_of_zip_l in Hr.
      + apply (loc2_elem_of matrix p u row); [done..|].
        apply elem_of_zip_lookup. exists j. split; [|done].
        by apply index_of_lookup.
    - intros (p & v & Hp & Hloc) [_ (col' & Hcol' & Hnull)]%Husers.
      rewrite Hcol in Hcol'. injection Hcol' as <-.
      apply loc2_inv in Hloc as (row & Hrow & Hcell).
      apply (Hall Hnull (p, row) v).
      + rewrite iterrows_drop_rows. apply list_elem_of_filter. split; [|done].
        simpl. rewrite Hindex in Hp. by apply list_elem_of_filter in Hp as [? _].
      + simpl. apply elem_of_zip_lookup in Hcell as (j' & Hj' & Hv).
        apply index_of_lookup in Hj.
        by rewrite (NoDup_lookup _ _ _ _ Hcols Hj Hj'). }
  split_and!.
  - change (index (fillna0 _)) with (index (drop_rows prods matrix)).
    rewrite Hindex. apply sublist_filter.
  - simpl. apply sublist_filter.
  - unfold rectangular. simpl. split; [by rewrite !length_fmap|].
    apply Forall_fmap, Forall_fmap, Forall_fmap, Forall_forall.
    intros [p row] Hr. simpl. rewrite !length_fmap.
    apply list_elem_of_filter in Hr as [_ Hr].
    rewrite <- (fst_filter_zip (λ u, u ∉ users) (columns matrix) row)
      by (pose proof (Hrowlen _ Hr) as Hl; simpl in Hl; lia).
    by rewrite length_fmap.
  - intros u. change (columns (fillna0 _))
      with (filter (λ u, u ∉ users) (columns matrix)).
    change (index (fillna0 _)) with (index (drop_rows prods matrix)).
    rewrite list_elem_of_filter. split.
    + intros [Hnot Hu]. split; [done|]. by apply Husers'.
    + intros [Hu Hex]. split; [|done]. by apply Husers'.
  - intros p u. change (columns (fillna0 _))
      with (filter (λ u, u ∉ users) (columns matrix)).
    change (index (fillna0 _)) with (index (drop_rows prods matrix)).
    rewrite Hindex. intros [Hp Hpin]%list_elem_of_filter
      [Hu Huin]%list_elem_of_filter.
    destruct (loc_index matrix p (eq_sym Hlen) Hpin) as [row Hrow].
    destruct (index_of_elem_of u _ Huin) as [j Hj].
    apply index_of_lookup in Hj.
    destruct (lookup_lt_is_Some_2 row j) as [c Hc].
    { pose proof (Hrowlen _ Hrow) as Hl. simpl in Hl. rewrite Hl.
      by eapply lookup_lt_Some. }
    assert ((u, c) ∈ zip (columns matrix) row) as Hcell
      by (apply elem_of_zip_lookup; eauto).
    exists c. split; [by apply (loc2_elem_of matrix p u row)|].
    set (z := filter (λ c : Z * cell, c.1 ∉ users) (zip (columns matrix) row)).
    apply (loc2_elem_of _ p u (default 0%Z <$> z.*2)).
    + change (index (fillna0 _)) with (index (drop_rows prods matrix)).
      rewrite Hindex. by apply NoDup_filter.
    + simpl. by apply NoDup_filter.
    + unfold iterrows. simpl.
      assert ((p, row) ∈ kept) as Hk by (by apply Hkept).
      apply list_elem_of_lookup_1 in Hk as [i Hi].
      apply elem_of_zip_lookup. exists i.
      rewrite !list_lookup_fmap. fold kept. by rewrite Hi.
    + simpl.
      assert ((u, c) ∈ z) as Hz by (by apply list_elem_of_filter).
      apply list_elem_of_lookup_1 in Hz as [i Hi].
      apply elem_of_zip_lookup. exists i.
      rewrite <- (fst_filter_zip (λ u, u ∉ users) (columns matrix) row)
        by (pose proof (Hrowlen _ Hrow) as Hl; simpl in Hl; lia).
      fold z. rewrite !list_lookup_fmap, Hi. done.
Qed.

End PreprocessFrame.

(** ** Further properties: similarity and ranking *)

Section RankingMore.
Context {F : Type} `{Float64 F}.
Implicit Types (sim : DataFrame F) (um : DataFrame Z).

(** The similarity frame is square over the items of the matrix. *)
Lemma similarity_shape um (type : string) sim :
  generate_item_similarity_matrix um type = Ok sim →
  index sim = index um ∧ columns sim = index um
  ∧ length (values sim) = length (values um)
  ∧ Forall (λ row, length row = length (values um)) (values sim)
  ∧ index um ≠ [] ∧ columns um ≠ []
  ∧ (type = "cosine" ∨ type = "jaccard").
Proof.
  unfold generate_item_similarity_matrix.
  intros (arr & Harr & [= <-])%bind_Ok. simpl.
  assert (∀ X, check_array um = Ok X →
            X = values um ∧ index um ≠ [] ∧ columns um ≠ []) as Hcheck.
  { intros X. unfold check_array.
    destruct (index um), (columns um); intros; by simplify_eq. }
  destruct (decide (type = "cosine")) as [->|_].
  - apply bind_Ok in Harr as (X & [-> [? ?]]%Hcheck & [= <-]).
    unfold cosine_similarity, normalize. split_and!; try done.
    + by rewrite !length_fmap.
    + apply Forall_fmap, Forall_forall. intros u _. simpl.
      by rewrite !length_fmap.
    + by left.
  - destruct (decide (type = "jaccard")) as [->|_]; [|done].
    apply bind_Ok in Harr as (X & [-> [? ?]]%Hcheck & [= <-]).
    unfold pairwise_distances_jaccard, squareform. split_and!; try done.
    + by rewrite !length_fmap, length_seq.
    + apply Forall_fmap, Forall_fmap, Forall_forall. intros i _. simpl.
      by rewrite !length_fmap, length_seq.
    + by right.
Qed.

Lemma loc_Ok_inv {V} (m : DataFrame V) p (series : Series V) :
  loc m p = Ok series →
  ∃ i row, index_of p (index m) = Some i ∧ values m !! i = Some row
           ∧ series = zip (columns m) row.
Proof.
  unfold loc. intros (i & Hi & Hrest)%bind_Ok.
  apply bind_Ok in Hrest as (row & Hrow & [= <-]).
  destruct (index_of p (index m)) as [i'|]; [|done].
  simpl in Hi. injection Hi as ->.
  destruct (values m !! i) as [row'|] eqn:E; [|done].
  simpl in Hrow. injection Hrow as ->.
  by exists i, row.
Qed.

(** On a square frame with at least two distinct items every lookup of a
    nearest item succeeds, and finds an item of the frame. *)
Lemma nearest_item_total sim product :
  NoDup (index sim) → columns sim = index sim →
  length (values sim) = length (index sim) →
  Forall (λ row, length row = length (index sim)) (values sim) →
  2 ≤ length (index sim) → product ∈ index sim →
  ∃ r, nearest_item sim product = Ok r.
Proof.
  intros Hnd Hcols Hlen Hrows H2 Hp.
  destruct (index_of_elem_of product _ Hp) as [i Hi].
  destruct (lookup_lt_is_Some_2 (values sim) i) as [row Hrow].
  { rewrite Hlen. apply index_of_lookup in Hi. by eapply lookup_lt_Some. }
  assert (length row = length (index sim)) as Hrowlen.
  { rewrite Forall_forall in Hrows. apply Hrows.
    by eapply list_elem_of_lookup_2. }
  unfold nearest_item, loc. rewrite Hi. simpl. rewrite Hrow. simpl.
  rewrite Hcols.
  assert (∃ q, q ∈ index sim ∧ q ≠ product) as (q & Hq & Hne).
  { destruct (index sim) as [|a [|b l]] eqn:E; simpl in H2; [lia..|].
    apply NoDup_cons in Hnd as [Hab _].
    destruct (decide (a = product)) as [->|Ha].
    - exists b. split; [right; left|]. intros ->. apply Hab. left.
    - exists a. split; [left|done]. }
  apply list_elem_of_lookup_1 in Hq as [j Hj].
  destruct (lookup_lt_is_Some_2 row j) as [c Hc].
  { rewrite Hrowlen. by eapply lookup_lt_Some. }
  match goal with |- context [idxmax ?l] => set (series := l) end.
  assert ((q, c) ∈ series) as Hin.
  { apply list_elem_of_filter. split; [done|].
    apply elem_of_zip_lookup. eauto. }
  assert (∀ k, k ∈ series.*1 → k ∈ index sim) as Hlabels.
  { intros k ([k' v] & -> & Hmem)%list_elem_of_fmap.
    apply list_elem_of_filter in Hmem as [_ Hmem].
    by apply elem_of_zip_l in Hmem. }
  destruct (idxmax series) as [k|e] eqn:Eidx.
  2: { destruct series; [by apply elem_of_nil in Hin|done]. }
  simpl. apply idxmax_elem_of, Hlabels in Eidx as Hk.
  unfold loc2. rewrite Hi, Hcols. simpl.
  destruct (index_of_elem_of _ _ Hk) as [j' Hj']. rewrite Hj'. simpl.
  rewrite Hrow. simpl.
  destruct (lookup_lt_is_Some_2 row j') as [c' Hc'].
  { rewrite Hrowlen. apply index_of_lookup in Hj'. by eapply lookup_lt_Some. }
  rewrite Hc'. by eexists.
Qed.

Lemma rec_items_loop_total sim (seeds : list Z) rec_items :
  (∀ p, p ∈ seeds → ∃ r, nearest_item sim p = Ok r) →
  ∃ d, rec_items_loop sim seeds rec_items = Ok d.
Proof.
  revert rec_items. induction seeds as [|p seeds IH]; intros d0 Hall; simpl;
    [by eexists|].
  destruct (Hall p) as [r ->]; [left|]. simpl.
  apply IH. intros q Hq. apply Hall. by right.
Qed.

(** The seeds of a user label rows of the matrix. *)
Lemma viewed_products_rows picked_userid n um (seeds : Series Z) :
  viewed_products picked_userid n um = Ok seeds →
  ∀ p, p ∈ seeds.*1 → ∃ row, (p, row) ∈ iterrows um.
Proof.
  unfold viewed_products, getitem.
  intros (col & Hcol & [= <-])%bind_Ok p ([p' c] & -> & Hin)%list_elem_of_fmap.
  apply bind_Ok in Hcol as (j & _ & [= <-]).
  assert ((p', c) ∈ series_sort_values_desc
            (filter (λ c : Z * Z, c.2 ≠ 0%Z)
               (omap (λ r : Z * list Z, pair r.1 <$> r.2 !! j) (iterrows um))))
    as Hs by (unfold slice_to in Hin; destruct (0 <=? n)%Z;
              by eapply subseteq_take).
  rewrite series_sort_values_desc_perm in Hs.
  apply list_elem_of_filter in Hs as [_ Hs].
  apply list_elem_of_omap in Hs as ([q row] & Hr & Hf). simpl in *.
  destruct (row !! j); simplify_eq/=. by exists row.
Qed.

Lemma viewed_products_labels picked_userid n um (seeds : Series Z) :
  viewed_products picked_userid n um = Ok seeds →
  ∀ p, p ∈ seeds.*1 → p ∈ index um.
Proof.
  intros Hseeds p Hp.
  destruct (viewed_products_rows _ _ _ _ Hseeds p Hp) as [row Hrow].
  by apply elem_of_zip_l in Hrow.
Qed.

Lemma get_item_recommendations_total picked_userid n um sim (type : string) :
  NoDup (index um) → length (index um) = length (values um) →
  2 ≤ length (index um) →
  generate_item_similarity_matrix um type = Ok sim →
  picked_userid ∈ columns um →
  ∃ rec, get_item_recommendations picked_userid n um sim = Ok rec.
Proof.
  intros Hnd Hlen H2 Hsim Hu.
  destruct (similarity_shape _ _ _ Hsim) as (Hi & Hc & Hl & Hr & _).
  unfold get_item_recommendations.
  destruct (getitem_columns um picked_userid Hu) as [col Hcol].
  assert (∃ seeds, viewed_products picked_userid n um = Ok seeds)
    as [seeds Hseeds] by (unfold viewed_products; rewrite Hcol; by eexists).
  rewrite Hseeds. simpl.
  destruct (rec_items_loop_total sim seeds.*1 []) as [d ->]; [|by eexists].
  intros p Hp. apply nearest_item_total; rewrite ?Hi, ?Hc; try done.
  - by rewrite Hl.
  - by rewrite <- Hlen in Hr.
  - by eapply viewed_products_labels.
Qed.

(** The frames collected when no user fails. *)
Lemma collect_dfs_all um sim (ids : list Z) li_dfs :
  (∀ x, x ∈ ids → ∃ d, get_item_recommendations x NUM_RECOMMENDATIONS um sim = Ok d) →
  ∃ ds, Forall2 (λ x d, get_item_recommendations x NUM_RECOMMENDATIONS um sim = Ok d)
          ids ds
        ∧ collect_dfs um sim ids li_dfs = li_dfs ++ (explode <$> ds).
Proof.
  revert li_dfs. induction ids as [|x ids IH]; intros li_dfs Hall; simpl.
  - exists []. split; [constructor|by rewrite app_nil_r].
  - destruct (Hall x) as [d Hd]; [left|]. rewrite Hd.
    destruct (IH (li_dfs ++ [explode d])) as (ds & Hds & ->).
    { intros y Hy. apply Hall. by right. }
    exists (d :: ds). split; [by constructor|].
    by rewrite <- app_assoc.
Qed.

Lemma explode_nonempty (d : recommendation) : explode d ≠ [].
Proof. unfold explode. by destruct (product_id d). Qed.

Lemma explode_rows (d : recommendation) (row : rec_row) :
  row ∈ explode d →
  row.1.1 = user_id d ∧ row.1.2 = type_ d
  ∧ ∀ k, row.2 = Some k → k ∈ product_id d.
Proof.
  unfold explode. destruct (product_id d) as [|k ks].
  - intros ->%list_elem_of_singleton. by split_and!.
  - intros (k' & -> & Hk')%list_elem_of_fmap. simpl. split_and!; [done..|].
    by intros k'' [= <-].
Qed.

(** Every recommended id is a column label of the similarity frame. *)
Lemma recommended_in_columns picked_userid n um sim rec k :
  get_item_recommendations picked_userid n um sim = Ok rec →
  k ∈ product_id rec → k ∈ columns sim.
Proof.
  unfold get_item_recommendations. intros (seeds & _ & Hrec)%bind_Ok.
  apply bind_Ok in Hrec as (rec_items & Hloop & [= <-]). simpl. intros Hk.
  destruct (rec_items_loop_keys _ _ _ _ _ Hloop Hk)
    as [Hnil|(q & score & _ & Hnear)]; [by apply elem_of_nil in Hnil|].
  unfold nearest_item in Hnear.
  apply bind_Ok in Hnear as (series & Hseries & Hrest).
  apply bind_Ok in Hrest as (k' & Hidx & Hrest).
  apply bind_Ok in Hrest as (s & _ & [= <- _]).
  apply idxmax_elem_of, list_elem_of_fmap in Hidx as ([k'' v] & -> & Hin).
  apply list_elem_of_filter in Hin as [_ Hin].
  apply loc_Ok_inv in Hseries as (i & row & _ & _ & ->).
  by apply elem_of_zip_l in Hin.
Qed.

End RankingMore.

Section BatchMore.
Context {F : Type} `{Float64 F}.
Implicit Types (sim : DataFrame F) (um : DataFrame Z).

(** The loop over the users collects the frames of an initial segment of
    the users: those before the first one that raises. *)
Lemma collect_dfs_prefix um sim (ids : list Z) li_dfs :
  ∃ k ds,
    Forall2 (λ x d, get_item_recommendations x NUM_RECOMMENDATIONS um sim = Ok d)
      (take k ids) ds
    ∧ collect_dfs um sim ids li_dfs = li_dfs ++ (explode <$> ds)
    ∧ (k < length ids →
       ∃ x e, ids !! k = Some x
              ∧ get_item_recommendations x NUM_RECOMMENDATIONS um sim = Raise e).
Proof.
  revert li_dfs. induction ids as [|x ids IH]; intros li_dfs; simpl.
  - exists 0, []. split_and!; [constructor|by rewrite app_nil_r|simpl; lia].
  - destruct (get_item_recommendations x NUM_RECOMMENDATIONS um sim)
      as [d|e] eqn:Hd.
    + destruct (IH (li_dfs ++ [explode d])) as (k & ds & Hds & -> & Hfail).
      exists (S k), (d :: ds). split_and!.
      * by constructor.
      * by rewrite <- app_assoc.
      * intros Hk. apply Hfail. simpl in Hk. lia.
    + exists 0, []. split_and!; [constructor|by rewrite app_nil_r|].
      intros _. by exists x, e.
Qed.

Lemma batch_first_fails um sim (u : Z) (us : list Z) (e : exn) :
  columns um = u :: us →
  get_item_recommendations u NUM_RECOMMENDATIONS um sim = Raise e →
  generate_final_recommendation_df um sim = Raise ValueError.
Proof.
  intros Hc Hfail. unfold generate_final_recommendation_df.
  rewrite Hc. simpl. by rewrite Hfail.
Qed.

Lemma batch_no_users um sim :
  columns um = [] → generate_final_recommendation_df um sim = Raise ValueError.
Proof. intros Hc. unfold generate_final_recommendation_df. by rewrite Hc. Qed.

Lemma NoDup_explode (d : recommendation) : NoDup (product_id d) → NoDup (explode d).
Proof.
  intros Hnd. unfold explode. destruct (product_id d) as [|k ks] eqn:E.
  - apply NoDup_singleton.
  - rewrite <- E in Hnd |- *. apply NoDup_fmap_2; [|done].
    by intros p1 p2 [= ->].
Qed.

Lemma NoDup_product_id picked_userid n um sim rec :
  get_item_recommendations picked_userid n um sim = Ok rec →
  NoDup (product_id rec).
Proof.
  unfold get_item_recommendations. intros (seeds & _ & Hrec)%bind_Ok.
  apply bind_Ok in Hrec as (rec_items & Hloop & [= <-]). simpl.
  apply (rec_items_loop_NoDup _ _ _ _ Hloop). constructor.
Qed.

Lemma NoDup_frames um sim (ids : list Z) (ds : list recommendation) :
  NoDup ids →
  Forall2 (λ x d, get_item_recommendations x NUM_RECOMMENDATIONS um sim = Ok d)
    ids ds →
  NoDup (concat (explode <$> ds))
  ∧ ∀ row, row ∈ concat (explode <$> ds) → row.1.1 ∈ ids.
Proof.
  intros Hnd Hds. induction Hds as [|x d ids ds Hd Hds IH]; csimpl.
  - split; [constructor|]. by intros row ?%elem_of_nil.
  - apply NoDup_cons in Hnd as [Hx Hnd]. destruct (IH Hnd) as [IH1 IH2].
    assert (∀ row, row ∈ explode d → row.1.1 = x) as Hrows.
    { intros row [Hu _]%explode_rows.
      by rewrite Hu, (get_item_recommendations_user_id _ _ _ _ _ Hd). }
    split.
    + apply NoDup_app. split_and!; [|intros row Hrow Hrest|done].
      * apply NoDup_explode. by eapply NoDup_product_id.
      * apply Hx. rewrite <- (Hrows row Hrow). by apply IH2.
    + intros row [Hrow|Hrow]%elem_of_app.
      * rewrite (Hrows row Hrow). left.
      * right. by apply IH2.
Qed.

End BatchMore.

Section PipelineFacts.
Context {F : Type} `{Float64 F}.
Implicit Types (sim : DataFrame F) (um : DataFrame Z).

Lemma le1_pivot_cell (rows : list (Z * Z)) (p u : Z) :
  le1 (Build.pivot_cell rows p u) ↔ Build.group_count rows u p = 1.
Proof.
  unfold Build.pivot_cell.
  destruct (Build.group_count rows u p =? 0) eqn:E.
  - apply Nat.eqb_eq in E. simpl. split; [done|lia].
  - apply Nat.eqb_neq in E. unfold le1. rewrite bool_decide_spec. lia.
Qed.

Lemma count_le1_pivot (rows : list (Z * Z)) (p : Z) (us : list Z) :
  count_le1 (zip us (Build.pivot_cell rows p <$> us))
  = length (filter (λ u, Build.group_count rows u p = 1) us).
Proof.
  unfold count_le1. induction us as [|u us IH]; csimpl; [done|].
  destruct (decide (Build.group_count rows u p = 1)) as [Hone|Hne].
  - rewrite (filter_cons_True (λ c : Z * cell, le1 c.2))
      by (simpl; by apply le1_pivot_cell).
    rewrite (filter_cons_True (λ u, Build.group_count rows u p = 1)) by done.
    simpl. f_equal. apply IH.
  - rewrite (filter_cons_False (λ c : Z * cell, le1 c.2))
      by (simpl; by rewrite le1_pivot_cell).
    rewrite (filter_cons_False (λ u, Build.group_count rows u p = 1)) by done.
    apply IH.
Qed.

(** On the matrix built from raw events the pre-processing returns, and
    it keeps the items that more than two users have exactly one event
    with. *)
Lemma preprocess_generate (df : list Build.event) :
  ∃ processed,
    preprocess_user_item_matrix (Build.generate_user_item_matrix df)
    = Ok processed
    ∧ ∀ p, p ∈ index processed ↔
        2 < length (filter
                      (λ u, length (filter (λ r : Build.event,
                                              r = (Some u, Some p)) df) = 1)
                      (columns (Build.generate_user_item_matrix df))).
Proof.
  pose proof (matrix_labels df) as (_ & _ & Hnd & _ & Hidx & _ & Hlen & _).
  cbv zeta in *.
  destruct (preprocess_unfold _ Hnd (eq_sym Hlen)) as (prods & users & -> & Hprods & _).
  eexists. split; [reflexivity|]. intros p.
  change (index (fillna0 _))
    with (index (drop_rows prods (Build.generate_user_item_matrix df))).
  rewrite index_drop_rows, Hprods.
  assert (∀ row, (p, row) ∈ iterrows (Build.generate_user_item_matrix df) →
            count_le1 (zip (columns (Build.generate_user_item_matrix df)) row)
            = length (filter
                (λ u, length (filter (λ r : Build.event,
                                        r = (Some u, Some p)) df) = 1)
                (columns (Build.generate_user_item_matrix df)))) as Hcount.
  { intros row (i & Hi & Hrow)%elem_of_zip_lookup. simpl in *.
    rewrite list_lookup_fmap, Hi in Hrow. injection Hrow as <-.
    rewrite count_le1_pivot. f_equal. apply list_filter_iff. intros u.
    by rewrite group_count_keyed. }
  split.
  - intros [Hnot [row Hrow]]. apply Nat.nle_gt. intros Hle. apply Hnot.
    split; [by apply elem_of_zip_l in Hrow|].
    exists row. split; [done|]. by rewrite (Hcount row Hrow).
  - intros Hgt.
    assert (p ∈ index (Build.generate_user_item_matrix df)) as Hp.
    { destruct (filter _ (columns _)) as [|u l] eqn:E in Hgt; [simpl in Hgt; lia|].
      assert (u ∈ u :: l) as Hu by left. rewrite <- E in Hu.
      apply list_elem_of_filter in Hu as [Hone _].
      apply Hidx. exists u.
      destruct (filter _ df) as [|r l'] eqn:E'; [done|].
      assert (r ∈ r :: l') as Hr by left. rewrite <- E' in Hr.
      by apply list_elem_of_filter in Hr as [-> Hr]. }
    destruct (loc_index _ p (eq_sym Hlen) Hp) as [row Hrow].
    split; [|by eauto].
    intros [_ (row' & Hrow' & Hle)]. rewrite (Hcount row' Hrow') in Hle. lia.
Qed.

End PipelineFacts.

Section PipelineMore.
Context {F : Type} `{Float64 F}.
Implicit Types (sim : DataFrame F) (um : DataFrame Z).

Lemma getitem_loc2 {V} (m : DataFrame V) u p (c : V) :
  NoDup (columns m) → loc2 m p u = Ok c →
  ∃ col, getitem m u = Ok col ∧ (p, c) ∈ col.
Proof.
  intros Hcols (row & Hrow & (j & Hj & Hc)%elem_of_zip_lookup)%loc2_inv.
  unfold getitem. rewrite (index_of_NoDup _ _ _ Hcols Hj). simpl.
  eexists. split; [reflexivity|].
  apply list_elem_of_omap. exists (p, row). split; [done|]. simpl.
  by rewrite Hc.
Qed.

Lemma viewed_products_nonempty picked_userid n um (col : Series Z) (c : Z * Z) :
  getitem um picked_userid = Ok col → c ∈ col → c.2 ≠ 0%Z → (1 ≤ n)%Z →
  ∃ s seeds, viewed_products picked_userid n um = Ok (s :: seeds).
Proof.
  intros Hcol Hc Hnz Hn. unfold viewed_products. rewrite Hcol. simpl.
  assert (c ∈ series_sort_values_desc (filter (λ c : Z * Z, c.2 ≠ 0%Z) col))
    as Hin by (rewrite series_sort_values_desc_perm; by apply list_elem_of_filter).
  unfold slice_to. destruct (0 <=? n)%Z eqn:E; [|lia].
  destruct (series_sort_values_desc _) as [|s l]; [by apply elem_of_nil in Hin|].
  destruct (Z.to_nat n) as [|k] eqn:Ek; [lia|]. simpl. by eexists _, _.
Qed.

Lemma length_dict_set_ge {K V} `{EqDecision K} (d : list (K * V)) k v :
  length d ≤ length (dict_set d k v) ∧ 1 ≤ length (dict_set d k v).
Proof.
  induction d as [|[k' v'] d IH]; simpl; [lia|].
  destruct (decide (k' = k)); simpl; lia.
Qed.

Lemma rec_items_loop_grows sim (seeds : list Z) rec_items d :
  rec_items_loop sim seeds rec_items = Ok d → length rec_items ≤ length d.
Proof.
  revert rec_items. induction seeds as [|p seeds IH]; intros d0; simpl.
  - by intros [= <-].
  - intros (r & _ & Hloop)%bind_Ok. apply IH in Hloop.
    pose proof (length_dict_set_ge d0 r.1 (fround 5 r.2)). lia.
Qed.

(** A user with a seed gets at least one recommendation. *)
Lemma product_id_nonempty picked_userid n um sim rec s seeds :
  viewed_products picked_userid n um = Ok (s :: seeds) →
  get_item_recommendations picked_userid n um sim = Ok rec →
  product_id rec ≠ [].
Proof.
  intros Hseeds. unfold get_item_recommendations. rewrite Hseeds. simpl.
  intros (rec_items & Hloop & [= <-])%bind_Ok. simpl.
  apply bind_Ok in Hloop as (r & _ & Hloop).
  apply rec_items_loop_grows in Hloop.
  pose proof (length_dict_set_ge (@nil (Z * F)) r.1 (fround 5 r.2)) as [_ Hge].
  unfold keys. destruct rec_items; [simpl in Hloop; lia|done].
Qed.

(** With a single item there is no other item to recommend: a user with a
    seed makes [idxmax] fail on the empty series. *)
Lemma single_item_fails picked_userid n um sim (type : string) p s seeds :
  index um = [p] →
  generate_item_similarity_matrix um type = Ok sim →
  viewed_products picked_userid n um = Ok (s :: seeds) →
  get_item_recommendations picked_userid n um sim = Raise ValueError.
Proof.
  intros Hidx Hsim Hseeds.
  destruct (similarity_shape _ _ _ Hsim) as (Hi & Hc & Hl & _).
  assert (s.1 = p) as Hs.
  { assert (s.1 ∈ index um) as Hin
      by (apply (viewed_products_labels _ _ _ _ Hseeds); left).
    rewrite Hidx in Hin. by apply list_elem_of_singleton in Hin. }
  assert (values um ≠ []) as Hvals.
  { destruct (viewed_products_rows _ _ _ _ Hseeds s.1) as [row Hrow]; [left|].
    apply elem_of_zip_r in Hrow. intros Hnil. rewrite Hnil in Hrow.
    by apply elem_of_nil in Hrow. }
  unfold get_item_recommendations. rewrite Hseeds. simpl. rewrite Hs.
  unfold nearest_item, loc. rewrite Hi, Hc, Hidx. simpl.
  rewrite decide_True by done. simpl.
  destruct (values sim) as [|row rows] eqn:E.
  { simpl in Hl. destruct (values um); [done|simpl in Hl; lia]. }
  cbn [lookup list_lookup of_option mbind result_bind].
  match goal with |- context [idxmax ?l] => assert (l = []) as -> end; [|done].
  destruct row as [|v row]; [done|]. cbn [zip_with].
  by rewrite (filter_cons_False (λ c : Z * F, c.1 ≠ p)) by (simpl; auto).
Qed.

Lemma Forall2_elem_of_l {A B} (P : A → B → Prop) (l : list A) (k : list B) x :
  Forall2 P l k → x ∈ l → ∃ y, y ∈ k ∧ P x y.
Proof.
  induction 1 as [|a b l k Hab Hlk IH]; [by intros ?%elem_of_nil|].
  intros [->|Hx]%elem_of_cons; [exists b; split; [left|done]|].
  destruct (IH Hx) as (y & Hy & HP). exists y. split; [by right|done].
Qed.

Lemma Forall2_elem_of_r {A B} (P : A → B → Prop) (l : list A) (k : list B) y :
  Forall2 P l k → y ∈ k → ∃ x, x ∈ l ∧ P x y.
Proof.
  induction 1 as [|a b l k Hab Hlk IH]; [by intros ?%elem_of_nil|].
  intros [->|Hy]%elem_of_cons; [exists a; split; [left|done]|].
  destruct (IH Hy) as (x & Hx & HP). exists x. split; [by right|done].
Qed.

Lemma elem_of_concat {A} (x : A) (ls : list (list A)) :
  x ∈ concat ls ↔ ∃ l, x ∈ l ∧ l ∈ ls.
Proof.
  induction ls as [|l ls IH]; simpl.
  - split; [by intros ?%elem_of_nil|by intros (l & _ & ?%elem_of_nil)].
  - rewrite elem_of_app, IH. split.
    + intros [Hx|(l' & Hx & Hl')]; [exists l; split; [done|left]|].
      exists l'. split; [done|by right].
    + intros (l' & Hx & [->|Hl']%elem_of_cons); [by left|right; eauto].
Qed.

Lemma generate_allowed um (type : string) :
  type = "cosine" ∨ type = "jaccard" → index um ≠ [] → columns um ≠ [] →
  ∃ sim, generate_item_similarity_matrix (F:=F) um type = Ok sim.
Proof.
  intros Htype Hidx Hcols. unfold generate_item_similarity_matrix, check_array.
  destruct (index um) as [|p idx]; [done|].
  destruct (columns um) as [|u cols]; [done|].
  destruct Htype as [->| ->]; simpl; by eexists.
Qed.

Lemma generate_empty um (type : string) :
  type = "cosine" ∨ type = "jaccard" →
  index um = [] ∨ columns um = [] →
  generate_item_similarity_matrix (F:=F) um type = Raise ValueError.
Proof.
  intros Htype Hempty. unfold generate_item_similarity_matrix, check_array.
  destruct (index um) as [|p idx].
  - destruct Htype as [->| ->]; done.
  - destruct Hempty as [?| ->]; [done|]. destruct Htype as [->| ->]; done.
Qed.

(** When every user of a matrix with at least two items has a non-zero
    cell, the batch returns: every user gets recommendations, every row
    names an item, no row occurs twice. *)
Lemma batch_all_users um sim (type : string) :
  NoDup (index um) → NoDup (columns um) →
  length (index um) = length (values um) → 2 ≤ length (index um) →
  generate_item_similarity_matrix um type = Ok sim →
  (∀ u, u ∈ columns um → ∃ p c, loc2 um p u = Ok c ∧ c ≠ 0%Z) →
  ∃ final_df,
    generate_final_recommendation_df um sim = Ok final_df
    ∧ (∀ u, u ∈ columns um → ∃ k, (u, 1%Z, Some k) ∈ final_df)
    ∧ (∀ row, row ∈ final_df →
         row.1.1 ∈ columns um ∧ row.1.2 = 1%Z
         ∧ ∃ k, row.2 = Some k ∧ k ∈ index um)
    ∧ NoDup final_df.
Proof.
  intros Hidx Hcols Hlen H2 Hsim Hcells.
  destruct (similarity_shape _ _ _ Hsim) as (_ & Hc & _ & _ & _ & Hne & _).
  destruct (collect_dfs_all um sim (columns um) []) as (ds & Hds & Hcollect).
  { intros u Hu. by eapply get_item_recommendations_total. }
  unfold generate_final_recommendation_df. rewrite Hcollect. simpl.
  assert (∀ u d, u ∈ columns um →
            get_item_recommendations u NUM_RECOMMENDATIONS um sim = Ok d →
            user_id d = u ∧ type_ d = 1%Z ∧ product_id d ≠ []
            ∧ ∀ k, k ∈ product_id d → k ∈ index um) as Hrec.
  { intros u d Hu Hd. split_and!.
    - by eapply get_item_recommendations_user_id.
    - unfold get_item_recommendations in Hd.
      apply bind_Ok in Hd as (? & _ & Hd).
      by apply bind_Ok in Hd as (? & _ & [= <-]).
    - destruct (Hcells u Hu) as (p & c & Hloc & Hnz).
      destruct (getitem_loc2 um u p c Hcols Hloc) as (col & Hcol & Hin).
      destruct (viewed_products_nonempty u NUM_RECOMMENDATIONS um col (p, c)
                  Hcol Hin Hnz) as (s & seeds & Hseeds);
        [unfold NUM_RECOMMENDATIONS; lia|].
      by eapply product_id_nonempty.
    - intros k Hk. rewrite <- Hc. by eapply recommended_in_columns. }
  assert (pd_concat (explode <$> ds) = Ok (concat (explode <$> ds))) as ->.
  { destruct ds as [|d ds']; [|done].
    apply Forall2_nil_inv_r in Hds. by destruct Hne. }
  eexists. split; [reflexivity|]. split_and!.
  - intros u Hu. destruct (Forall2_elem_of_l _ _ _ _ Hds Hu) as (d & Hd & Hget).
    destruct (Hrec u d Hu Hget) as (Huid & Hty & Hnonempty & _).
    destruct (product_id d) as [|k ks] eqn:Ep; [done|].
    exists k. apply elem_of_concat. exists (explode d). split.
    + unfold explode. rewrite Ep, Huid, Hty. left.
    + by apply list_elem_of_fmap_2.
  - intros row (fr & Hrow & (d & -> & Hd)%list_elem_of_fmap)%elem_of_concat.
    destruct (Forall2_elem_of_r _ _ _ _ Hds Hd) as (u & Hu & Hget).
    destruct (Hrec u d Hu Hget) as (Huid & Hty & Hnonempty & Hitems).
    unfold explode in Hrow. destruct (product_id d) as [|k ks] eqn:Ep; [done|].
    apply list_elem_of_fmap in Hrow as (k' & -> & Hk'). simpl.
    split_and!; [by rewrite Huid|done|]. exists k'. split; [done|].
    by apply Hitems.
  - by apply (NoDup_frames um sim (columns um) ds Hcols Hds).
Qed.

End PipelineMore.

Section CollabMain.
Context {F : Type} `{Float64 F}.

(** The whole collaborative pipeline on raw events, for either metric:
    when at least two items survive the pruning it returns a frame without
    repeated rows in which every retained user has a recommendation and
    every row recommends a retained item to a retained user; with fewer
    than two items left it fails with [ValueError]. *)
Theorem collaborative_pipeline_outcome (rec_df_raw : list Build.event) (type : string) :
  type = "cosine" ∨ type = "jaccard" →
  ∃ processed,
    preprocess_user_item_matrix (Build.generate_user_item_matrix rec_df_raw)
    = Ok processed
    ∧ (2 ≤ length (index processed) →
       ∃ final_df,
         Main.final_recommendation_df_of_events (F:=F) rec_df_raw type
         = Ok final_df
         ∧ (∀ u, u ∈ columns processed → ∃ k, (u, 1%Z, Some k) ∈ final_df)
         ∧ (∀ row, row ∈ final_df →
              row.1.1 ∈ columns processed ∧ row.1.2 = 1%Z
              ∧ ∃ k, row.2 = Some k ∧ k ∈ index processed)
         ∧ NoDup final_df)
    ∧ (length (index processed) < 2 →
       Main.final_recommendation_df_of_events (F:=F) rec_df_raw type
       = Raise ValueError).
Proof.
  intros Htype.
  set (raw := Build.generate_user_item_matrix rec_df_raw).
  pose proof (matrix_labels rec_df_raw)
    as (_ & _ & Hidx & Hcols & _ & _ & Hlen & Hrows).
  pose proof (matrix_cells rec_df_raw) as (Hcell & Hge1 & _).
  cbv zeta in *. fold raw in Hidx, Hcols, Hlen, Hrows, Hcell, Hge1.
  destruct (preprocess_shape raw Hidx Hcols (conj Hlen Hrows))
    as (processed & Hpre & Hsubi & Hsubc & [Hplen Hprows] & Hcolchar & Hcellchar).
  exists processed. split; [done|].
  assert (NoDup (index processed)) as Hpidx
    by (by apply (sublist_NoDup _ (index raw))).
  assert (NoDup (columns processed)) as Hpcols
    by (by apply (sublist_NoDup _ (columns raw))).
  assert (∀ u, u ∈ columns processed →
            ∃ p c, p ∈ index processed ∧ loc2 processed p u = Ok c ∧ c ≠ 0%Z)
    as Hcells.
  { intros u Hu. destruct (proj1 (Hcolchar u) Hu) as (_ & p & v & Hp & Hraw).
    destruct (Hcellchar p u Hp Hu) as (c & Hraw' & Hproc).
    rewrite Hraw in Hraw'. injection Hraw' as <-.
    exists p, v. split_and!; [done..|].
    apply Hge1 in Hraw. lia. }
  assert (∀ u p s, index processed = [p] → u ∈ columns processed →
            generate_item_similarity_matrix (F:=F) processed type = Ok s →
            get_item_recommendations u NUM_RECOMMENDATIONS processed s
            = Raise ValueError) as Hsingle.
  { intros u p s Hone Hu Hs.
    destruct (Hcells u Hu) as (q & c & _ & Hloc & Hnz).
    destruct (getitem_loc2 processed u q c Hpcols Hloc) as (col & Hcol & Hin).
    destruct (viewed_products_nonempty u NUM_RECOMMENDATIONS processed col (q, c)
                Hcol Hin Hnz) as (s0 & seeds & Hseeds);
      [unfold NUM_RECOMMENDATIONS; lia|].
    by eapply single_item_fails. }
  unfold Main.final_recommendation_df_of_events. fold raw. rewrite Hpre. simpl.
  split.
  - intros H2.
    assert (columns processed ≠ []) as Hne.
    { assert (∃ p, p ∈ index processed) as [p Hp].
      { destruct (index processed) as [|p idx]; [simpl in H2; lia|].
        exists p. left. }
      destruct (preprocess_generate rec_df_raw) as (processed' & Hpre' & Hkept).
      fold raw in Hpre', Hkept. rewrite Hpre in Hpre'. injection Hpre' as <-.
      apply Hkept in Hp as Hgt.
      destruct (filter _ (columns raw)) as [|u l] eqn:E in Hgt;
        [simpl in Hgt; lia|].
      assert (u ∈ u :: l) as Hu by left. rewrite <- E in Hu.
      apply list_elem_of_filter in Hu as [Hone Hu].
      assert (p ∈ index raw) as Hpraw by (by eapply elem_of_sublist).
      pose proof (Hcell p u Hpraw Hu) as Hloc. cbv zeta in Hloc.
      rewrite Hone in Hloc. simpl in Hloc.
      assert (u ∈ columns processed) as Hin
        by (apply Hcolchar; split; [done|]; by exists p, 1%Z).
      intros Hnil. rewrite Hnil in Hin. by apply elem_of_nil in Hin. }
    destruct (generate_allowed processed type Htype) as [sim Hsim]; [|done|].
    { intros Hnil. rewrite Hnil in H2. simpl in H2. lia. }
    rewrite Hsim. simpl.
    destruct (batch_all_users processed sim type Hpidx Hpcols (eq_sym Hplen) H2 Hsim)
      as (final_df & Hfinal & Husers & Hrowsdf & Hnd).
    { intros u Hu. destruct (Hcells u Hu) as (p & c & _ & Hloc & Hnz). eauto. }
    exists final_df. by split_and!.
  - intros Hlt.
    destruct (index processed) as [|p [|q idx]] eqn:Ei; [| |simpl in Hlt; lia].
    + rewrite generate_empty; [done|done|by left].
    + destruct (columns processed) as [|u us] eqn:Ec.
      * rewrite generate_empty; [done|done|by right].
      * destruct (generate_allowed processed type Htype) as [sim Hsim];
          [by rewrite Ei|by rewrite Ec|].
        rewrite Hsim. simpl.
        apply (batch_first_fails processed sim u us ValueError Ec).
        apply (Hsingle u p sim); [done| |done]. left.
Qed.

End CollabMain.

Section RankingTheorems.
Context {F : Type} `{Float64 F}.
Implicit Types (sim : DataFrame F) (um : DataFrame Z).

(** Under the Jaccard metric every item of a rectangular matrix has the
    similarity [1 - 0] with itself: the zero diagonal of [squareform]. *)
Theorem jaccard_self_similarity um sim (a : Z) :
  generate_item_similarity_matrix um "jaccard" = Ok sim →
  length (index um) = length (values um) → a ∈ index um →
  loc2 sim a a = Ok (fsub f1 f0).
Proof.
  unfold generate_item_similarity_matrix. simpl.
  intros (arr & Harr & [= <-])%bind_Ok Hlen Ha.
  apply bind_Ok in Harr as (X & HX & [= <-]).
  assert (X = values um) as ->.
  { unfold check_array in HX. destruct (index um), (columns um); by simplify_eq. }
  rewrite loc2_square. destruct (index_of_elem_of a _ Ha) as [i Hi].
  rewrite Hi. simpl. unfold pairwise_distances_jaccard, squareform.
  rewrite at_fmap, at_gram.
  assert (i < length (values um)) as Hlt.
  { rewrite <- Hlen. apply index_of_lookup in Hi. by eapply lookup_lt_Some. }
  rewrite lookup_seq_lt by done. simpl.
  unfold square_entry. by rewrite decide_True.
Qed.

(** The Jaccard similarity frame depends on the matrix only through its
    labels and through which cells are non-zero: the counts play no role. *)
Theorem jaccard_ignores_counts um1 um2 :
  index um1 = index um2 → columns um1 = columns um2 →
  (λ row : list Z, (λ x : Z, bool_decide (x ≠ 0%Z)) <$> row) <$> values um1
  = (λ row : list Z, (λ x : Z, bool_decide (x ≠ 0%Z)) <$> row) <$> values um2 →
  generate_item_similarity_matrix (F:=F) um1 "jaccard"
  = generate_item_similarity_matrix (F:=F) um2 "jaccard".
Proof.
  intros Hidx Hcols Hbool. unfold generate_item_similarity_matrix, check_array.
  simpl. rewrite Hidx, Hcols.
  destruct (index um2) as [|p idx]; [done|].
  destruct (columns um2) as [|u cols]; [done|]. simpl.
  unfold pairwise_distances_jaccard. rewrite Hbool.
  assert (length (values um1) = length (values um2)) as ->; [|done].
  apply (f_equal length) in Hbool. by rewrite !length_fmap in Hbool.
Qed.

Lemma argmax_from_max (best : Z * F) (s : Series F) :
  (∀ x y, fltb x y = true → fltb y x = false) →
  (∀ x y z, fltb x y = false → fltb y z = false → fltb x z = false) →
  ∀ c, c ∈ best :: s → fltb (argmax_from best s).2 c.2 = false.
Proof.
  intros Hasym Hneg.
  assert (∀ x, fltb x x = false) as Hirr.
  { intros x. destruct (fltb x x) eqn:E; [|done]. by rewrite (Hasym x x E) in E. }
  revert best. induction s as [|x s IH]; intros best c Hc; simpl.
  - apply list_elem_of_singleton in Hc as ->. apply Hirr.
  - destruct (fltb best.2 x.2) eqn:E.
    + apply elem_of_cons in Hc as [->|Hc]; [|by apply IH].
      apply (Hneg _ x.2); [apply IH; left|by apply Hasym].
    + apply elem_of_cons in Hc as [->|[->|Hc]%elem_of_cons].
      * apply IH. left.
      * apply (Hneg _ best.2); [apply IH; left|done].
      * apply IH. by right.
Qed.

(** When [<] on scores is a strict weak order, the item found for a seed
    has the greatest similarity to the seed among all other items, and
    the score returned with it is that similarity. *)
Theorem nearest_item_is_maximal sim (product : Z) (r : Z * F) :
  (∀ x y, fltb x y = true → fltb y x = false) →
  (∀ x y z, fltb x y = false → fltb y z = false → fltb x z = false) →
  NoDup (columns sim) →
  nearest_item sim product = Ok r →
  ∃ series,
    loc sim product = Ok series
    ∧ r ∈ series
    ∧ ∀ c, c ∈ series → c.1 ≠ product → fltb r.2 c.2 = false.
Proof.
  intros Hasym Hneg Hcols. unfold nearest_item.
  intros (series & Hseries & Hr)%bind_Ok. exists series. split; [done|].
  apply bind_Ok in Hr as (k & Hk & Hr).
  apply bind_Ok in Hr as (score & Hscore & [= <-]).
  destruct (filter _ series) as [|x s] eqn:E in Hk; [done|].
  simpl in Hk. injection Hk as <-.
  pose proof (argmax_from_elem_of x s) as Hmem. rewrite <- E in Hmem.
  apply list_elem_of_filter in Hmem as [_ Hmem].
  assert (score = (argmax_from x s).2) as ->.
  { destruct (loc_Ok_inv _ _ _ Hseries) as (i & row & Hi & Hrow & ->).
    unfold loc2 in Hscore. rewrite Hi in Hscore. simpl in Hscore.
    destruct (index_of _ (columns sim)) as [j|] eqn:Hj; [|done].
    simpl in Hscore. rewrite Hrow in Hscore. simpl in Hscore.
    destruct (row !! j) as [v|] eqn:Hv; [|done]. injection Hscore as <-.
    destruct (argmax_from x s) as [k v']. simpl in *.
    apply elem_of_zip_lookup in Hmem as (j' & Hj' & Hv').
    apply index_of_lookup in Hj.
    rewrite (NoDup_lookup _ _ _ _ Hcols Hj Hj') in Hv. congruence. }
  split; [by destruct (argmax_from x s)|].
  intros c Hc Hne. simpl. apply argmax_from_max; [done..|].
  rewrite <- E. by apply list_elem_of_filter.
Qed.

(** The seeds are a top segment of the user's non-zero cells: together
    with the cells left out they make up all of them, and no cell left
    out has a greater count than a seed. *)
Theorem seeds_are_top_counts (picked_userid n : Z) um (seeds col : Series Z) :
  getitem um picked_userid = Ok col →
  viewed_products picked_userid n um = Ok seeds →
  ∃ rest,
    seeds ++ rest ≡ₚ filter (λ c : Z * Z, c.2 ≠ 0%Z) col
    ∧ ∀ s c, s ∈ seeds → c ∈ rest → (c.2 ≤ s.2)%Z.
Proof.
  intros Hcol. unfold viewed_products. rewrite Hcol. simpl. intros [= <-].
  set (l := series_sort_values_desc (filter (λ c : Z * Z, c.2 ≠ 0%Z) col)).
  assert (∀ k, ∃ rest,
            take k l ++ rest ≡ₚ filter (λ c : Z * Z, c.2 ≠ 0%Z) col
            ∧ ∀ s c, s ∈ take k l → c ∈ rest → (c.2 ≤ s.2)%Z) as Hk.
  { intros k. exists (drop k l). split.
    - rewrite take_drop. apply series_sort_values_desc_perm.
    - intros s c Hs Hc.
      assert (StronglySorted (λ a b : Z * Z, (b.2 ≤ a.2)%Z) (take k l ++ drop k l))
        as Hsorted.
      { rewrite take_drop. apply Sorted.Sorted_StronglySorted.
        - intros a b c' Hab Hbc. lia.
        - apply series_sort_values_desc_Sorted. }
      by apply (StronglySorted_app_1_elem_of _ _ _ s c Hsorted). }
  unfold slice_to. destruct (0 <=? n)%Z; apply Hk.
Qed.

(** A user who is not a column of the matrix raises [KeyError]. *)
Theorem unknown_user_raises_KeyError (picked_userid n : Z) um sim :
  picked_userid ∉ columns um →
  get_item_recommendations picked_userid n um sim = Raise KeyError.
Proof.
  intros Hnot. unfold get_item_recommendations, viewed_products, getitem.
  destruct (index_of picked_userid (columns um)) as [j|] eqn:E; [|done].
  apply index_of_lookup, list_elem_of_lookup_2 in E. done.
Qed.

(** A user whose column holds no non-zero cell, or any user when zero
    recommendations are asked for, gets the empty list whatever the
    similarity frame is, and its frame in the batch is one row with a
    missing product. *)
Theorem no_seed_gives_missing_row (picked_userid n : Z) um sim (col : Series Z) :
  getitem um picked_userid = Ok col →
  (∀ c, c ∈ col → c.2 = 0%Z) ∨ n = 0%Z →
  get_item_recommendations picked_userid n um sim
  = Ok (mkRecommendation picked_userid 1 [])
  ∧ explode (mkRecommendation picked_userid 1 []) = [(picked_userid, 1%Z, None)].
Proof.
  intros Hcol Hcase. split; [|done].
  unfold get_item_recommendations, viewed_products. rewrite Hcol. simpl.
  assert (slice_to n (series_sort_values_desc
                        (filter (λ c : Z * Z, c.2 ≠ 0%Z) col)) = []) as ->; [|done].
  destruct Hcase as [Hzero| ->]; [|reflexivity].
  assert (filter (λ c : Z * Z, c.2 ≠ 0%Z) col = []) as ->.
  { destruct (filter _ col) as [|c l] eqn:E; [done|].
    assert (c ∈ c :: l) as Hc by left. rewrite <- E in Hc.
    apply list_elem_of_filter in Hc as [Hne Hc]. by destruct (Hne (Hzero c Hc)). }
  unfold slice_to. simpl. destruct (0 <=? n)%Z; by rewrite ?take_nil.
Qed.

(** The batch returns exactly when there is a first user and the
    recommendations for that user succeed; otherwise [pd.concat] raises
    [ValueError] on the empty list of frames. *)
Theorem batch_returns_iff_first_user_succeeds um sim :
  ((∃ final_df, generate_final_recommendation_df um sim = Ok final_df) ↔
   ∃ u us rec, columns um = u :: us
               ∧ get_item_recommendations u NUM_RECOMMENDATIONS um sim = Ok rec)
  ∧ ((∀ final_df, generate_final_recommendation_df um sim ≠ Ok final_df) →
     generate_final_recommendation_df um sim = Raise ValueError).
Proof.
  assert (∀ u us rec, columns um = u :: us →
            get_item_recommendations u NUM_RECOMMENDATIONS um sim = Ok rec →
            ∃ final_df, generate_final_recommendation_df um sim = Ok final_df)
    as Hok.
  { intros u us rec Hc Hrec. unfold generate_final_recommendation_df.
    rewrite Hc. simpl. rewrite Hrec.
    destruct (collect_dfs_prefix um sim us [explode rec])
      as (k & ds & _ & -> & _).
    simpl. by eexists. }
  split; [split|].
  - intros [final_df Hfinal]. destruct (columns um) as [|u us] eqn:Hc.
    + by rewrite batch_no_users in Hfinal.
    + destruct (get_item_recommendations u NUM_RECOMMENDATIONS um sim)
        as [rec|e] eqn:Hrec; [by exists u, us, rec|].
      by rewrite (batch_first_fails um sim u us e Hc Hrec) in Hfinal.
  - intros (u & us & rec & Hc & Hrec). by eapply Hok.
  - intros Hnone. destruct (columns um) as [|u us] eqn:Hc.
    + by apply batch_no_users.
    + destruct (get_item_recommendations u NUM_RECOMMENDATIONS um sim)
        as [rec|e] eqn:Hrec; [|by eapply batch_first_fails].
      destruct (Hok u us rec eq_refl Hrec) as [final_df Hfinal].
      by destruct (Hnone final_df).
Qed.


End RankingTheorems.

(** ** Further properties: transactions and their encoding *)

Section TransactionFacts.
Import Transactions.
Implicit Types (df : list line) (o : Z).

Lemma filter_order_dropna_all df o (P : line → Prop) `{∀ r, Decision (P r)} :
  (∀ r, P r → r.1 = Some o) →
  filter P (dropna_all df) = filter P df.
Proof.
  intros HP. unfold dropna_all. rewrite list_filter_filter.
  apply list_filter_iff. intros r. split; [by intros [? _]|].
  intros Hr. split; [done|]. intros [Hnone _]. by rewrite (HP r Hr) in Hnone.
Qed.

Lemma elem_of_orders df o : o ∈ omap fst df ↔ ∃ p, (Some o, p) ∈ df.
Proof.
  rewrite list_elem_of_omap. split.
  - intros ([o' p] & Hin & Ho). simpl in Ho. subst o'. by exists p.
  - intros [p Hin]. by exists (Some o, p).
Qed.

Lemma elem_of_orders_filter df o :
  o ∈ omap fst df ↔ filter (λ r : line, r.1 = Some o) df ≠ [].
Proof.
  rewrite elem_of_orders. split.
  - intros [p Hin] Hnil.
    by apply (filter_nil_not_elem_of _ _ (Some o, p) Hnil).
  - intros Hne. destruct (filter _ df) as [|[o' p] l] eqn:E; [done|].
    assert ((o', p) ∈ filter (λ r : line, r.1 = Some o) df) as Hin
      by (rewrite E; left).
    apply list_elem_of_filter in Hin as [Ho Hin]. simpl in Ho. subst o'.
    by exists p.
Qed.

Lemma filter_order_left_only df (orders : list Z) o :
  filter (λ r : line, r.1 = Some o) (left_only df orders)
  = if decide (o ∈ orders) then [] else filter (λ r : line, r.1 = Some o) df.
Proof.
  unfold left_only. rewrite list_filter_filter. destruct (decide (o ∈ orders)).
  - destruct (filter _ df) as [|r l] eqn:E; [done|].
    assert (r ∈ r :: l) as Hr by left. rewrite <- E in Hr.
    apply list_elem_of_filter in Hr as [[Ho Hkeep] _].
    rewrite Ho in Hkeep. simpl in Hkeep. by apply bool_decide_unpack in Hkeep.
  - apply list_filter_iff. intros r. split; [by intros [? _]|].
    intros Ho. split; [done|]. rewrite Ho. simpl. by apply bool_decide_pack.
Qed.

(** The orders [pre_process] returns, with their product lists. *)
Lemma pre_process_spec df (count_x : Z) :
  StronglySorted Z.lt (pre_process df count_x).*1
  ∧ ∀ o t, (o, t) ∈ pre_process df count_x ↔
      (∃ p, (Some o, p) ∈ df)
      ∧ (count_x ≤ Z.of_nat (length (filter (λ r : line, r.1 = Some o ∧ r.2 ≠ None)
                                       df)))%Z
      ∧ t = (filter (λ r : line, r.1 = Some o) df).*2.
Proof.
  unfold pre_process, group_products. split.
  - rewrite <- list_fmap_compose.
    rewrite (list_fmap_ext _ id _ (λ _ _ _, eq_refl)), list_fmap_id.
    apply sorted_unique_Sorted.
  - intros o t.
    set (less := orders_with_less_than_x_products (dropna_all df) count_x).
    assert (o ∈ less ↔
              (∃ p, (Some o, p) ∈ df)
              ∧ (Z.of_nat (length (filter (λ r : line, r.1 = Some o ∧ r.2 ≠ None)
                                     df)) < count_x)%Z) as Hless.
    { unfold less, orders_with_less_than_x_products, count_product_per_order.
      rewrite list_elem_of_fmap. split.
      - intros ([o' c] & -> & [Hlt Hin]%list_elem_of_filter). simpl in *.
        apply list_elem_of_fmap in Hin as (o'' & [= -> ->] & Hin).
        rewrite sorted_unique_elem_of, elem_of_orders_filter in Hin.
        rewrite (filter_order_dropna_all df o'') in Hlt by (by intros r [? _]).
        split; [|done]. apply elem_of_orders.
        apply elem_of_orders_filter.
        by rewrite (filter_order_dropna_all df o'') in Hin.
      - intros [Ho Hlt].
        exists (o, length (filter (λ r : line, r.1 = Some o ∧ r.2 ≠ None)
                             (dropna_all df))).
        split; [done|].
        apply list_elem_of_filter. split.
        + simpl. by rewrite (filter_order_dropna_all df o) by (by intros r [? _]).
        + apply list_elem_of_fmap. exists o. split; [done|].
          apply sorted_unique_elem_of, elem_of_orders_filter.
          rewrite (filter_order_dropna_all df o) by done.
          by apply elem_of_orders_filter, elem_of_orders. }
    rewrite list_elem_of_fmap. split.
    + intros (o' & [= -> ->] & Hin).
      rewrite sorted_unique_elem_of, elem_of_orders_filter in Hin.
      rewrite filter_order_left_only in Hin |- *.
      destruct (decide (o' ∈ less)) as [|Hnot]; [done|].
      rewrite (filter_order_dropna_all df o') in Hin |- * by done.
      apply elem_of_orders_filter, elem_of_orders in Hin.
      split_and!; [done| |done].
      apply Z.le_ngt. intros Hlt. apply Hnot, Hless. done.
    + intros (Ho & Hge & ->). exists o.
      assert (o ∉ less) as Hnot by (intros [_ Hlt]%Hless; lia).
      rewrite filter_order_left_only, decide_False by done.
      rewrite (filter_order_dropna_all df o) by done. split; [done|].
      apply sorted_unique_elem_of, elem_of_orders_filter.
      rewrite filter_order_left_only, decide_False by done.
      rewrite (filter_order_dropna_all df o) by done.
      by apply elem_of_orders_filter, elem_of_orders.
Qed.

Lemma decode_encode_row (columns_ : list Z) (f : Z → bool) :
  decode_row columns_ (f <$> columns_) = filter (λ c, f c) columns_.
Proof.
  unfold decode_row. induction columns_ as [|c cs IH]; csimpl; [done|].
  rewrite (filter_cons (λ c : Z * bool, c.2)), (filter_cons (λ c, f c)). simpl.
  destruct (f c); simpl; rewrite <- IH; done.
Qed.

End TransactionFacts.

(** ** Further properties: the final frame of the itemset recommender *)

Section FinalFrameFacts.
Implicit Types (table : list (Z * list Z)) (id : Z)
  (processed_results : list itemset_row).

Lemma stack_elem_of table id t (r : Z) :
  (id, t) ∈ table → r ∈ t → (id, Some r) ∈ stack table.
Proof.
  intros Hin [j Hj]%list_elem_of_lookup. unfold stack.
  apply list_elem_of_bind. exists j. split.
  - apply list_elem_of_fmap. exists (id, t). simpl. by rewrite Hj.
  - apply elem_of_seq. split; [lia|]. simpl.
    apply lookup_lt_Some in Hj. apply Nat.lt_le_trans with (length t); [done|].
    unfold width. apply max_list_elem_of_le.
    by apply (list_elem_of_fmap_2 (λ r : Z * list Z, length r.2) _ (id, t)).
Qed.

Lemma elem_of_dropna (l : list (Z * option Z)) id (r : Z) :
  (id, r) ∈ dropna l ↔ (id, Some r) ∈ l.
Proof.
  unfold dropna. rewrite list_elem_of_omap. split.
  - intros ([id' [r'|]] & Hin & Hsome); simpl in Hsome; [|done].
    by injection Hsome as -> ->.
  - intros Hin. by exists (id, Some r).
Qed.

Lemma elem_of_final_iff table id (r : Z) :
  (id, r) ∈ dropna (sort_by_product_id (stack table)) ↔
  ∃ t, (id, t) ∈ table ∧ r ∈ t.
Proof.
  rewrite elem_of_dropna, sort_by_product_id_perm. split.
  - apply elem_of_stack.
  - intros (t & Hin & Hr). by apply (stack_elem_of table id t).
Qed.

Lemma insert_by_product_id_HdRel (a x : Z * option Z) l :
  (a.1 ≤ x.1)%Z → HdRel (λ a b : Z * option Z, (a.1 ≤ b.1)%Z) a l →
  HdRel (λ a b : Z * option Z, (a.1 ≤ b.1)%Z) a (insert_by_product_id x l).
Proof.
  intros Hax Hl. destruct l as [|y l]; simpl; [by constructor|].
  destruct (y.1 <? x.1)%Z; constructor; [|done]. by inversion Hl.
Qed.

Lemma insert_by_product_id_Sorted (x : Z * option Z) l :
  Sorted (λ a b : Z * option Z, (a.1 ≤ b.1)%Z) l →
  Sorted (λ a b : Z * option Z, (a.1 ≤ b.1)%Z) (insert_by_product_id x l).
Proof.
  induction l as [|y l IH]; simpl; intros Hs.
  - by repeat constructor.
  - destruct (y.1 <? x.1)%Z eqn:E.
    + apply Sorted_inv in Hs as [Hs Hhd]. constructor; [by apply IH|].
      apply insert_by_product_id_HdRel; [|done]. apply Z.ltb_lt in E. lia.
    + constructor; [done|]. constructor. apply Z.ltb_ge in E. lia.
Qed.

Lemma sort_by_product_id_Sorted (l : list (Z * option Z)) :
  StronglySorted (λ a b : Z * option Z, (a.1 ≤ b.1)%Z) (sort_by_product_id l).
Proof.
  apply Sorted_StronglySorted.
  - intros a b c. simpl. lia.
  - induction l as [|x l IH]; simpl; [constructor|].
    by apply insert_by_product_id_Sorted.
Qed.

Lemma dropna_Sorted (l : list (Z * option Z)) :
  StronglySorted (λ a b : Z * option Z, (a.1 ≤ b.1)%Z) l →
  StronglySorted (λ a b : Z * Z, (a.1 ≤ b.1)%Z) (dropna l).
Proof.
  unfold dropna. induction 1 as [|[id o] l Hs IH Hall]; csimpl; [constructor|].
  destruct o as [r|]; simpl; [|done]. constructor; [done|].
  apply Forall_forall. intros [id' r'] Hin.
  apply (elem_of_dropna l) in Hin.
  by apply (proj1 (Forall_forall _ _) Hall) in Hin.
Qed.

Lemma dropna_bind {A} (f : A → list (Z * option Z)) (l : list A) :
  dropna (l ≫= f) = l ≫= (λ x, dropna (f x)).
Proof.
  unfold dropna. induction l as [|x l IH]; csimpl; [done|].
  by rewrite omap_app, IH.
Qed.

Lemma NoDup_column table (j : nat) :
  NoDup table.*1 →
  NoDup (dropna ((λ r : Z * list Z, (r.1, r.2 !! j)) <$> table)).
Proof.
  unfold dropna. induction table as [|[id t] table IH]; csimpl; [constructor|].
  intros [Hid Hnd]%NoDup_cons. destruct (t !! j) as [r|]; simpl; [|by apply IH].
  constructor; [|by apply IH].
  intros ([id' o] & Hin & Hsome)%list_elem_of_omap.
  apply list_elem_of_fmap in Hin as ([id'' t'] & [= -> ->] & Hin).
  simpl in Hsome. destruct (t' !! j); [|done]. injection Hsome as -> _.
  apply Hid. by apply (list_elem_of_fmap_2 fst _ (id, t')).
Qed.

(** The stacked rows are pairwise different when the rows of the table
    have distinct keys and no member twice. *)
Lemma NoDup_final table :
  NoDup table.*1 → (∀ id t, (id, t) ∈ table → NoDup t) →
  NoDup (dropna (sort_by_product_id (stack table))).
Proof.
  intros Hkeys Hrows.
  assert (dropna (sort_by_product_id (stack table)) ≡ₚ dropna (stack table))
    as -> by (unfold dropna; by rewrite sort_by_product_id_perm).
  unfold stack. rewrite dropna_bind. apply NoDup_bind.
  - intros j1 j2 [id r] _ _ H1 H2.
    apply elem_of_dropna, list_elem_of_fmap in H1 as ([id1 t1] & [= -> Hr1] & Hin1).
    apply elem_of_dropna, list_elem_of_fmap in H2 as ([id2 t2] & [= -> Hr2] & Hin2).
    simpl in *.
    assert (t1 = t2) as <- by (by apply (NoDup_fst_functional table id2)).
    by apply (NoDup_lookup t1 j1 j2 r (Hrows _ _ Hin1)).
  - intros j _. by apply NoDup_column.
  - apply NoDup_seq.
Qed.

(** A candidate outside every itemset stops the loop with [KeyError]. *)
Lemma recommended_set_fail processed_results id :
  id ∉ product_id_set processed_results →
  recommended_set processed_results id = Raise KeyError.
Proof.
  intros Hid. unfold recommended_set. rewrite decide_False; [done|].
  intros (X & HX & HidX)%elem_of_union_list. apply Hid.
  apply elem_of_top_n in HX as (_ & r & Hr & <-).
  apply elem_of_union_list. exists (itemsets r). split; [|done].
  by apply list_elem_of_fmap_2.
Qed.

Lemma build_dic_fail processed_results (ids : list Z) dic :
  ¬ Forall (λ id, id ∈ product_id_set processed_results) ids →
  build_dic processed_results ids dic = Raise KeyError.
Proof.
  revert dic. induction ids as [|id rest IH]; intros dic Hnot; simpl.
  - destruct Hnot. constructor.
  - destruct (decide (id ∈ product_id_set processed_results)) as [Hid|Hid].
    + unfold recommended_set at 1.
      rewrite decide_True by (by apply candidate_in_union). simpl.
      apply IH. intros Hall. apply Hnot. by constructor.
    + by rewrite recommended_set_fail.
Qed.

(** The rows handed to the frame constructor. *)
Lemma final_rows processed_results (ids : list Z) dic :
  build_dic processed_results ids [] = Ok dic →
  NoDup (dict_rows dic).*1
  ∧ (∀ id t, (id, t) ∈ dict_rows dic →
       ∃ s, recommended_set processed_results id = Ok s ∧ t = elements s)
  ∧ (∀ id, id ∈ ids → ∃ t, (id, t) ∈ dict_rows dic).
Proof.
  intros Hb. destruct (final_entries _ _ _ Hb) as (Hnd & Hentries & Hkeys).
  unfold dict_rows. split_and!.
  - by rewrite <- list_fmap_compose.
  - intros id t ([id' s] & [= -> ->] & Hin)%list_elem_of_fmap.
    exists s. split; [by apply Hentries|done].
  - intros id (s & Hin)%Hkeys. exists (elements s).
    by apply (list_elem_of_fmap_2 (λ kv : Z * gset Z, (kv.1, elements kv.2))
                _ (id, s)).
Qed.

(** The content of the final frame when the ids are floats. *)
Lemma final_dataframe_rows processed_results (ids : list Z) df :
  ids_exact processed_results →
  generate_final_dataframe processed_results ids = Ok df →
  ∀ id r, (id, r) ∈ df ↔
    id ∈ ids ∧ r ≠ id ∧ ∃ X, X ∈ top_n processed_results id ∧ r ∈ X.
Proof.
  intros Hexact. unfold generate_final_dataframe.
  destruct (build_dic processed_results ids []) as [dic|e] eqn:Hb; [|done].
  simpl. intros [= <-] id r.
  rewrite (final_frame_exact _ _ _ Hexact Hb).
  destruct (final_rows _ _ _ Hb) as (Hnd & Hentries & Hkeys).
  rewrite elem_of_final_iff. split.
  - intros (t & Hin & Hr).
    destruct (Hentries _ _ Hin) as (s & [-> Hid]%recommended_set_Ok & ->).
    apply elem_of_elements, elem_of_difference in Hr as [Hr Hne].
    split_and!.
    + assert (id ∈ keys dic) as Hk.
      { unfold dict_rows in Hin.
        apply list_elem_of_fmap in Hin as ([id' s] & [= -> _] & Hin).
        by apply (list_elem_of_fmap_2 fst _ (id', s)). }
      apply (build_dic_keys _ _ _ _ Hb) in Hk as [Hk|Hk]; [|done].
      by apply elem_of_nil in Hk.
    + intros ->. apply Hne. by apply elem_of_singleton.
    + by apply elem_of_union_list in Hr.
  - intros (Hid & Hne & X & HX & Hr).
    destruct (Hkeys _ Hid) as [t Hin]. exists t. split; [done|].
    destruct (Hentries _ _ Hin) as (s & [-> _]%recommended_set_Ok & ->).
    apply elem_of_elements, elem_of_difference. split.
    + apply elem_of_union_list. eauto.
    + by intros ->%elem_of_singleton.
Qed.

End FinalFrameFacts.

(** ** Further properties: selection of itemsets, the write loop *)

Section SelectionFacts.
Implicit Types (processed_results : list itemset_row) (id : Z).

Lemma before_false (a b : itemset_row) :
  before b a = false ↔
  (support b < support a)%Q ∨ ((support b == support a)%Q ∧ len b ≤ len a).
Proof.
  unfold before. destruct (support b ?= support a)%Q eqn:E.
  - apply Qeq_alt in E. rewrite Nat.ltb_ge. split; [by right|].
    intros [Hlt|[_ ?]]; [|done]. rewrite E in Hlt. by apply Qlt_irrefl in Hlt.
  - apply Qlt_alt in E. split; [by left|done].
  - apply Qgt_alt in E. split; [done|].
    intros [Hlt|[Heq _]].
    + exfalso. apply (Qlt_irrefl (support a)).
      by apply Qlt_trans with (support b).
    + rewrite Heq in E. by apply Qlt_irrefl in E.
Qed.

Lemma before_asym (a b : itemset_row) : before a b = true → before b a = false.
Proof.
  unfold before. rewrite <- (Qcompare_antisym (support a) (support b)).
  destruct (support a ?= support b)%Q; simpl; [|done..].
  rewrite Nat.ltb_lt, Nat.ltb_ge. lia.
Qed.

Lemma before_false_trans (a b c : itemset_row) :
  before b a = false → before c b = false → before c a = false.
Proof.
  rewrite !before_false. intros [H1|[H1 L1]] [H2|[H2 L2]].
  - left. by apply Qlt_trans with (support b).
  - left. by rewrite H2.
  - left. by rewrite <- H1.
  - right. split; [by rewrite H2|lia].
Qed.

Lemma insert_row_HdRel (a x : itemset_row) l :
  before x a = false → HdRel (λ a b, before b a = false) a l →
  HdRel (λ a b, before b a = false) a (insert_row x l).
Proof.
  intros Hax Hl. destruct l as [|y l]; simpl; [by constructor|].
  destruct (before y x); constructor; [|done]. by inversion Hl.
Qed.

Lemma insert_row_Sorted (x : itemset_row) l :
  Sorted (λ a b, before b a = false) l →
  Sorted (λ a b, before b a = false) (insert_row x l).
Proof.
  induction l as [|y l IH]; simpl; intros Hs.
  - by repeat constructor.
  - destruct (before y x) eqn:E.
    + apply Sorted_inv in Hs as [Hs Hhd]. constructor; [by apply IH|].
      apply insert_row_HdRel; [|done]. by apply before_asym.
    + constructor; [done|]. by constructor.
Qed.

Lemma sort_values_desc_Sorted (l : list itemset_row) :
  StronglySorted (λ a b, before b a = false) (sort_values_desc l).
Proof.
  apply Sorted_StronglySorted.
  - intros a b c. apply before_false_trans.
  - induction l as [|x l IH]; simpl; [constructor|].
    by apply insert_row_Sorted.
Qed.

Lemma StronglySorted_take_drop {A} (R : A → A → Prop) (l : list A) (n : nat) a b :
  StronglySorted R l → a ∈ take n l → b ∈ drop n l → R a b.
Proof.
  intros Hs. revert n. induction Hs as [|x l Hs IH Hall]; intros n.
  - rewrite take_nil. by intros ?%elem_of_nil.
  - destruct n as [|n]; simpl; [by intros ?%elem_of_nil|].
    intros [->|Ha]%elem_of_cons Hb; [|by apply (IH n)].
    apply (proj1 (Forall_forall _ _) Hall).
    by apply (subseteq_drop n l).
Qed.

(** With at most three itemsets around a candidate all of them are
    selected. *)
Lemma top_n_all processed_results id (X : gset Z) :
  length (filter (λ r, id ∈ itemsets r) processed_results) ≤ 3 →
  X ∈ top_n processed_results id ↔
  ∃ r, r ∈ processed_results ∧ id ∈ itemsets r ∧ itemsets r = X.
Proof.
  intros Hlen. unfold top_n.
  rewrite take_ge
    by (by rewrite (Permutation_length (sort_values_desc_perm _))).
  rewrite list_elem_of_fmap. split.
  - intros (r & -> & Hr). rewrite sort_values_desc_perm in Hr.
    apply list_elem_of_filter in Hr as [? ?]. eauto.
  - intros (r & Hr & Hid & <-). exists r. split; [done|].
    rewrite sort_values_desc_perm. by apply list_elem_of_filter.
Qed.

End SelectionFacts.

(** ** Further theorems: the itemset recommender *)

Section ItemsetTheorems.
Import Transactions.
Implicit Types (processed_results : list itemset_row) (id : Z).

Lemma length_filter_and_le {A} (P Q : A → Prop) `{∀ x, Decision (P x)}
    `{∀ x, Decision (Q x)} (l : list A) :
  length (filter (λ x, P x ∧ Q x) l) ≤ length (filter P l).
Proof.
  induction l as [|x l IH]; [done|].
  rewrite (filter_cons (λ x, P x ∧ Q x)), (filter_cons P).
  destruct (decide (P x ∧ Q x)) as [[HP _]|Hnot].
  - rewrite decide_True by done. simpl. lia.
  - destruct (decide (P x)); simpl; lia.
Qed.

(** [pre_process] returns the order ids in ascending order without
    repetition. An order is returned exactly when it has a row and at least
    [count_x] of its rows hold a product; it comes with the products of all
    its rows in row order, so its transaction has at least [count_x]
    entries. Rows without an order id belong to no transaction. *)
Theorem pre_process_keeps_large_orders (df : list line) (count_x : Z) :
  StronglySorted Z.lt (pre_process df count_x).*1
  ∧ (∀ o t, (o, t) ∈ pre_process df count_x ↔
       (∃ p, (Some o, p) ∈ df)
       ∧ (count_x ≤ Z.of_nat (length (filter (λ r : line, r.1 = Some o ∧ r.2 ≠ None)
                                        df)))%Z
       ∧ t = (filter (λ r : line, r.1 = Some o) df).*2)
  ∧ (∀ o t, (o, t) ∈ pre_process df count_x → (count_x ≤ Z.of_nat (length t))%Z).
Proof.
  destruct (pre_process_spec df count_x) as [Hsorted Hrows].
  split_and!; [done..|].
  intros o t (_ & Hge & ->)%Hrows. rewrite length_fmap.
  pose proof (length_filter_and_le (λ r : line, r.1 = Some o)
                (λ r : line, r.2 ≠ None) df).
  lia.
Qed.

Lemma encode_rows (columns_ : list Z) (l : list (list Z)) :
  (∀ t c, t ∈ l → c ∈ t → c ∈ columns_) →
  Forall2 (λ (t : list Z) (row : list bool),
             length row = length columns_
             ∧ ∀ c, c ∈ decode_row columns_ row ↔ c ∈ t)
    l ((λ t : list Z, (λ c, bool_decide (c ∈ t)) <$> columns_) <$> l).
Proof.
  induction l as [|t l IH]; intros Hcols; csimpl; constructor.
  - split; [by rewrite length_fmap|]. intros c.
    rewrite (decode_encode_row columns_ (λ c, bool_decide (c ∈ t))).
    rewrite list_elem_of_filter. split.
    + intros [Hc _]. by apply bool_decide_unpack in Hc.
    + intros Hc. split; [by apply bool_decide_pack|].
      apply (Hcols t); [left|done].
  - apply IH. intros t' c Ht'. apply Hcols. by right.
Qed.

(** The encoded frame has one column per distinct item, in ascending
    order, and one row per transaction, as long as the column list; the
    items a row marks are exactly the items of its transaction, so the
    transactions can be read back from the frame as sets. *)
Theorem encode_transactions_round_trip (transaction_list : list (list Z)) :
  StronglySorted Z.lt (encode_transactions transaction_list).1
  ∧ (∀ c, c ∈ (encode_transactions transaction_list).1 ↔
          ∃ t, t ∈ transaction_list ∧ c ∈ t)
  ∧ Forall2 (λ (t : list Z) (row : list bool),
               length row = length (encode_transactions transaction_list).1
               ∧ ∀ c, c ∈ decode_row (encode_transactions transaction_list).1 row
                      ↔ c ∈ t)
      transaction_list (encode_transactions transaction_list).2.
Proof.
  unfold encode_transactions. simpl.
  assert (∀ c, c ∈ sorted_unique (concat transaction_list) ↔
               ∃ t, t ∈ transaction_list ∧ c ∈ t) as Hcols.
  { intros c. rewrite sorted_unique_elem_of, elem_of_concat.
    split; intros (t & ? & ?); eauto. }
  split_and!; [apply sorted_unique_Sorted|done|].
  apply encode_rows. intros t c Ht Hc. apply Hcols. eauto.
Qed.

(** For a candidate the itemsets containing it are ranked by support,
    then by length, both descending, and the first three are selected: no
    itemset left out has a greater support than a selected one, nor the
    same support and more members. *)
Theorem selected_itemsets_have_highest_support processed_results id :
  let subset :=
    sort_values_desc (filter (λ r, id ∈ itemsets r) processed_results) in
  top_n processed_results id = itemsets <$> take 3 subset
  ∧ subset ≡ₚ filter (λ r, id ∈ itemsets r) processed_results
  ∧ ∀ a b, a ∈ take 3 subset → b ∈ drop 3 subset →
      (support b <= support a)%Q
      ∧ ((support b == support a)%Q → len b ≤ len a).
Proof.
  simpl. split_and!; [done|apply sort_values_desc_perm|].
  intros a b Ha Hb.
  pose proof (StronglySorted_take_drop _ _ 3 a b
                (sort_values_desc_Sorted _) Ha Hb) as Hab.
  apply before_false in Hab as [Hlt|[Heq Hlen]].
  - split; [by apply Qlt_le_weak|]. intros Heq. rewrite Heq in Hlt.
    by apply Qlt_irrefl in Hlt.
  - split; [|done]. rewrite Heq. apply Qle_refl.
Qed.

(** When the product ids of the itemsets are at most [2 ^ 53] in absolute
    value, so that the float columns of the frame hold them exactly, the
    final frame holds the row [(id, r)] exactly when [id] is a candidate,
    [r] is another product, and one of the itemsets selected for [id]
    contains [r]; so every recommended product was mined together with the
    product it is recommended for. *)
Theorem final_dataframe_content processed_results (ids : list Z)
    (df : list (Z * Z)) :
  ids_exact processed_results →
  generate_final_dataframe processed_results ids = Ok df →
  (∀ id r, (id, r) ∈ df ↔
     id ∈ ids ∧ r ≠ id ∧ ∃ X, X ∈ top_n processed_results id ∧ r ∈ X)
  ∧ (∀ id r, (id, r) ∈ df →
       ∃ row, row ∈ processed_results
              ∧ id ∈ itemsets row ∧ r ∈ itemsets row).
Proof.
  intros Hexact Hdf.
  pose proof (final_dataframe_rows _ _ _ Hexact Hdf) as Hrows.
  split; [done|].
  intros id r (_ & _ & X & HX & Hr)%Hrows.
  apply elem_of_top_n in HX as (Hid & row & Hrow & <-). eauto.
Qed.

(** The final frame is ordered by product id, whatever the order of the
    candidates; and when the product ids of the itemsets are at most
    [2 ^ 53] in absolute value, so that no two of them share a float, it
    holds no row twice. *)
Theorem final_dataframe_sorted_distinct processed_results (ids : list Z)
    (df : list (Z * Z)) :
  generate_final_dataframe processed_results ids = Ok df →
  StronglySorted (λ a b : Z * Z, (a.1 ≤ b.1)%Z) df
  ∧ (ids_exact processed_results → NoDup df).
Proof.
  unfold generate_final_dataframe.
  destruct (build_dic processed_results ids []) as [dic|e] eqn:Hb; [|done].
  simpl. intros [= <-]. split.
  - apply dropna_Sorted, sort_by_product_id_Sorted.
  - intros Hexact. rewrite (final_frame_exact _ _ _ Hexact Hb).
    destruct (final_rows _ _ _ Hb) as (Hnd & Hentries & _).
    apply NoDup_final; [done|].
    intros id t Hin. destruct (Hentries _ _ Hin) as (s & _ & ->).
    apply NoDup_elements.
Qed.

(** [generate_final_dataframe] returns exactly when every candidate is a
    member of some itemset of the processed results; a candidate outside
    all of them raises [KeyError], from [unique_set.remove]. *)
Theorem final_dataframe_KeyError_iff processed_results (ids : list Z) :
  ((∃ df, generate_final_dataframe processed_results ids = Ok df) ↔
   Forall (λ id, id ∈ product_id_set processed_results) ids)
  ∧ (generate_final_dataframe processed_results ids = Raise KeyError ↔
     ¬ Forall (λ id, id ∈ product_id_set processed_results) ids).
Proof.
  unfold generate_final_dataframe.
  destruct (decide (Forall (λ id, id ∈ product_id_set processed_results) ids))
    as [Hall|Hnot].
  - destruct (build_dic_total processed_results ids []) as [dic ->].
    { intros id. by apply (proj1 (Forall_forall _ _) Hall). }
    simpl. split; split; [done|by eexists|done|done].
  - rewrite (build_dic_fail _ _ _ Hnot). simpl.
    split; split; [by intros [? ?]|done..].
Qed.

(** When the product ids of the itemsets are at most [2 ^ 53] in absolute
    value, a candidate that occurs in at most three itemsets is recommended
    every product it was mined with, and nothing else. *)
Theorem few_itemsets_recommend_all_companions processed_results (ids : list Z)
    (df : list (Z * Z)) id :
  ids_exact processed_results →
  generate_final_dataframe processed_results ids = Ok df →
  id ∈ ids →
  length (filter (λ r, id ∈ itemsets r) processed_results) ≤ 3 →
  ∀ r, (id, r) ∈ df ↔
       r ≠ id ∧ ∃ row, row ∈ processed_results
                       ∧ id ∈ itemsets row ∧ r ∈ itemsets row.
Proof.
  intros Hexact Hdf Hid Hlen r.
  rewrite (final_dataframe_rows _ _ _ Hexact Hdf). split.
  - intros (_ & Hne & X & HX & Hr). split; [done|].
    apply (top_n_all _ _ _ Hlen) in HX as (row & Hrow & HidX & <-). eauto.
  - intros (Hne & row & Hrow & HidX & Hr). split_and!; [done..|].
    exists (itemsets row). split; [|done]. apply (top_n_all _ _ _ Hlen). eauto.
Qed.

Lemma process_results_rows (result_set : list (Q * gset Z)) :
  result_set ≠ [] →
  process_results result_set
  = Ok (filter (λ r, 2 < len r)
          ((λ r : Q * gset Z, mkRow r.1 r.2 (size r.2)) <$> result_set)).
Proof. by destruct result_set. Qed.

(** A row of the final frame belongs to a key of the dict. *)
Lemma final_frame_keys processed_results (ids : list Z) dic (row : Z * Z) :
  build_dic processed_results ids [] = Ok dic →
  row ∈ dropna (sort_by_product_id (melt (from_dict dic))) →
  row.1 ∈ ids.
Proof.
  intros Hb (t & _ & Hin & _)%elem_of_final.
  assert (row.1 ∈ keys dic) as Hk.
  { rewrite <- from_dict_keys. by apply (list_elem_of_fmap_2 fst _ (row.1, t)). }
  apply (build_dic_keys _ _ _ _ Hb) in Hk as [Hk|Hk]; [|done].
  by apply elem_of_nil in Hk.
Qed.

(** From the mined result set on: on the frame without rows, which
    FP-growth returns when nothing is frequent, the itemset recommender
    stops with [AttributeError]; on any other mined result set it returns
    a frame. The products of that frame are exactly the members of the
    mined itemsets with more than two items, and each of them gets at
    least two records; when the mined ids are at most [2 ^ 53] in absolute
    value every record pairs two different members of one such itemset. *)
Theorem itemset_recommender_returns (result_set : list (Q * gset Z)) :
  (result_set = [] →
   Main.final_df_of_result_set result_set = Raise AttributeError)
  ∧ (result_set ≠ [] →
     ∃ df,
       Main.final_df_of_result_set result_set = Ok df
       ∧ (∀ id, id ∈ df.*1 ↔ ∃ x, x ∈ result_set ∧ 2 < size x.2 ∧ id ∈ x.2)
       ∧ (∀ id, id ∈ df.*1 → 2 ≤ length (records_of id df))
       ∧ ((∀ x v, x ∈ result_set → v ∈ x.2 → (Z.abs v ≤ 2 ^ 53)%Z) →
          ∀ id r, (id, r) ∈ df →
            r ≠ id
            ∧ ∃ x, x ∈ result_set ∧ 2 < size x.2 ∧ id ∈ x.2 ∧ r ∈ x.2)).
Proof.
  split; [by intros ->|]. intros Hrows_given.
  unfold Main.final_df_of_result_set.
  rewrite (process_results_rows _ Hrows_given). simpl.
  set (processed_results :=
         filter (λ r, 2 < len r)
           ((λ r : Q * gset Z, mkRow r.1 r.2 (size r.2)) <$> result_set)).
  assert (∀ row, row ∈ processed_results ↔
            ∃ x, x ∈ result_set ∧ 2 < size x.2
                 ∧ row = mkRow x.1 x.2 (size x.2)) as Hpr.
  { intros row. unfold processed_results.
    rewrite list_elem_of_filter, list_elem_of_fmap. split.
    - intros [Hlen (x & -> & Hx)]. eauto.
    - intros (x & Hx & Hlen & ->). eauto. }
  assert (∀ id, id ∈ run_ids processed_results ↔
            ∃ x, x ∈ result_set ∧ 2 < size x.2 ∧ id ∈ x.2) as Hids.
  { intros id. unfold run_ids, product_id_set.
    rewrite elem_of_elements, elem_of_union_list. split.
    - intros (X & (row & -> & Hrow)%list_elem_of_fmap & Hid).
      apply Hpr in Hrow as (x & Hx & Hlen & ->). eauto.
    - intros (x & Hx & Hlen & Hid). exists x.2. split; [|done].
      apply list_elem_of_fmap. exists (mkRow x.1 x.2 (size x.2)).
      split; [done|]. apply Hpr. eauto. }
  destruct (build_dic_total processed_results (run_ids processed_results) [])
    as [dic Hb].
  { intros id Hid. unfold run_ids in Hid. by apply elem_of_elements in Hid. }
  assert (generate_final_dataframe processed_results (run_ids processed_results)
          = Ok (dropna (sort_by_product_id (melt (from_dict dic))))) as Hdf
    by (unfold generate_final_dataframe; by rewrite Hb).
  rewrite Hdf. eexists. split; [done|].
  destruct (final_dic _ _ _ Hb) as (Hnd & Hentries & Hkeys).
  assert (∀ id, id ∈ run_ids processed_results →
            2 ≤ length (records_of id
                          (dropna (sort_by_product_id (melt (from_dict dic))))))
    as Hcount.
  { intros id Hid. destruct (Hkeys _ Hid) as [t Hin].
    rewrite (length_records_of _ _ t Hnd Hin).
    destruct (Hentries _ _ Hin) as (s & [-> HidU]%recommended_set_Ok & -> & _).
    rewrite size_difference by (by apply singleton_subseteq_l).
    rewrite size_singleton.
    apply elem_of_union_list in HidU as (X & HX & HidX).
    assert (size X ≤ size (⋃ top_n processed_results id : gset Z)) as Hle.
    { apply subseteq_size. intros y Hy. apply elem_of_union_list. eauto. }
    apply elem_of_top_n in HX as (_ & row & Hrow & <-).
    apply Hpr in Hrow as (x & _ & Hlen & ->). simpl in *. lia. }
  split_and!.
  - intros id. rewrite <- Hids. split.
    + intros (row & -> & Hin)%list_elem_of_fmap.
      by apply (final_frame_keys _ _ _ _ Hb).
    + intros Hid. pose proof (Hcount id Hid) as Hc.
      destruct (records_of id _) as [|row l] eqn:E; [simpl in Hc; lia|].
      assert (row ∈ row :: l) as Hrow by left. rewrite <- E in Hrow.
      apply list_elem_of_filter in Hrow as [<- Hrow].
      by apply list_elem_of_fmap_2.
  - intros id (row & -> & Hin)%list_elem_of_fmap.
    apply Hcount. by apply (final_frame_keys _ _ _ _ Hb).
  - intros Hsmall.
    assert (ids_exact processed_results) as Hexact.
    { intros row v (x & Hx & _ & ->)%Hpr Hv. by apply (Hsmall x). }
    pose proof (final_dataframe_rows _ _ _ Hexact Hdf) as Hrows.
    intros id r (_ & Hne & X & HX & Hr)%Hrows. split; [done|].
    apply elem_of_top_n in HX as (HidX & row & Hrow & <-).
    apply Hpr in Hrow as (x & Hx & Hlen & ->). eauto 6.
Qed.

End ItemsetTheorems.

Section UtilityTheorems.
Import Utility.

(** The write loop ends once it has enough fuel for four tests of its
    condition, and never raises. It calls [to_sql] until the first success,
    at most three times: after a success [to_insert] is cleared and
    [retries_attempted] counts the failures before it; after three failures
    the loop gives up with the frame still unwritten. *)
Theorem write_retries_at_most_three (to_sql : nat → result nat) (fuel : nat) :
  4 ≤ fuel →
  ∃ retries_attempted to_insert,
    write_df_to_database to_sql fuel = Some (retries_attempted, to_insert)
    ∧ retries_attempted ≤ 3
    ∧ (∀ k, k < retries_attempted → ∃ e, to_sql k = Raise e)
    ∧ (to_insert = false →
       retries_attempted < 3 ∧ ∃ rows_inserted, to_sql retries_attempted = Ok rows_inserted)
    ∧ (to_insert = true → retries_attempted = 3).
Proof.
  intros Hfuel. destruct fuel as [|[|[|[|fuel]]]]; [lia..|].
  unfold write_df_to_database.
  assert (∀ f k, while_loop to_sql f k false = Some (k, false)) as Hdone.
  { intros f k. destruct f; simpl; by rewrite andb_false_r. }
  assert (∀ f, while_loop to_sql f 3 true = Some (3, true)) as Hstop.
  { intros f. by destruct f. }
  change (while_loop to_sql (S (S (S (S fuel)))) 0 true)
    with (match to_sql 0 with
          | Ok _ => while_loop to_sql (S (S (S fuel))) 0 false
          | Raise _ =>
              match to_sql 1 with
              | Ok _ => while_loop to_sql (S (S fuel)) 1 false
              | Raise _ =>
                  match to_sql 2 with
                  | Ok _ => while_loop to_sql (S fuel) 2 false
                  | Raise _ => while_loop to_sql (S fuel) 3 true
                  end
              end
          end).
  destruct (to_sql 0) as [r0|e0] eqn:E0.
  { rewrite Hdone. exists 0, false. split_and!; [done|lia| |eauto with lia|done].
    intros k Hk. lia. }
  destruct (to_sql 1) as [r1|e1] eqn:E1.
  { rewrite Hdone. exists 1, false. split_and!; [done|lia| |eauto with lia|done].
    intros k Hk. assert (k = 0) as -> by lia. eauto. }
  destruct (to_sql 2) as [r2|e2] eqn:E2.
  { rewrite Hdone. exists 2, false. split_and!; [done|lia| |eauto with lia|done].
    intros k Hk. assert (k = 0 ∨ k = 1) as [-> | ->] by lia; eauto. }
  rewrite Hstop. exists 3, true. split_and!; [done|lia| |done|done].
  intros k Hk. assert (k = 0 ∨ k = 1 ∨ k = 2) as [-> | [-> | ->]] by lia; eauto.
Qed.

End UtilityTheorems.

(** ** Further theorems: the collaborative filter *)

Section CollabTheorems.
Context {F : Type} `{Float64 F}.
Implicit Types (sim : DataFrame F) (um : DataFrame Z).

(** The raw user-item matrix lists the products as rows and the users as
    columns, each in strictly ascending order, hence without repetition;
    a product or a user is listed exactly when an event names both a user
    and a product; one row of cells per product, one cell per user. *)
Theorem user_item_matrix_labels (df : list Build.event) :
  let matrix := Build.generate_user_item_matrix df in
  StronglySorted Z.lt (index matrix)
  ∧ StronglySorted Z.lt (columns matrix)
  ∧ NoDup (index matrix)
  ∧ NoDup (columns matrix)
  ∧ (∀ p, p ∈ index matrix ↔ ∃ u, (Some u, Some p) ∈ df)
  ∧ (∀ u, u ∈ columns matrix ↔ ∃ p, (Some u, Some p) ∈ df)
  ∧ length (values matrix) = length (index matrix)
  ∧ Forall (λ row, length row = length (columns matrix)) (values matrix).
Proof. apply matrix_labels. Qed.

(** A cell of the raw matrix is the number of events of its user with its
    product, absent when there is none; a present cell is at least 1, and
    no row and no column of the matrix is entirely absent. *)
Theorem user_item_matrix_cells (df : list Build.event) :
  let matrix := Build.generate_user_item_matrix df in
  (∀ p u, p ∈ index matrix → u ∈ columns matrix →
     let n := length (filter (λ r : Build.event, r = (Some u, Some p)) df) in
     loc2 matrix p u = Ok (if n =? 0 then None else Some (Z.of_nat n)))
  ∧ (∀ p u c, loc2 matrix p u = Ok (Some c) → (1 ≤ c)%Z)
  ∧ (∀ p, p ∈ index matrix → ∃ u c, loc2 matrix p u = Ok (Some c))
  ∧ (∀ u, u ∈ columns matrix → ∃ p c, loc2 matrix p u = Ok (Some c)).
Proof. apply matrix_cells. Qed.

(** On a rectangular matrix with distinct labels the pre-processing
    returns a rectangular matrix whose rows and columns are sub-sequences
    of the given ones; a user is kept exactly when a kept item has a
    present cell for it; a kept cell holds the given count, or 0 where
    the count was absent. *)
Theorem preprocess_frame (matrix : DataFrame cell) :
  NoDup (index matrix) → NoDup (columns matrix) → rectangular matrix →
  ∃ processed,
    preprocess_user_item_matrix matrix = Ok processed
    ∧ index processed `sublist_of` index matrix
    ∧ columns processed `sublist_of` columns matrix
    ∧ rectangular processed
    ∧ (∀ u, u ∈ columns processed ↔
         u ∈ columns matrix
         ∧ ∃ p v, p ∈ index processed ∧ loc2 matrix p u = Ok (Some v))
    ∧ (∀ p u, p ∈ index processed → u ∈ columns processed →
         ∃ c, loc2 matrix p u = Ok c
              ∧ loc2 processed p u = Ok (default 0%Z c)).
Proof. apply preprocess_shape. Qed.

(** On the matrix built from raw events the pre-processing keeps an item
    exactly when more than two users have exactly one event with it: a
    user with several events of the item does not count towards keeping
    it. *)
Theorem item_kept_iff_three_single_event_users (df : list Build.event) :
  ∃ processed,
    preprocess_user_item_matrix (Build.generate_user_item_matrix df)
    = Ok processed
    ∧ ∀ p, p ∈ index processed ↔
        2 < length (filter
                      (λ u, length (filter (λ r : Build.event,
                                              r = (Some u, Some p)) df) = 1)
                      (columns (Build.generate_user_item_matrix df))).
Proof. apply preprocess_generate. Qed.

(** A similarity frame that is returned is square and labelled by the
    items on both axes, and the matrix it was computed from has at least
    one item and one user. *)
Theorem similarity_frame_shape um (type : string) sim :
  generate_item_similarity_matrix um type = Ok sim →
  index sim = index um ∧ columns sim = index um
  ∧ length (values sim) = length (values um)
  ∧ Forall (λ row, length row = length (values um)) (values sim)
  ∧ index um ≠ [] ∧ columns um ≠ [].
Proof.
  intros Hsim.
  destruct (similarity_shape um type sim Hsim) as (? & ? & ? & ? & ? & ? & _).
  done.
Qed.

(** With at least two distinct items and the similarity frame of the
    matrix, the recommendations are defined for every user of the matrix,
    for any number asked for, and every recommended id is an item of the
    matrix. *)
Theorem recommendations_defined_for_every_user (picked_userid n : Z) um sim
    (type : string) :
  NoDup (index um) → length (index um) = length (values um) →
  2 ≤ length (index um) →
  generate_item_similarity_matrix um type = Ok sim →
  picked_userid ∈ columns um →
  ∃ rec,
    get_item_recommendations picked_userid n um sim = Ok rec
    ∧ user_id rec = picked_userid
    ∧ ∀ k, k ∈ product_id rec → k ∈ index um.
Proof.
  intros Hnd Hlen H2 Hsim Hu.
  destruct (get_item_recommendations_total picked_userid n um sim type)
    as [rec Hrec]; [done..|].
  exists rec. split_and!; [done| |].
  - by apply (get_item_recommendations_user_id _ _ _ _ _ Hrec).
  - intros k Hk. destruct (similarity_shape um type sim Hsim) as (_ & <- & _).
    by apply (recommended_in_columns _ _ _ _ _ _ Hrec).
Qed.

(** With at least two distinct items, distinct users and a non-zero cell
    in every user's column, the batch returns a frame in which every user
    has a row with a product, every row recommends an item of the matrix
    to a user of the matrix with type 1, and no row occurs twice. *)
Theorem batch_covers_all_users um sim (type : string) :
  NoDup (index um) → NoDup (columns um) →
  length (index um) = length (values um) → 2 ≤ length (index um) →
  generate_item_similarity_matrix um type = Ok sim →
  (∀ u, u ∈ columns um → ∃ p c, loc2 um p u = Ok c ∧ c ≠ 0%Z) →
  ∃ final_df,
    generate_final_recommendation_df um sim = Ok final_df
    ∧ (∀ u, u ∈ columns um → ∃ k, (u, 1%Z, Some k) ∈ final_df)
    ∧ (∀ row, row ∈ final_df →
         row.1.1 ∈ columns um ∧ row.1.2 = 1%Z
         ∧ ∃ k, row.2 = Some k ∧ k ∈ index um)
    ∧ NoDup final_df.
Proof. apply batch_all_users. Qed.

End CollabTheorems.

(** ** The further theorems on the sample data *)

Lemma Q_fltb_asym (x y : Q) : fltb x y = true → fltb y x = false.
Proof.
  simpl. intros Hlt. apply negb_true_iff in Hlt. apply negb_false_iff.
  apply Qle_bool_iff. apply Qlt_le_weak, Qnot_le_lt. intros Hle.
  apply Qle_bool_iff in Hle. congruence.
Qed.

Lemma Q_fltb_negtrans (x y z : Q) :
  fltb x y = false → fltb y z = false → fltb x z = false.
Proof.
  simpl. rewrite !negb_false_iff, !Qle_bool_iff. intros Hyx Hzy.
  by apply Qle_trans with y.
Qed.

Lemma preprocess_frame_witness :
  ∃ processed,
    preprocess_user_item_matrix Samples.raw_matrix = Ok processed
    ∧ index processed `sublist_of` index Samples.raw_matrix
    ∧ columns processed `sublist_of` columns Samples.raw_matrix
    ∧ rectangular processed.
Proof.
  destruct (preprocess_frame Samples.raw_matrix)
    as (processed & Hp & Hidx & Hcols & Hrect & _).
  - by_compute.
  - by_compute.
  - split; [reflexivity|]. repeat constructor.
  - exists processed. split_and!; assumption.
Defined.

Lemma similarity_frame_shape_witness :
  index Samples.worked_similarity = [10; 20; 30]%Z
  ∧ columns Samples.worked_similarity = [10; 20; 30]%Z
  ∧ length (values Samples.worked_similarity) = 3.
Proof.
  destruct (similarity_frame_shape Samples.worked_matrix "cosine"
              Samples.worked_similarity worked_similarity_cosine)
    as (Hidx & Hcols & Hlen & _).
  split_and!; [exact Hidx|exact Hcols|exact Hlen].
Defined.

Lemma jaccard_self_similarity_witness :
  ∃ sim,
    generate_item_similarity_matrix (F:=Q) Samples.worked_matrix "jaccard"
    = Ok sim
    ∧ loc2 sim 20 20 = Ok 1%Q.
Proof.
  assert (∃ sim, generate_item_similarity_matrix (F:=Q) Samples.worked_matrix
                   "jaccard" = Ok sim)
    as [sim Hsim] by (eexists; vm_compute; reflexivity).
  exists sim. split; [exact Hsim|].
  assert (20%Z ∈ index Samples.worked_matrix) as Hin by by_compute.
  exact (jaccard_self_similarity (F:=Q) Samples.worked_matrix sim 20%Z
           Hsim eq_refl Hin).
Defined.

Lemma jaccard_ignores_counts_witness :
  generate_item_similarity_matrix (F:=Q) Samples.worked_matrix "jaccard"
  = generate_item_similarity_matrix (F:=Q) Events.recounted_matrix "jaccard".
Proof.
  apply (jaccard_ignores_counts Samples.worked_matrix Events.recounted_matrix);
    reflexivity.
Defined.

Lemma nearest_item_is_maximal_witness :
  ∃ r series,
    nearest_item Samples.worked_similarity 10 = Ok r
    ∧ r.1 = 30%Z
    ∧ loc Samples.worked_similarity 10 = Ok series
    ∧ r ∈ series
    ∧ ∀ c, c ∈ series → c.1 ≠ 10%Z → fltb r.2 c.2 = false.
Proof.
  assert (∃ r, nearest_item Samples.worked_similarity 10 = Ok r ∧ r.1 = 30%Z)
    as (r & Hr & H30) by (eexists; split; vm_compute; reflexivity).
  destruct (nearest_item_is_maximal Samples.worked_similarity 10%Z r
              Q_fltb_asym Q_fltb_negtrans) as (series & Hs & Hin & Hmax).
  - by_compute.
  - exact Hr.
  - exists r, series. split_and!; assumption.
Defined.

Lemma seeds_are_top_counts_witness :
  viewed_products 2 1 Samples.worked_matrix = Ok [(20, 3)]%Z
  ∧ ∃ rest,
      [(20, 3)]%Z ++ rest
      ≡ₚ filter (λ c : Z * Z, c.2 ≠ 0%Z) [(10, 0); (20, 3); (30, 1)]%Z
      ∧ ∀ s c, s ∈ [(20, 3)]%Z → c ∈ rest → (c.2 ≤ s.2)%Z.
Proof.
  split; [vm_compute; reflexivity|].
  apply (seeds_are_top_counts 2 1 Samples.worked_matrix); vm_compute; reflexivity.
Defined.

Lemma unknown_user_raises_KeyError_witness :
  get_item_recommendations 9 NUM_RECOMMENDATIONS Samples.worked_matrix
    Samples.worked_similarity
  = Raise KeyError.
Proof.
  apply (unknown_user_raises_KeyError 9 NUM_RECOMMENDATIONS Samples.worked_matrix
           Samples.worked_similarity).
  by_compute.
Defined.

Lemma no_seed_gives_missing_row_witness :
  get_item_recommendations 1 NUM_RECOMMENDATIONS Samples.single_item_matrix
    Samples.single_item_similarity
  = Ok (mkRecommendation 1 1 [])
  ∧ explode (mkRecommendation 1 1 []) = [(1, 1, None)]%Z.
Proof.
  apply (no_seed_gives_missing_row 1 NUM_RECOMMENDATIONS
           Samples.single_item_matrix Samples.single_item_similarity
           [(10, 0)]%Z).
  - reflexivity.
  - left. intros c Hc. apply list_elem_of_singleton in Hc. by rewrite Hc.
Defined.


Lemma recommendations_defined_for_every_user_witness :
  ∃ rec,
    get_item_recommendations 2 NUM_RECOMMENDATIONS Samples.worked_matrix
      Samples.worked_similarity = Ok rec
    ∧ user_id rec = 2%Z
    ∧ ∀ k, k ∈ product_id rec → k ∈ [10; 20; 30]%Z.
Proof.
  apply (recommendations_defined_for_every_user 2 NUM_RECOMMENDATIONS
           Samples.worked_matrix Samples.worked_similarity "cosine").
  - by_compute.
  - reflexivity.
  - simpl. lia.
  - exact worked_similarity_cosine.
  - by_compute.
Defined.

Lemma batch_covers_all_users_witness :
  ∃ final_df,
    generate_final_recommendation_df Samples.worked_matrix
      Samples.worked_similarity = Ok final_df
    ∧ (∀ u, u ∈ [1; 2; 3]%Z → ∃ k, (u, 1%Z, Some k) ∈ final_df)
    ∧ NoDup final_df.
Proof.
  destruct (batch_covers_all_users Samples.worked_matrix
              Samples.worked_similarity "cosine")
    as (final_df & Hdf & Hall & _ & Hnd).
  - by_compute.
  - by_compute.
  - reflexivity.
  - simpl. lia.
  - exact worked_similarity_cosine.
  - intros u Hu. change (u ∈ [1; 2; 3]%Z) in Hu.
    apply elem_of_cons in Hu as [->|Hu];
      [exists 10%Z, 2%Z; split; [vm_compute; reflexivity|done]|].
    apply elem_of_cons in Hu as [->|Hu];
      [exists 20%Z, 3%Z; split; [vm_compute; reflexivity|done]|].
    apply list_elem_of_singleton in Hu as ->.
    exists 30%Z, 2%Z. split; [vm_compute; reflexivity|done].
  - exists final_df. split_and!; assumption.
Defined.

Lemma collaborative_pipeline_outcome_witness :
  ∃ processed,
    preprocess_user_item_matrix (Build.generate_user_item_matrix Events.events)
    = Ok processed
    ∧ index processed = [10; 20]%Z
    ∧ columns processed = [1; 2; 3]%Z
    ∧ ∃ final_df,
        Main.final_recommendation_df_of_events (F:=Q) Events.events "jaccard"
        = Ok final_df
        ∧ (∀ u, u ∈ columns processed → ∃ k, (u, 1%Z, Some k) ∈ final_df)
        ∧ NoDup final_df.
Proof.
  destruct (collaborative_pipeline_outcome (F:=Q) Events.events "jaccard")
    as (processed & Hp & Hok & _); [by right|].
  assert (index processed = [10; 20]%Z ∧ columns processed = [1; 2; 3]%Z)
    as [Hidx Hcols].
  { vm_compute in Hp. injection Hp as <-. by split. }
  destruct Hok as (final_df & Hdf & Hall & _ & Hnd); [rewrite Hidx; simpl; lia|].
  exists processed. split_and!; [exact Hp|exact Hidx|exact Hcols|].
  exists final_df. split_and!; assumption.
Defined.

Lemma final_dataframe_content_witness :
  ∃ df,
    generate_final_dataframe Samples.surviving (run_ids Samples.surviving)
    = Ok df
    ∧ ∀ id r, (id, r) ∈ df →
        ∃ row, row ∈ Samples.surviving ∧ id ∈ itemsets row ∧ r ∈ itemsets row.
Proof.
  assert (∃ df, generate_final_dataframe Samples.surviving
                  (run_ids Samples.surviving) = Ok df)
    as [df Hdf] by (eexists; vm_compute; reflexivity).
  exists df. split; [exact Hdf|].
  assert (ids_exact Samples.surviving) as Hexact
    by (apply ids_exact_elements; by_compute).
  exact (proj2 (final_dataframe_content Samples.surviving
                  (run_ids Samples.surviving) df Hexact Hdf)).
Defined.

Lemma final_dataframe_sorted_distinct_witness :
  ∃ df,
    generate_final_dataframe Samples.surviving (run_ids Samples.surviving)
    = Ok df
    ∧ StronglySorted (λ a b : Z * Z, (a.1 ≤ b.1)%Z) df
    ∧ NoDup df.
Proof.
  assert (∃ df, generate_final_dataframe Samples.surviving
                  (run_ids Samples.surviving) = Ok df)
    as [df Hdf] by (eexists; vm_compute; reflexivity).
  exists df. split; [exact Hdf|].
  destruct (final_dataframe_sorted_distinct Samples.surviving
              (run_ids Samples.surviving) df Hdf) as [Hsorted Hnd].
  split; [exact Hsorted|].
  apply Hnd, ids_exact_elements. by_compute.
Defined.

Lemma few_itemsets_recommend_all_companions_witness :
  ∃ df,
    generate_final_dataframe Samples.surviving (run_ids Samples.surviving)
    = Ok df
    ∧ ∀ r, (2%Z, r) ∈ df ↔
           r ≠ 2%Z ∧ ∃ row, row ∈ Samples.surviving
                            ∧ 2%Z ∈ itemsets row ∧ r ∈ itemsets row.
Proof.
  assert (∃ df, generate_final_dataframe Samples.surviving
                  (run_ids Samples.surviving) = Ok df)
    as [df Hdf] by (eexists; vm_compute; reflexivity).
  exists df. split; [exact Hdf|].
  apply (few_itemsets_recommend_all_companions Samples.surviving
           (run_ids Samples.surviving) df 2%Z); [|exact Hdf| |].
  - apply ids_exact_elements. by_compute.
  - by_compute.
  - vm_compute. lia.
Defined.

Lemma write_retries_at_most_three_witness :
  4 ≤ 4
  ∧ ∃ retries_attempted to_insert,
      Utility.write_df_to_database Events.flaky_to_sql 4
      = Some (retries_attempted, to_insert)
      ∧ retries_attempted ≤ 3.
Proof.
  split; [lia|].
  destruct (write_retries_at_most_three Events.flaky_to_sql 4)
    as (retries_attempted & to_insert & Hrun & Hle & _); [lia|].
  exists retries_attempted, to_insert. by split.
Defined.

Lemma itemset_recommender_returns_witness :
  Samples.mined ≠ []
  ∧ ∃ df,
      Main.final_df_of_result_set Samples.mined = Ok df
      ∧ (∀ id, id ∈ df.*1 → 2 ≤ length (records_of id df)).
Proof.
  split; [discriminate|].
  destruct (itemset_recommender_returns Samples.mined) as [_ Hreturns].
  destruct Hreturns as (df & Hdf & _ & Hcount & _); [discriminate|].
  exists df. split; assumption.
Defined.
